(** * A shallow embedding of the todo application's core

    The development follows the source files that make up the core of the
    application:

    - [models/Todo.js]: the [Todo] entity and its validation;
    - [services/storageService.js]: the file-backed record store
      ([StorageService]: temp-file-plus-rename writes over a JSON file);
    - [services/todoService.js]: the CRUD service ([TodoService]) that loads
      the whole collection, changes it and saves it back;
    - [controllers/todoController.js]: the handlers of the HTTP layer.

    JavaScript values are a first-order datatype [Value]; strings are Rocq
    strings, one character per code unit (so the model covers code units
    0..255); exceptions are an explicit result type threaded through a
    state-and-error monad over a [World] that holds the file system, the
    pending I/O faults, the clock and the uuid source. *)

From Stdlib Require Import ZArith Ascii String List Lia Bool DecimalString DecimalZ.
From stdpp Require Import base option list gmap strings.

#[local] Open Scope Z_scope.
#[local] Open Scope nat_scope.

(** ** Strings *)

Module Str.

(** Code units that [String.prototype.trim] strips (WhiteSpace and
    LineTerminator of ECMA-262), restricted to code units below 256:
    TAB, LF, VT, FF, CR, SPACE and NBSP. *)
Definition is_js_space (c : ascii) : bool :=
  match c with
  | "009" | "010" | "011" | "012" | "013" | " " | "160" => true
  | _ => false
  end%char.

Fixpoint trimStart (s : string) : string :=
  match s with
  | EmptyString => EmptyString
  | String c r => if is_js_space c then trimStart r else s
  end.

Fixpoint trimEnd (s : string) : string :=
  match s with
  | EmptyString => EmptyString
  | String c r =>
      match trimEnd r with
      | EmptyString => if is_js_space c then EmptyString else String c EmptyString
      | r' => String c r'
      end
  end.

(** [s.trim()] *)
Definition trim (s : string) : string := trimEnd (trimStart s).

(** ['a'.repeat(n)] *)
Fixpoint repeat (c : ascii) (n : nat) : string :=
  match n with
  | O => EmptyString
  | S n' => String c (repeat c n')
  end.

(** A text written with single quotes where it has double quotes. *)
Fixpoint dq (s : string) : string :=
  match s with
  | EmptyString => EmptyString
  | String c r => String (if Ascii.eqb c "'" then "034"%char else c) (dq r)
  end.

(** [s.startsWith(p)], returning the rest of [s] after the prefix. *)
Fixpoint strip_prefix (p s : string) : option string :=
  match p, s with
  | EmptyString, _ => Some s
  | String a p', String b s' => if Ascii.eqb a b then strip_prefix p' s' else None
  | String _ _, EmptyString => None
  end.

End Str.

(** ** JavaScript values and errors *)

Module JS.

(** A [Date] object: its time value in milliseconds since the epoch, or
    [None] for an invalid date. *)
Definition Date : Type := option Z.

(** The values the program manipulates.  Numbers are the integer-valued
    ones; an object is the list of its own properties in insertion
    order. *)
Unset Elimination Schemes.
Inductive Value : Type :=
| VUndefined
| VNull
| VBool (b : bool)
| VNum (n : Z)
| VStr (s : string)
| VDate (d : Date)
| VArr (elems : list Value)
| VObj (props : list (string * Value)).
Set Elimination Schemes.

Inductive JsType : Type :=
| TUndefined | TObject | TBoolean | TNumber | TString.

(** [typeof v] *)
Definition typeof (v : Value) : JsType :=
  match v with
  | VUndefined => TUndefined
  | VNull => TObject
  | VBool _ => TBoolean
  | VNum _ => TNumber
  | VStr _ => TString
  | VDate _ => TObject
  | VArr _ => TObject
  | VObj _ => TObject
  end.

(** [!!v] *)
Definition truthy (v : Value) : bool :=
  match v with
  | VUndefined | VNull => false
  | VBool b => b
  | VNum n => negb (Z.eqb n 0)
  | VStr s => negb (String.eqb s EmptyString)
  | VDate _ | VArr _ | VObj _ => true
  end.

Definition is_string (v : Value) : bool :=
  match v with VStr _ => true | _ => false end.

Definition is_object_type (v : Value) : bool :=
  match typeof v with TObject => true | _ => false end.

(** [Array.isArray(v)] *)
Definition isArray (v : Value) : bool :=
  match v with VArr _ => true | _ => false end.

Fixpoint assoc (k : string) (ps : list (string * Value)) : option Value :=
  match ps with
  | [] => None
  | (k', v) :: ps' => if String.eqb k k' then Some v else assoc k ps'
  end.

(** [v.k] for the property names the program reads ([id], [description],
    [completed], [createdAt], [updatedAt]): an own property of a plain
    object, [undefined] on arrays, dates and on a missing property.  The
    program never reads a property of a primitive. *)
Definition get (v : Value) (k : string) : Value :=
  match v with
  | VObj ps => default VUndefined (assoc k ps)
  | _ => VUndefined
  end.

(** [v === s] for a string [s] *)
Definition strict_eq_str (v : Value) (s : string) : bool :=
  match v with
  | VStr s' => String.eqb s' s
  | _ => false
  end.

Inductive ErrorClass : Type := ClsError | ClsSyntaxError | ClsTypeError.

(** An exception object: its constructor, its [message], and the [code]
    that file-system errors carry. *)
Record Error : Type := mkError {
  cls : ErrorClass;
  message : string;
  code : option string
}.

(** [new Error(msg)] *)
Definition newError (msg : string) : Error :=
  {| cls := ClsError; message := msg; code := None |}.

(** [error instanceof SyntaxError] *)
Definition instanceofSyntaxError (e : Error) : bool :=
  match cls e with ClsSyntaxError => true | _ => false end.

(** [error.code === c] *)
Definition code_is (e : Error) (c : string) : bool :=
  match code e with
  | Some c' => String.eqb c' c
  | None => false
  end.

End JS.
Export JS.

(** ** The world and the monad of effects *)

(** An injected fault of a file-system call: the error it rejects with and,
    for a write, what the interrupted call left at the written path
    ([None]: the path was not touched; [Some s]: a file holding [s]). *)
Record Fault : Type := mkFault {
  f_error : Error;
  f_partial : option string
}.

(** The runtime's [Date] conversions: [Date.prototype.toISOString] on a valid
    time value, and the time value of [new Date(v)]. *)
Class DateRuntime : Type := {
  Date_toISOString : Z → string;
  Date_new : Value → Date
}.

Record World : Type := mkWorld {
  files : gmap string string;          (* path ↦ content of the file there *)
  faults : list (option Fault);        (* outcome of the next fs calls *)
  clock : nat → Z;                     (* successive readings of the clock *)
  ticks : nat;
  uuids : nat → string;                (* successive results of uuidv4() *)
  drawn : nat
}.

Inductive Result (A : Type) : Type :=
| Ok (a : A)
| Throw (e : Error).
Arguments Ok {A} a.
Arguments Throw {A} e.

Definition M (A : Type) : Type := World → Result A * World.

Definition ret {A} (a : A) : M A := fun w => (Ok a, w).
Definition throw {A} (e : Error) : M A := fun w => (Throw e, w).
Definition bind {A B} (m : M A) (k : A → M B) : M B :=
  fun w => match m w with
           | (Ok a, w') => k a w'
           | (Throw e, w') => (Throw e, w')
           end.
(** [try { m } catch (e) { h e }] *)
Definition try_catch {A} (m : M A) (h : Error → M A) : M A :=
  fun w => match m w with
           | (Ok a, w') => (Ok a, w')
           | (Throw e, w') => h e w'
           end.

Notation "'let*' x ':=' m 'in' k" := (bind m (fun x => k))
  (at level 10, x name, m at level 100, k at level 200).
Notation "m1 ';;' m2" := (bind m1 (fun _ => m2))
  (at level 100, m2 at level 200, right associativity).

Fixpoint mapM {A B} (f : A → M B) (l : list A) : M (list B) :=
  match l with
  | [] => ret []
  | x :: l' => let* y := f x in let* ys := mapM f l' in ret (y :: ys)
  end.

Definition is_throw {A} (r : Result A) : bool :=
  match r with Throw _ => true | Ok _ => false end.

(** [new Date()] *)
Definition Date_now : M Date := fun w =>
  (Ok (Some (clock w (ticks w))),
   {| files := files w; faults := faults w; clock := clock w;
      ticks := S (ticks w); uuids := uuids w; drawn := drawn w |}).

(** [uuidv4()] *)
Definition uuidv4 : M string := fun w =>
  (Ok (uuids w (drawn w)),
   {| files := files w; faults := faults w; clock := clock w;
      ticks := ticks w; uuids := uuids w; drawn := S (drawn w) |}).

(** ** models/Todo.js *)

Module Todo.

Record t : Type := mk {
  id : Value;
  description : string;
  completed : bool;
  createdAt : Date;
  updatedAt : Date
}.

(** [validateDescription(description)] *)
Definition validateDescription (description : Value) : Result string :=
  match description with
  | VStr s =>
      let trimmed := Str.trim s in
      if String.length trimmed =? 0 then
        Throw (newError "Description cannot be empty")
      else if 500 <? String.length trimmed then
        Throw (newError "Description cannot exceed 500 characters")
      else Ok trimmed
  | _ => Throw (newError "Description must be a string")
  end.

Definition lift {A} (r : Result A) : M A := fun w => (r, w).

(** [new Todo(description, id)] *)
Definition new (description : Value) (id0 : Value) : M t :=
  let* i := (if truthy id0 then ret id0
             else let* u := uuidv4 in ret (VStr u)) in
  let* d := lift (validateDescription description) in
  let* c := Date_now in
  let* u := Date_now in
  ret {| id := i; description := d; completed := false;
         createdAt := c; updatedAt := u |}.

(** [todo.updateDescription(newDescription)] *)
Definition updateDescription (todo : t) (newDescription : Value) : M t :=
  let* d := lift (validateDescription newDescription) in
  let* u := Date_now in
  ret {| id := id todo; description := d; completed := completed todo;
         createdAt := createdAt todo; updatedAt := u |}.

(** [todo.toggleComplete()] *)
Definition toggleComplete (todo : t) : M t :=
  let* u := Date_now in
  ret {| id := id todo; description := description todo;
         completed := negb (completed todo);
         createdAt := createdAt todo; updatedAt := u |}.

(** [todo.setCompleted(completed)] *)
Definition setCompleted (todo : t) (c : Value) : M t :=
  match c with
  | VBool b =>
      let* u := Date_now in
      ret {| id := id todo; description := description todo; completed := b;
             createdAt := createdAt todo; updatedAt := u |}
  | _ => throw (newError "Completed status must be a boolean")
  end.

(** [todo.toJSON()] *)
Definition toJSON (todo : t) : Value :=
  VObj [("id", id todo);
        ("description", VStr (description todo));
        ("completed", VBool (completed todo));
        ("createdAt", VDate (createdAt todo));
        ("updatedAt", VDate (updatedAt todo))].

(** [Todo.fromJSON(data)] *)
Definition fromJSON `{DateRuntime} (data : Value) : M t :=
  if negb (truthy data) || negb (is_object_type data) then
    throw (newError "Invalid todo data")
  else
    let* todo := new (get data "description") (get data "id") in
    let c := match get data "completed" with
             | VBool b => b
             | _ => completed todo
             end in
    let ca := if truthy (get data "createdAt")
              then Date_new (get data "createdAt") else createdAt todo in
    let ua := if truthy (get data "updatedAt")
              then Date_new (get data "updatedAt") else updatedAt todo in
    ret {| id := id todo; description := description todo; completed := c;
           createdAt := ca; updatedAt := ua |}.

(** [Todo.validate(data)] *)
Definition validate (data : Value) : Result bool :=
  if negb (truthy data) || negb (is_object_type data) then
    Throw (newError "Todo data must be an object")
  else if negb (truthy (get data "id")) || negb (is_string (get data "id")) then
    Throw (newError "Todo must have a valid ID")
  else
    match get data "description" with
    | VStr s =>
        if negb (truthy (VStr s)) then
          Throw (newError "Todo must have a valid description")
        else if String.length (Str.trim s) =? 0 then
          Throw (newError "Todo description cannot be empty")
        else if 500 <? String.length s then
          Throw (newError "Todo description cannot exceed 500 characters")
        else
          match get data "completed" with
          | VUndefined | VBool _ => Ok true
          | _ => Throw (newError "Todo completed status must be a boolean")
          end
    | _ => Throw (newError "Todo must have a valid description")
    end.

End Todo.

(** ** The runtime's JSON codec

    [JSON.stringify(v, null, 2)] and [JSON.parse], after ECMA-262
    (SerializeJSONProperty, QuoteJSONString, the JSON grammar), on the
    values of the model.  The printer prepends the text of a value to a
    continuation [k].

    The codec is the runtime's on a fragment of JSON, and the statements
    about it stay inside that fragment:
    - numbers are integers ([Z]); a literal with a fraction or an
      exponent, which the runtime reads as a double, has no value here
      and the parser gives [None] for it, an integer beyond 2^53 is kept
      exact where the runtime rounds it, and the printer writes every
      integer in full where the runtime changes to exponent notation from
      1e21 on.  The round trip is proved for values without numbers;
    - strings are code units below 256, so an escape [\uXXXX] of a code
      unit from 256 on has no value here either ([None]);
    - an object keeps its keys in the order of the text; the runtime
      lists keys that are array indices first.  The program reads
      properties by name, never in order.
    So [parse text = None] says that [text] is not JSON only for a text
    that stays clear of numbers and escapes ([plain_text] below). *)

Module JSON.

Definition hex_digit (n : N) : ascii :=
  match n with
  | 0 => "0" | 1 => "1" | 2 => "2" | 3 => "3" | 4 => "4" | 5 => "5"
  | 6 => "6" | 7 => "7" | 8 => "8" | 9 => "9" | 10 => "a" | 11 => "b"
  | 12 => "c" | 13 => "d" | 14 => "e" | _ => "f"
  end%N%char.

(** One code unit of a quoted string. *)
Definition quote_char (c : ascii) (k : string) : string :=
  match c with
  | "034" => String "\" (String "034" k)
  | "\" => String "\" (String "\" k)
  | "008" => String "\" (String "b" k)
  | "009" => String "\" (String "t" k)
  | "010" => String "\" (String "n" k)
  | "012" => String "\" (String "f" k)
  | "013" => String "\" (String "r" k)
  | _ =>
      if (N_of_ascii c <? 32)%N then
        String "\" (String "u" (String "0" (String "0"
          (String (hex_digit (N_of_ascii c / 16))
             (String (hex_digit (N_of_ascii c mod 16)) k)))))
      else String c k
  end%char.

Fixpoint quote_chars (s : string) (k : string) : string :=
  match s with
  | EmptyString => k
  | String c r => quote_char c (quote_chars r k)
  end.

(** QuoteJSONString *)
Definition quote (s : string) (k : string) : string :=
  String "034" (quote_chars s (String "034" k)).

Fixpoint spaces (n : nat) (k : string) : string :=
  match n with
  | O => k
  | S n' => String " " (spaces n' k)
  end.

(** A line feed and the indentation of the new line. *)
Definition nl (ind : nat) (k : string) : string := String "010" (spaces ind k).

Definition sep (first : bool) (k : string) : string :=
  if first then k else String "," k.

(** Number::toString on an integer. *)
Definition dec (n : Z) : string := NilZero.string_of_int (Z.to_int n).

(** SerializeJSONProperty with gap of two spaces, at indentation [ind].
    [undefined] is handled by the callers: it prints as [null] in an
    array and the property is left out of an object. *)
Fixpoint ser `{DateRuntime} (ind : nat) (v : Value) (k : string) {struct v} : string :=
  match v with
  | VUndefined | VNull | VDate None => "null" +:+ k
  | VBool true => "true" +:+ k
  | VBool false => "false" +:+ k
  | VNum n => dec n +:+ k
  | VStr s => quote s k
  | VDate (Some t) => quote (Date_toISOString t) k
  | VArr l =>
      String "["
        ((fix elems (first : bool) (l : list Value) : string :=
            match l with
            | [] => if first then String "]" k else nl ind (String "]" k)
            | x :: l' =>
                sep first (nl (ind + 2) (ser (ind + 2) x (elems false l')))
            end) true l)
  | VObj ps =>
      String "{"
        ((fix members (first : bool) (ps : list (string * Value)) : string :=
            match ps with
            | [] => if first then String "}" k else nl ind (String "}" k)
            | (_, VUndefined) :: ps' => members first ps'
            | (key, x) :: ps' =>
                sep first (nl (ind + 2) (quote key (String ":" (String " "
                  (ser (ind + 2) x (members false ps'))))))
            end) true ps)
  end.

(** The elements of an array and the members of an object, as [ser]
    prints them after the opening bracket. *)
Definition ser_elems `{DateRuntime} (ind : nat) (k : string) :
    bool → list Value → string :=
  fix elems (first : bool) (l : list Value) : string :=
    match l with
    | [] => if first then String "]" k else nl ind (String "]" k)
    | x :: l' =>
        sep first (nl (ind + 2) (ser (ind + 2) x (elems false l')))
    end.

Definition ser_members `{DateRuntime} (ind : nat) (k : string) :
    bool → list (string * Value) → string :=
  fix members (first : bool) (ps : list (string * Value)) : string :=
    match ps with
    | [] => if first then String "}" k else nl ind (String "}" k)
    | (_, VUndefined) :: ps' => members first ps'
    | (key, x) :: ps' =>
        sep first (nl (ind + 2) (quote key (String ":" (String " "
          (ser (ind + 2) x (members false ps'))))))
    end.

(** [JSON.stringify(v, null, 2)]; [None] stands for the result
    [undefined]. *)
Definition stringify `{DateRuntime} (v : Value) : option string :=
  match v with
  | VUndefined => None
  | _ => Some (ser 0 v EmptyString)
  end.

(** *** Parsing *)

Definition is_json_ws (c : ascii) : bool :=
  match c with
  | " " | "009" | "010" | "013" => true
  | _ => false
  end%char.

Fixpoint skip_ws (s : string) : string :=
  match s with
  | EmptyString => EmptyString
  | String c r => if is_json_ws c then skip_ws r else s
  end.

Definition hex_val (c : ascii) : option N :=
  let n := N_of_ascii c in
  if ((48 <=? n) && (n <=? 57))%N then Some (n - 48)%N
  else if ((97 <=? n) && (n <=? 102))%N then Some (n - 87)%N
  else if ((65 <=? n) && (n <=? 70))%N then Some (n - 55)%N
  else None.

(** The code unit of a four-digit hexadecimal escape, when it is below 256. *)
Definition hex4 (a b c d : ascii) : option ascii :=
  match hex_val a, hex_val b, hex_val c, hex_val d with
  | Some x, Some y, Some z, Some t =>
      let n := (((x * 16 + y) * 16 + z) * 16 + t)%N in
      if (n <? 256)%N then Some (ascii_of_N n) else None
  | _, _, _, _ => None
  end.

Definition cons_char (c : ascii) (r : option (string * string)) :
    option (string * string) :=
  match r with
  | Some (s, rest) => Some (String c s, rest)
  | None => None
  end.

(** The characters of a string literal, after its opening quote. *)
Fixpoint parse_chars (s : string) : option (string * string) :=
  match s with
  | EmptyString => None
  | String c r =>
      if Ascii.eqb c "034" then Some (EmptyString, r)
      else if Ascii.eqb c "\" then
        match r with
        | String e r1 =>
            if Ascii.eqb e "034" then cons_char "034" (parse_chars r1)
            else if Ascii.eqb e "\" then cons_char "\" (parse_chars r1)
            else if Ascii.eqb e "/" then cons_char "/" (parse_chars r1)
            else if Ascii.eqb e "b" then cons_char "008" (parse_chars r1)
            else if Ascii.eqb e "f" then cons_char "012" (parse_chars r1)
            else if Ascii.eqb e "n" then cons_char "010" (parse_chars r1)
            else if Ascii.eqb e "r" then cons_char "013" (parse_chars r1)
            else if Ascii.eqb e "t" then cons_char "009" (parse_chars r1)
            else if Ascii.eqb e "u" then
              match r1 with
              | String a (String b (String c' (String d r2))) =>
                  match hex4 a b c' d with
                  | Some u => cons_char u (parse_chars r2)
                  | None => None
                  end
              | _ => None
              end
            else None
        | EmptyString => None
        end
      else if (N_of_ascii c <? 32)%N then None
      else cons_char c (parse_chars r)
  end.

Definition is_digit (c : ascii) : bool :=
  match c with
  | "0" | "1" | "2" | "3" | "4" | "5" | "6" | "7" | "8" | "9" => true
  | _ => false
  end%char.

Fixpoint span_digits (s : string) : string * string :=
  match s with
  | EmptyString => (EmptyString, EmptyString)
  | String c r =>
      if is_digit c then
        let '(ds, rest) := span_digits r in (String c ds, rest)
      else (EmptyString, s)
  end.

(** An integer literal.  A literal with a fraction or an exponent denotes
    a number outside the model and is not accepted. *)
Definition parse_number (s : string) : option (Value * string) :=
  let '(neg, s1) := match s with
                    | String "-" r => (true, r)
                    | _ => (false, s)
                    end in
  let '(ds, rest) := span_digits s1 in
  match ds with
  | EmptyString => None
  | String "0" (String _ _) => None
  | _ =>
      match rest with
      | String "." _ | String "e" _ | String "E" _ => None
      | _ =>
          match NilZero.uint_of_string ds with
          | Some u =>
              Some (VNum (if neg : bool then (- Z.of_uint u)%Z else Z.of_uint u), rest)
          | None => None
          end
      end
  end.

(** CreateDataProperty on the object under construction: a repeated key
    keeps its first position and takes the last value. *)
Fixpoint obj_set (k : string) (v : Value) (ps : list (string * Value)) :
    list (string * Value) :=
  match ps with
  | [] => [(k, v)]
  | (k', v') :: ps' =>
      if String.eqb k k' then (k', v) :: ps' else (k', v') :: obj_set k v ps'
  end.

Definition build_obj (ps : list (string * Value)) : list (string * Value) :=
  fold_left (fun acc kv => obj_set (fst kv) (snd kv) acc) ps [].

(** Skips white space and reads the character [c]. *)
Definition expect (c : ascii) (s : string) : option string :=
  match skip_ws s with
  | EmptyString => None
  | String c' r => if Ascii.eqb c' c then Some r else None
  end.

Fixpoint parse_value (fuel : nat) (s : string) {struct fuel} :
    option (Value * string) :=
  match fuel with
  | O => None
  | S f =>
      match skip_ws s with
      | EmptyString => None
      | String c r =>
          if Ascii.eqb c "[" then
            match expect "]" r with
            | Some r' => Some (VArr [], r')
            | None => match parse_elems f r with
                      | Some (l, r') => Some (VArr l, r')
                      | None => None
                      end
            end
          else if Ascii.eqb c "{" then
            match expect "}" r with
            | Some r' => Some (VObj [], r')
            | None => match parse_members f r with
                      | Some (ps, r') => Some (VObj (build_obj ps), r')
                      | None => None
                      end
            end
          else if Ascii.eqb c "034" then
            match parse_chars r with
            | Some (str, r') => Some (VStr str, r')
            | None => None
            end
          else if Ascii.eqb c "-" || is_digit c then parse_number (String c r)
          else
            match Str.strip_prefix "null" (String c r) with
            | Some r' => Some (VNull, r')
            | None =>
            match Str.strip_prefix "true" (String c r) with
            | Some r' => Some (VBool true, r')
            | None =>
            match Str.strip_prefix "false" (String c r) with
            | Some r' => Some (VBool false, r')
            | None => None
            end end end
      end
  end
with parse_elems (fuel : nat) (s : string) {struct fuel} :
    option (list Value * string) :=
  match fuel with
  | O => None
  | S f =>
      match parse_value f s with
      | Some (v, r) =>
          match expect "," r with
          | Some r' =>
              match parse_elems f r' with
              | Some (vs, r'') => Some (v :: vs, r'')
              | None => None
              end
          | None =>
              match expect "]" r with
              | Some r' => Some ([v], r')
              | None => None
              end
          end
      | None => None
      end
  end
with parse_members (fuel : nat) (s : string) {struct fuel} :
    option (list (string * Value) * string) :=
  match fuel with
  | O => None
  | S f =>
      match expect "034" s with
      | Some r =>
          match parse_chars r with
          | Some (key, r1) =>
              match expect ":" r1 with
              | Some r2 =>
                  match parse_value f r2 with
                  | Some (v, r3) =>
                      match expect "," r3 with
                      | Some r4 =>
                          match parse_members f r4 with
                          | Some (ps, r5) => Some ((key, v) :: ps, r5)
                          | None => None
                          end
                      | None =>
                          match expect "}" r3 with
                          | Some r4 => Some ([(key, v)], r4)
                          | None => None
                          end
                      end
                  | None => None
                  end
              | None => None
              end
          | None => None
          end
      | None => None
      end
  end.

(** [JSON.parse(text)]; [None] stands for a [SyntaxError] (and is also the
    answer for a text outside the fragment, see above).  Every call of
    the parser consumes a character within two levels of recursion, so
    the fuel never runs out on a text. *)
Definition parse (text : string) : option Value :=
  match parse_value (2 * String.length text + 2) text with
  | Some (v, r) =>
      match skip_ws r with
      | EmptyString => Some v
      | _ => None
      end
  | None => None
  end.

End JSON.

(** ** The file system

    A flat map from paths to file contents.  Every call first takes the next
    entry of the fault schedule: an injected fault makes the call reject
    (this is how permission errors, full disks, blocked directories and the
    like enter the model); otherwise the call behaves as on a healthy disk. *)

Definition with_files (fs : gmap string string) (w : World) : World :=
  {| files := fs; faults := faults w; clock := clock w; ticks := ticks w;
     uuids := uuids w; drawn := drawn w |}.

Definition with_faults (fl : list (option Fault)) (w : World) : World :=
  {| files := files w; faults := fl; clock := clock w; ticks := ticks w;
     uuids := uuids w; drawn := drawn w |}.

Definition next_fault : M (option Fault) := fun w =>
  match faults w with
  | [] => (Ok None, w)
  | f :: fl => (Ok f, with_faults fl w)
  end.

Module fs.

Definition ENOENT (syscall path : string) : Error :=
  {| cls := ClsError;
     message := "ENOENT: no such file or directory, " +:+ syscall +:+ " '"
                  +:+ path +:+ "'";
     code := Some "ENOENT" |}.

(** [fs.mkdir(dir, { recursive: true })] *)
Definition mkdir (dir : string) : M unit :=
  let* f := next_fault in
  match f with
  | Some ft => throw (f_error ft)
  | None => ret tt
  end.

(** [fs.access(path)] *)
Definition access (path : string) : M unit :=
  let* f := next_fault in
  match f with
  | Some ft => throw (f_error ft)
  | None => fun w =>
      match files w !! path with
      | Some _ => (Ok tt, w)
      | None => (Throw (ENOENT "access" path), w)
      end
  end.

(** [fs.readFile(path, 'utf8')] *)
Definition readFile (path : string) : M string :=
  let* f := next_fault in
  match f with
  | Some ft => throw (f_error ft)
  | None => fun w =>
      match files w !! path with
      | Some data => (Ok data, w)
      | None => (Throw (ENOENT "open" path), w)
      end
  end.

(** [fs.writeFile(path, data, 'utf8')] *)
Definition writeFile (path data : string) : M unit :=
  let* f := next_fault in
  match f with
  | Some ft => fun w =>
      (Throw (f_error ft),
       match f_partial ft with
       | Some junk => with_files (<[path := junk]> (files w)) w
       | None => w
       end)
  | None => fun w => (Ok tt, with_files (<[path := data]> (files w)) w)
  end.

(** [fs.rename(oldPath, newPath)]: all or nothing. *)
Definition rename (oldPath newPath : string) : M unit :=
  let* f := next_fault in
  match f with
  | Some ft => throw (f_error ft)
  | None => fun w =>
      match files w !! oldPath with
      | Some data =>
          (Ok tt, with_files (<[newPath := data]> (delete oldPath (files w))) w)
      | None => (Throw (ENOENT "rename" oldPath), w)
      end
  end.

(** [fs.unlink(path)] *)
Definition unlink (path : string) : M unit :=
  let* f := next_fault in
  match f with
  | Some ft => throw (f_error ft)
  | None => fun w =>
      match files w !! path with
      | Some _ => (Ok tt, with_files (delete path (files w)) w)
      | None => (Throw (ENOENT "unlink" path), w)
      end
  end.

End fs.

Module path.

(** The index at which [dirname] cuts: the last slash, at index 1 or
    later, that is followed by something other than slashes.  The second
    component tells whether the string holds a character other than a
    slash. *)
Fixpoint cut (i : nat) (s : string) : option nat * bool :=
  match s with
  | EmptyString => (None, false)
  | String c r =>
      let '(e, ns) := cut (S i) r in
      match e with
      | Some _ => (e, true)
      | None =>
          if Ascii.eqb c "/" then
            (if ns && (1 <=? i) then Some i else None, ns)
          else (None, true)
      end
  end.

(** [path.dirname(p)] (POSIX) *)
Definition dirname (p : string) : string :=
  match p with
  | EmptyString => "."
  | String c _ =>
      let hasRoot := Ascii.eqb c "/" in
      match fst (cut 0 p) with
      | None => if hasRoot then "/" else "."
      | Some e => if hasRoot && (e =? 1) then "//" else String.substring 0 e p
      end
  end.

End path.

(** ** services/storageService.js *)

Module StorageService.

Record t : Type := mk {
  filePath : string;
  dataDir : string
}.

(** [new StorageService(filePath)] *)
Definition new (filePath : string) : t :=
  {| filePath := filePath; dataDir := path.dirname filePath |}.

Definition tempFilePath (this : t) : string := filePath this +:+ ".tmp".

Section Methods.
Context `{DateRuntime}.
Variable this : t.

(** [saveTodos(todos)] *)
Definition saveTodos (todos : Value) : M unit :=
  if negb (isArray todos) then throw (newError "Todos must be an array")
  else
    fs.mkdir (dataDir this) ;;
    try_catch
      (match JSON.stringify todos with
       | Some text => fs.writeFile (tempFilePath this) text
       | None =>
           throw {| cls := ClsTypeError;
                    message := Str.dq "The 'data' argument must be of type string";
                    code := Some "ERR_INVALID_ARG_TYPE" |}
       end ;;
       fs.rename (tempFilePath this) (filePath this))
      (fun error =>
         try_catch (fs.unlink (tempFilePath this))
                   (fun cleanupError => ret tt) ;;
         throw (newError ("Failed to save todos: " +:+ message error))).

(** [initializeStorage()] *)
Definition initializeStorage : M unit :=
  try_catch
    (fs.mkdir (dataDir this) ;;
     try_catch (fs.access (filePath this))
       (fun error =>
          if code_is error "ENOENT" then saveTodos (VArr [])
          else throw error))
    (fun error =>
       throw (newError ("Failed to initialize storage: " +:+ message error))).

(** [loadTodos()] *)
Definition loadTodos : M Value :=
  try_catch
    (let* data := fs.readFile (filePath this) in
     match JSON.parse data with
     | Some v => ret v
     | None =>
         throw {| cls := ClsSyntaxError;
                  message := "Unexpected token in JSON";
                  code := None |}
     end)
    (fun error =>
       if code_is error "ENOENT" then
         initializeStorage ;; ret (VArr [])
       else if instanceofSyntaxError error then
         throw (newError "Invalid JSON format in storage file")
       else throw (newError ("Failed to load todos: " +:+ message error))).

(** [getFilePath()] *)
Definition getFilePath : string := filePath this.

(** [exists()] *)
Definition exists_ : M bool :=
  try_catch (fs.access (filePath this) ;; ret true) (fun error => ret false).

End Methods.

End StorageService.

(** ** services/todoService.js *)

(** What the service asks of the storage object it is constructed with (the
    file store above, the S3 store, or a test double). *)
Record Storage : Type := mkStorage {
  initializeStorage : M unit;
  loadTodos : M Value;
  saveTodos : Value → M unit
}.

(** The store object [new StorageService(filePath)] with its own three
    methods.  Inside [loadTodos] the call [this.initializeStorage()] is the
    method of this same object ([StorageService.initializeStorage ss]): an
    object whose methods were replaced afterwards is another [Storage]. *)
Definition fileStorage `{DateRuntime} (ss : StorageService.t) : Storage :=
  {| initializeStorage := StorageService.initializeStorage ss;
     loadTodos := StorageService.loadTodos ss;
     saveTodos := StorageService.saveTodos ss |}.

Module TodoService.

(** [a === b]; two objects are never the same object here: one side is an
    argument of the call, the other was just built from the stored data. *)
Definition strict_eq (a b : Value) : bool :=
  match a, b with
  | VUndefined, VUndefined => true
  | VNull, VNull => true
  | VBool x, VBool y => Bool.eqb x y
  | VNum x, VNum y => Z.eqb x y
  | VStr x, VStr y => String.eqb x y
  | _, _ => false
  end.

(** [l.findIndex(p)], with [None] for -1 *)
Fixpoint findIndex {A} (p : A → bool) (l : list A) : option nat :=
  match l with
  | [] => None
  | x :: l' => if p x then Some 0 else S <$> findIndex p l'
  end.

Definition is_undefined (v : Value) : bool :=
  match v with VUndefined => true | _ => false end.

(** [!id || typeof id !== 'string'] *)
Definition bad_id (id : Value) : bool := negb (truthy id) || negb (is_string id).

Definition not_a_function : Error :=
  {| cls := ClsTypeError; message := "todosData.map is not a function";
     code := None |}.
Definition no_properties (of_ : string) : Error :=
  {| cls := ClsTypeError;
     message := "Cannot read properties of " +:+ of_;
     code := None |}.

Record Count : Type := mkCount { total : nat; completed : nat; incomplete : nat }.

Section Methods.
Context `{DateRuntime}.
Variable storageService : Storage.

(** [initialize()] *)
Definition initialize : M unit := initializeStorage storageService.

(** [getAllTodos()] *)
Definition getAllTodos : M (list Todo.t) :=
  try_catch
    (let* todosData := loadTodos storageService in
     match todosData with
     | VArr l => mapM Todo.fromJSON l
     | VUndefined => throw (no_properties "undefined (reading 'map')")
     | VNull => throw (no_properties "null (reading 'map')")
     | _ => throw not_a_function
     end)
    (fun error =>
       throw (newError ("Failed to retrieve todos: " +:+ message error))).

(** [getTodoById(id)] *)
Definition getTodoById (id : Value) : M (option Todo.t) :=
  if bad_id id then throw (newError "Valid todo ID is required")
  else
    let* todos := getAllTodos in
    ret (List.find (fun todo => strict_eq (Todo.id todo) id) todos).

(** [createTodo(description)] *)
Definition createTodo (description : Value) : M Todo.t :=
  try_catch
    (let* todo := Todo.new description VNull in
     let* todos := getAllTodos in
     saveTodos storageService (VArr (map Todo.toJSON (todos ++ [todo]))) ;;
     ret todo)
    (fun error =>
       throw (newError ("Failed to create todo: " +:+ message error))).

(** [updateTodo(id, updates)].  The source changes the record in place,
    inside the array it then saves: here the changed record replaces the
    one at [todoIndex]. *)
Definition updateTodo (id updates : Value) : M Todo.t :=
  if bad_id id then throw (newError "Valid todo ID is required")
  else if negb (truthy updates) || negb (is_object_type updates) then
    throw (newError "Updates object is required")
  else
    let* todos := getAllTodos in
    match findIndex (fun todo => strict_eq (Todo.id todo) id) todos with
    | None => throw (newError "Todo not found")
    | Some todoIndex =>
        match todos !! todoIndex with
        | None => throw (no_properties "undefined")
        | Some todo =>
            let* todo1 :=
              (if negb (is_undefined (get updates "description")) then
                 Todo.updateDescription todo (get updates "description")
               else ret todo) in
            let* todo2 :=
              (if negb (is_undefined (get updates "completed")) then
                 Todo.setCompleted todo1 (get updates "completed")
               else ret todo1) in
            saveTodos storageService
              (VArr (map Todo.toJSON (<[todoIndex := todo2]> todos))) ;;
            ret todo2
        end
    end.

(** [toggleComplete(id)] *)
Definition toggleComplete (id : Value) : M Todo.t :=
  if bad_id id then throw (newError "Valid todo ID is required")
  else
    let* todos := getAllTodos in
    match findIndex (fun todo => strict_eq (Todo.id todo) id) todos with
    | None => throw (newError "Todo not found")
    | Some todoIndex =>
        match todos !! todoIndex with
        | None => throw (no_properties "undefined")
        | Some todo =>
            let* todo1 := Todo.toggleComplete todo in
            saveTodos storageService
              (VArr (map Todo.toJSON (<[todoIndex := todo1]> todos))) ;;
            ret todo1
        end
    end.

(** [deleteTodo(id)] *)
Definition deleteTodo (id : Value) : M bool :=
  if bad_id id then throw (newError "Valid todo ID is required")
  else
    let* todos := getAllTodos in
    match findIndex (fun todo => strict_eq (Todo.id todo) id) todos with
    | None => throw (newError "Todo not found")
    | Some todoIndex =>
        saveTodos storageService
          (VArr (map Todo.toJSON (delete todoIndex todos))) ;;
        ret true
    end.

(** [getTodosCount()] *)
Definition getTodosCount : M Count :=
  let* todos := getAllTodos in
  ret {| total := length todos;
         completed := length (filter (fun todo => Todo.completed todo = true) todos);
         incomplete := length (filter (fun todo => Todo.completed todo = false) todos) |}.

(** [clearAllTodos()] *)
Definition clearAllTodos : M bool :=
  saveTodos storageService (VArr []) ;; ret true.

(** [clearCompletedTodos()] *)
Definition clearCompletedTodos : M nat :=
  let* todos := getAllTodos in
  let incompleteTodos := filter (fun todo => Todo.completed todo = false) todos in
  let clearedCount := length todos - length incompleteTodos in
  saveTodos storageService (VArr (map Todo.toJSON incompleteTodos)) ;;
  ret clearedCount.

End Methods.

End TodoService.

(** ** controllers/todoController.js

    The handlers of the HTTP layer.  A handler answers every request: its
    whole body sits in a [try] whose [catch] sends a response.  The lines
    the handlers write to the console are left out. *)

Module TodoController.

Record t : Type := mk { initialized : bool }.

(** The parts of an Express request the handlers read. *)
Record Request : Type := mkRequest { params : Value; body : Value }.

(** What [res.status(code).json(obj)] sends; [res.json(obj)] sends it with
    status 200. *)
Record Response : Type := mkResponse { status : nat; json : Value }.

(** [new TodoController()] *)
Definition new : t := {| initialized := false |}.

Definition is_nullish (v : Value) : bool :=
  match v with VUndefined | VNull => true | _ => false end.

(** [const { k } = e], where the expression [e] has the value [v]; the
    message is V8's. *)
Definition destructure (e : string) (v : Value) (k : string) : M Value :=
  if is_nullish v then
    throw {| cls := ClsTypeError;
             message := "Cannot destructure property '" +:+ k +:+ "' of '" +:+ e
                        +:+ "' as it is "
                        +:+ match v with VNull => "null" | _ => "undefined" end
                        +:+ ".";
             code := None |}
  else ret (get v k).

(** [Object.keys(v).length] for a value whose [typeof] is ['object'] *)
Definition keys_length (v : Value) : nat :=
  match v with
  | VObj ps => length ps
  | VArr l => length l
  | _ => 0
  end.

(** [v.k = x] on a plain object *)
Definition set (v : Value) (k : string) (x : Value) : Value :=
  match v with
  | VObj ps => VObj (JSON.obj_set k x ps)
  | _ => v
  end.

(** [{ success: false, error: err }] with status [code] *)
Definition refuse (code : nat) (err : string) : Response :=
  {| status := code;
     json := VObj [("success", VBool false); ("error", VStr err)] |}.

(** The description check of [updateTodo]: the response it returns, or the
    updates after [updates.description = trimmedDescription]. *)
Definition checkDescription (updates : Value) : Response + Value :=
  match get updates "description" with
  | VUndefined => inr updates
  | VStr s =>
      let trimmedDescription := Str.trim s in
      if String.length trimmedDescription =? 0 then
        inl (refuse 400 "Description cannot be empty")
      else if 500 <? String.length trimmedDescription then
        inl (refuse 400 "Description cannot exceed 500 characters")
      else inr (set updates "description" (VStr trimmedDescription))
  | _ => inl (refuse 400 "Description must be a string")
  end.

Section Methods.
Context `{DateRuntime}.
Variable storageService : Storage.   (* the store behind [this.todoService] *)
Variable production : bool.   (* [process.env.NODE_ENV === 'production'] *)

(** [initialize()] *)
Definition initialize (this : t) : M t :=
  if initialized this then ret this
  else TodoService.initialize storageService ;; ret {| initialized := true |}.

(** [{ success: false, error: err, details: ... }] with status 500 *)
Definition fail (err : string) (error : Error) : Response :=
  {| status := 500;
     json := VObj [("success", VBool false); ("error", VStr err);
                   ("details", if production then VUndefined
                               else VStr (message error))] |}.

(** [try { await this.initialize(); ...body... } catch (error) { ... }] *)
Definition handle (this : t) (body : M Response) (onError : Error → Response) :
    World → (Response * t) * World :=
  fun w =>
    match initialize this w with
    | (Throw error, w1) => ((onError error, this), w1)
    | (Ok this1, w1) =>
        match body w1 with
        | (Ok response, w2) => ((response, this1), w2)
        | (Throw error, w2) => ((onError error, this1), w2)
        end
    end.

(** [getAllTodos(req, res)] *)
Definition getAllTodos (this : t) (req : Request) :
    World → (Response * t) * World :=
  handle this
    (let* todos := TodoService.getAllTodos storageService in
     ret {| status := 200;
            json := VObj [("success", VBool true);
                          ("data", VArr (map Todo.toJSON todos));
                          ("message", if length todos =? 0
                                      then VStr "No todos found"
                                      else VUndefined)] |})
    (fail "Failed to retrieve todos").

(** [createTodo(req, res)] *)
Definition createTodo (this : t) (req : Request) :
    World → (Response * t) * World :=
  handle this
    (let* description := destructure "req.body" (body req) "description" in
     if is_nullish description then
       ret (refuse 400 "Description is required and must be a string")
     else
       match description with
       | VStr s =>
           let trimmedDescription := Str.trim s in
           if String.length trimmedDescription =? 0 then
             ret (refuse 400 "Description cannot be empty")
           else if 500 <? String.length trimmedDescription then
             ret (refuse 400 "Description cannot exceed 500 characters")
           else
             let* todo :=
               TodoService.createTodo storageService (VStr trimmedDescription) in
             ret {| status := 201;
                    json := VObj [("success", VBool true);
                                  ("data", Todo.toJSON todo);
                                  ("message", VStr "Todo created successfully")] |}
       | _ => ret (refuse 400 "Description is required and must be a string")
       end)
    (fail "Failed to create todo").

(** The [catch] of [updateTodo] and [deleteTodo] *)
Definition notFoundOr (err : string) (error : Error) : Response :=
  if String.eqb (message error) "Todo not found" then refuse 404 "Todo not found"
  else fail err error.

(** [updateTodo(req, res)] *)
Definition updateTodo (this : t) (req : Request) :
    World → (Response * t) * World :=
  handle this
    (let* id := destructure "req.params" (params req) "id" in
     let updates := body req in
     if TodoService.bad_id id then ret (refuse 400 "Valid todo ID is required")
     else if is_nullish updates || negb (is_object_type updates)
             || isArray updates || (keys_length updates =? 0) then
       ret (refuse 400 "Updates object is required")
     else
       match checkDescription updates with
       | inl response => ret response
       | inr updates1 =>
           if negb (TodoService.is_undefined (get updates1 "completed"))
              && negb (match get updates1 "completed" with
                       | VBool _ => true
                       | _ => false
                       end) then
             ret (refuse 400 "Completed status must be a boolean")
           else
             let* updatedTodo :=
               TodoService.updateTodo storageService id updates1 in
             ret {| status := 200;
                    json := VObj [("success", VBool true);
                                  ("data", Todo.toJSON updatedTodo);
                                  ("message", VStr "Todo updated successfully")] |}
       end)
    (notFoundOr "Failed to update todo").

(** [deleteTodo(req, res)] *)
Definition deleteTodo (this : t) (req : Request) :
    World → (Response * t) * World :=
  handle this
    (let* id := destructure "req.params" (params req) "id" in
     if TodoService.bad_id id then ret (refuse 400 "Valid todo ID is required")
     else
       TodoService.deleteTodo storageService id ;;
       ret {| status := 200;
              json := VObj [("success", VBool true);
                            ("message", VStr "Todo deleted successfully")] |})
    (notFoundOr "Failed to delete todo").

End Methods.

End TodoController.

(** ** Error kinds

    The source raises plain [Error] objects and tells failures apart by
    their message.  The kinds below name those messages; the two prefixes
    that the service puts in front of a message are looked through. *)

Inductive ErrorKind : Type :=
| ValidationError
| InvalidArgumentError
| NotFoundError
| InvalidInputError
| StorageInitError
| StorageFormatError
| StorageIOError
| StorageWriteError
| OtherError.

Definition starts_with (p s : string) : bool :=
  match Str.strip_prefix p s with Some _ => true | None => false end.

Definition unwrap (m : string) : string :=
  let m1 := default m (Str.strip_prefix "Failed to create todo: " m) in
  default m1 (Str.strip_prefix "Failed to retrieve todos: " m1).

Definition validation_messages : list string :=
  ["Description must be a string"; "Description cannot be empty";
   "Description cannot exceed 500 characters";
   "Completed status must be a boolean"].

Definition kind_of_message (m : string) : ErrorKind :=
  let c := unwrap m in
  if existsb (String.eqb c) validation_messages then ValidationError
  else if String.eqb c "Valid todo ID is required"
          || String.eqb c "Updates object is required" then InvalidArgumentError
  else if String.eqb c "Todo not found" then NotFoundError
  else if String.eqb c "Todos must be an array" then InvalidInputError
  else if starts_with "Failed to initialize storage: " c then StorageInitError
  else if String.eqb c "Invalid JSON format in storage file" then StorageFormatError
  else if starts_with "Failed to load todos: " c then StorageIOError
  else if starts_with "Failed to save todos: " c then StorageWriteError
  else OtherError.

Definition kind_of (e : Error) : ErrorKind := kind_of_message (message e).

(** The world after one more uuid has been drawn. *)
Definition draw (w : World) : World :=
  {| files := files w; faults := faults w; clock := clock w; ticks := ticks w;
     uuids := uuids w; drawn := S (drawn w) |}.

(** The world after one more reading of the clock. *)
Definition tick (w : World) : World :=
  {| files := files w; faults := faults w; clock := clock w;
     ticks := S (ticks w); uuids := uuids w; drawn := drawn w |}.

(** ** Worked examples *)

Module Examples.

(** A runtime whose timestamps print as [T] followed by the time value. *)
#[export] Instance dates : DateRuntime :=
  {| Date_toISOString := fun z => "T" +:+ JSON.dec z;
     Date_new := fun v =>
       match v with
       | VStr (String "T" r) => Z.of_int <$> NilZero.int_of_string r
       | VNum n => Some n
       | _ => None
       end |}.

Definition store : StorageService.t := StorageService.new "data/todos.json".

Definition world (fs : gmap string string) (fl : list (option Fault)) : World :=
  {| files := fs; faults := fl; clock := fun n => Z.of_nat (1000 + n);
     ticks := 0; uuids := fun n => "uuid-" +:+ JSON.dec (Z.of_nat n);
     drawn := 0 |}.

Definition one_todo : string :=
  Str.dq "[{'id':'todo-1','description':'Original description','completed':false,'createdAt':'T5','updatedAt':'T7'}]".

Definition blank_description : string :=
  Str.dq "[{'id':'todo-1','description':'   ','completed':false}]".

Definition first_todo : Todo.t :=
  {| Todo.id := VStr "todo-1"; Todo.description := "Original description";
     Todo.completed := false; Todo.createdAt := Some 5%Z;
     Todo.updatedAt := Some 7%Z |}.

(** A store of two records, the second one completed. *)
Definition two_todos : string :=
  Str.dq "[{'id':'todo-1','description':'Original description','completed':false,'createdAt':'T5','updatedAt':'T7'},{'id':'todo-2','description':'Pay the rent','completed':true,'createdAt':'T8','updatedAt':'T9'}]".

Definition done_todo : Todo.t :=
  {| Todo.id := VStr "todo-2"; Todo.description := "Pay the rent";
     Todo.completed := true; Todo.createdAt := Some 8%Z;
     Todo.updatedAt := Some 9%Z |}.

Definition EACCES : Fault :=
  {| f_error := {| cls := ClsError; message := "EACCES: permission denied";
                   code := Some "EACCES" |};
     f_partial := None |}.

Definition ENOSPC (junk : string) : Fault :=
  {| f_error := {| cls := ClsError; message := "ENOSPC: no space left on device";
                   code := Some "ENOSPC" |};
     f_partial := Some junk |}.

End Examples.

(** ** Notions used in the statements *)

(** The two conditional updates of [updateTodo], applied to the record that
    was found. *)
Definition applyUpdates (todo : Todo.t) (updates : Value) : M Todo.t :=
  let* todo1 :=
    (if negb (TodoService.is_undefined (get updates "description")) then
       Todo.updateDescription todo (get updates "description")
     else ret todo) in
  if negb (TodoService.is_undefined (get updates "completed")) then
    Todo.setCompleted todo1 (get updates "completed")
  else ret todo1.

(** A stored record whose description does not pass validation: missing,
    not a string, blank once trimmed, or longer than 500 once trimmed. *)
Inductive BadDescription : Value → Prop :=
| bad_missing ps :
    assoc "description" ps = None → BadDescription (VObj ps)
| bad_not_string ps v :
    assoc "description" ps = Some v → is_string v = false →
    BadDescription (VObj ps)
| bad_blank ps s :
    assoc "description" ps = Some (VStr s) → Str.trim s = EmptyString →
    BadDescription (VObj ps)
| bad_long ps s :
    assoc "description" ps = Some (VStr s) →
    500 < String.length (Str.trim s) →
    BadDescription (VObj ps).

Definition is_plain_object (d : Value) : Prop := ∃ ps, d = VObj ps.

(** What [JSON.parse] returns on the text that [JSON.stringify] printed
    for a value: [undefined] and an invalid date have become [null], a date
    its ISO string, and a property whose value is [undefined] is gone. *)
Fixpoint norm `{DateRuntime} (v : Value) : Value :=
  match v with
  | VUndefined | VNull | VDate None => VNull
  | VBool b => VBool b
  | VNum n => VNum n
  | VStr s => VStr s
  | VDate (Some t) => VStr (Date_toISOString t)
  | VArr l => VArr (map norm l)
  | VObj ps =>
      VObj ((fix props (ps : list (string * Value)) : list (string * Value) :=
               match ps with
               | [] => []
               | (_, VUndefined) :: ps' => props ps'
               | (key, x) :: ps' => (key, norm x) :: props ps'
               end) ps)
  end.

Definition norm_props `{DateRuntime} : list (string * Value) → list (string * Value) :=
  fix props (ps : list (string * Value)) : list (string * Value) :=
    match ps with
    | [] => []
    | (_, VUndefined) :: ps' => props ps'
    | (key, x) :: ps' => (key, norm x) :: props ps'
    end.

(** The values the round trip is proved for: no numbers, and no object
    that prints the same key twice. *)
#[warnings="-register-all"]
Inductive printable `{DateRuntime} : Value → Prop :=
| printable_undefined : printable VUndefined
| printable_null : printable VNull
| printable_bool b : printable (VBool b)
| printable_str s : printable (VStr s)
| printable_date d : printable (VDate d)
| printable_arr l : Forall printable l → printable (VArr l)
| printable_obj ps :
    NoDup (map fst (norm_props ps)) →
    Forall (fun kv => printable (snd kv)) ps →
    printable (VObj ps).

(** Structured data as it is persisted: [null], booleans, strings, arrays,
    and objects with distinct keys. *)
#[warnings="-register-all"]
Inductive json_safe : Value → Prop :=
| safe_null : json_safe VNull
| safe_bool b : json_safe (VBool b)
| safe_str s : json_safe (VStr s)
| safe_arr l : Forall json_safe l → json_safe (VArr l)
| safe_obj ps :
    NoDup (map fst ps) →
    Forall (fun kv => json_safe (snd kv)) ps →
    json_safe (VObj ps).

(** The characters a printed value can start with. *)
Definition opening (c : ascii) : bool :=
  match c with
  | "n" | "t" | "f" | "034" | "[" | "{" => true
  | _ => false
  end%char.

(** The properties of an object that are printed. *)
Definition defined (ps : list (string * Value)) : list (string * Value) :=
  List.filter (fun kv => negb (TodoService.is_undefined (snd kv))) ps.

(** A bound on the fuel the parser spends on the text of a value. *)
Fixpoint weight (v : Value) : nat :=
  match v with
  | VArr l => S (fold_right (fun x n => S (weight x + n)) 0 l)
  | VObj ps =>
      S ((fix props (ps : list (string * Value)) : nat :=
            match ps with
            | [] => 0
            | (_, VUndefined) :: ps' => props ps'
            | (_, x) :: ps' => S (weight x + props ps')
            end) ps)
  | _ => 1
  end.

Definition weight_props : list (string * Value) → nat :=
  fix props (ps : list (string * Value)) : nat :=
    match ps with
    | [] => 0
    | (_, VUndefined) :: ps' => props ps'
    | (_, x) :: ps' => S (weight x + props ps')
    end.

Definition weight_elems (l : list Value) : nat :=
  fold_right (fun x n => S (weight x + n)) 0 l.

(** [v] reads back: the parser, given enough fuel, turns the text printed
    for [v] into [norm v] and stops where the text stops. *)
Definition reads_back `{DateRuntime} (v : Value) : Prop :=
  ∀ ind k fuel,
    weight v ≤ fuel → JSON.parse_value fuel (JSON.ser ind v k) = Some (norm v, k).

(** The text printed for [v] has at least [weight v] characters. *)
Definition long_enough `{DateRuntime} (v : Value) : Prop :=
  ∀ ind k, weight v + String.length k ≤ String.length (JSON.ser ind v k).

(** The world once a file-system call has taken its entry of the schedule. *)
Definition after_call (w : World) : World := with_faults (tl (faults w)) w.

(** A schedule of faults in which the staging write or the rename of
    [saveTodos] is rejected with [ft]: the directory call goes through, then
    either the write is rejected, or the write goes through and the rename
    is rejected.  [rest] is the schedule from the clean-up call on. *)
Inductive StagingFails : list (option Fault) → Fault → list (option Fault) → Prop :=
| write_rejected ft rest : StagingFails (None :: Some ft :: rest) ft rest
| rename_rejected ft rest :
    StagingFails (None :: None :: Some ft :: rest) ft rest.

(** Time values a [Date] can hold. *)
Definition valid_time (t : Z) : Prop :=
  (- 8640000000000000 ≤ t ≤ 8640000000000000)%Z.

(** What the runtime guarantees of its [Date] conversions: the ISO string
    of a time value is not empty, and [new Date] reads it back. *)
Class DateLaws `{DateRuntime} : Prop := {
  iso_nonempty : ∀ t, valid_time t → Date_toISOString t ≠ EmptyString;
  iso_roundtrip : ∀ t, valid_time t → Date_new (VStr (Date_toISOString t)) = Some t
}.

(** The invariant of a description: trimmed, 1 to 500 characters. *)
Definition description_ok (todo : Todo.t) : Prop :=
  Str.trim (Todo.description todo) = Todo.description todo ∧
  1 ≤ String.length (Todo.description todo) ≤ 500.

(** The invariants of a record: a non-empty string as id, a valid
    description, and two valid dates. *)
Record valid_todo (todo : Todo.t) : Prop := mk_valid {
  valid_id : ∃ i, Todo.id todo = VStr i ∧ i ≠ EmptyString;
  valid_description : description_ok todo;
  valid_createdAt : ∃ t, Todo.createdAt todo = Some t ∧ valid_time t;
  valid_updatedAt : ∃ t, Todo.updatedAt todo = Some t ∧ valid_time t
}.

(** The record that is persisted for a todo: what [JSON.parse] reads from
    the text printed for [todo.toJSON()]. *)
Definition stored `{DateRuntime} (todo : Todo.t) : Value := norm (Todo.toJSON todo).

(** The world after [n] more readings of the clock. *)
Definition advance (n : nat) (w : World) : World :=
  {| files := files w; faults := faults w; clock := clock w;
     ticks := n + ticks w; uuids := uuids w; drawn := drawn w |}.


(** The four handlers of the controller, over a store and an environment. *)
Definition handlers `{DateRuntime} (st : Storage) (production : bool) :
    list (TodoController.t → TodoController.Request →
          World → (TodoController.Response * TodoController.t) * World) :=
  [TodoController.getAllTodos st production;
   TodoController.createTodo st production;
   TodoController.updateTodo st production;
   TodoController.deleteTodo st production].

(** The shapes of a response: a success (200 or 201) says so and carries
    no error; a refusal (400 or 404) carries an error text and no details;
    a failure (500) carries an error text and, outside production only,
    the message of the error as details. *)
Definition well_formed (production : bool) (r : TodoController.Response) : Prop :=
  let j := TodoController.json r in
  ((TodoController.status r = 200 ∨ TodoController.status r = 201) ∧
   get j "success" = VBool true ∧ get j "error" = VUndefined ∧
   get j "details" = VUndefined) ∨
  ((TodoController.status r = 400 ∨ TodoController.status r = 404) ∧
   get j "success" = VBool false ∧ is_string (get j "error") = true ∧
   get j "details" = VUndefined) ∨
  (TodoController.status r = 500 ∧
   get j "success" = VBool false ∧ is_string (get j "error") = true ∧
   if production then get j "details" = VUndefined
   else is_string (get j "details") = true).

(** * Properties *)

(** ** Running the monad *)

Lemma run_bind {A B} (m : M A) (k : A → M B) w a w' :
  m w = (Ok a, w') → bind m k w = k a w'.
Proof. intros Hm. unfold bind. now rewrite Hm. Qed.

Lemma run_bind_throw {A B} (m : M A) (k : A → M B) w e w' :
  m w = (Throw e, w') → bind m k w = (Throw e, w').
Proof. intros Hm. unfold bind. now rewrite Hm. Qed.

Lemma run_try_ok {A} (m : M A) h w a w' :
  m w = (Ok a, w') → try_catch m h w = (Ok a, w').
Proof. intros Hm. unfold try_catch. now rewrite Hm. Qed.

Lemma run_try_throw {A} (m : M A) h w e w' :
  m w = (Throw e, w') → try_catch m h w = h e w'.
Proof. intros Hm. unfold try_catch. now rewrite Hm. Qed.

(** ** Facts about [trim] *)

Module StrFacts.
Import Str.

Lemma trimEnd_head c r :
  is_js_space c = false → ∃ r', trimEnd (String c r) = String c r'.
Proof.
  intros Hc. simpl. destruct (trimEnd r); rewrite ?Hc; eauto.
Qed.

Lemma trimStart_head s :
  trimStart s = EmptyString ∨
  ∃ c r, trimStart s = String c r ∧ is_js_space c = false.
Proof.
  induction s as [|c r IH]; simpl; [now left|].
  destruct (is_js_space c) eqn:Hc; [exact IH|]. right; eauto.
Qed.

Lemma trimEnd_idem s : trimEnd (trimEnd s) = trimEnd s.
Proof.
  induction s as [|c r IH]; simpl; [reflexivity|].
  destruct (trimEnd r) as [|c' r'] eqn:Hr.
  - destruct (is_js_space c) eqn:Hc; simpl; [reflexivity|now rewrite Hc].
  - change (trimEnd (String c (String c' r'))) with
      (match trimEnd (String c' r') with
       | EmptyString => if is_js_space c then EmptyString else String c EmptyString
       | r0 => String c r0
       end).
    rewrite IH. reflexivity.
Qed.

(** Trimming twice is trimming once. *)
Lemma trim_idem s : trim (trim s) = trim s.
Proof.
  unfold trim. destruct (trimStart_head s) as [->|(c & r & -> & Hc)];
    [reflexivity|].
  destruct (trimEnd_head c r Hc) as [r' Hr'].
  assert (trimStart (trimEnd (String c r)) = trimEnd (String c r)) as ->.
  { rewrite Hr'. simpl. now rewrite Hc. }
  apply trimEnd_idem.
Qed.

Lemma length_repeat c n : String.length (repeat c n) = n.
Proof. induction n; simpl; congruence. Qed.

Lemma trimEnd_repeat c n :
  is_js_space c = false → trimEnd (repeat c n) = repeat c n.
Proof.
  intros Hc. induction n as [|n IH]; simpl; [reflexivity|].
  rewrite IH. destruct (repeat c n); [now rewrite Hc|reflexivity].
Qed.

(** A run of one character that is not white space is its own trim. *)
Lemma trim_repeat c n : is_js_space c = false → trim (repeat c n) = repeat c n.
Proof.
  intros Hc. unfold trim.
  assert (trimStart (repeat c n) = repeat c n) as ->.
  { destruct n; simpl; [reflexivity|now rewrite Hc]. }
  now apply trimEnd_repeat.
Qed.

Lemma length_app (a b : string) :
  String.length (a +:+ b) = String.length a + String.length b.
Proof.
  induction a as [|c a IH]; [reflexivity|].
  change (S (String.length (a +:+ b)) = S (String.length a + String.length b)).
  now rewrite IH.
Qed.

Lemma length_zero s : String.length s = 0 ↔ s = EmptyString.
Proof. destruct s; simpl; split; intros; (reflexivity || discriminate || lia). Qed.

End StrFacts.

(** ** models/Todo.js: description validation *)

Module TodoFacts.
Import Todo.

Lemma validate_ok s :
  1 ≤ String.length (Str.trim s) ≤ 500 →
  validateDescription (VStr s) = Ok (Str.trim s).
Proof.
  intros [Hlo Hhi]. unfold validateDescription.
  destruct (Nat.eqb_spec (String.length (Str.trim s)) 0) as [E|_]; [lia|].
  destruct (Nat.ltb_spec 500 (String.length (Str.trim s))) as [E|_]; [lia|].
  reflexivity.
Qed.

Lemma validate_empty s :
  String.length (Str.trim s) = 0 →
  validateDescription (VStr s) =
    Throw (newError "Description cannot be empty").
Proof. intros E. unfold validateDescription. now rewrite E. Qed.

Lemma validate_long s :
  500 < String.length (Str.trim s) →
  validateDescription (VStr s) =
    Throw (newError "Description cannot exceed 500 characters").
Proof.
  intros Hlen. unfold validateDescription.
  destruct (Nat.eqb_spec (String.length (Str.trim s)) 0) as [E|_]; [lia|].
  destruct (Nat.ltb_spec 500 (String.length (Str.trim s))) as [_|E]; [|lia].
  reflexivity.
Qed.

Lemma validate_not_string v :
  is_string v = false →
  validateDescription v = Throw (newError "Description must be a string").
Proof. destruct v; simpl; intros; (reflexivity || discriminate). Qed.

(** Whatever [validateDescription] returns is a trimmed string of 1 to
    500 characters. *)
Lemma validate_inv v d :
  validateDescription v = Ok d →
  ∃ s, v = VStr s ∧ d = Str.trim s ∧ 1 ≤ String.length d ≤ 500.
Proof.
  destruct v; simpl; try discriminate.
  destruct (Nat.eqb_spec (String.length (Str.trim s)) 0); [discriminate|].
  destruct (Nat.ltb_spec 500 (String.length (Str.trim s))); [discriminate|].
  intros [= <-]. exists s. repeat split; lia.
Qed.

(** A failure of [validateDescription] is one of three validation
    errors. *)
Lemma validate_throw v e :
  validateDescription v = Throw e →
  kind_of e = ValidationError ∧
  (e = newError "Description must be a string" ∨
   e = newError "Description cannot be empty" ∨
   e = newError "Description cannot exceed 500 characters").
Proof.
  destruct v; simpl;
    try (intros [= <-]; split; [reflexivity|now left]).
  destruct (String.length (Str.trim s) =? 0).
  - intros [= <-]; split; [reflexivity|auto].
  - destruct (500 <? String.length (Str.trim s)); [|discriminate].
    intros [= <-]; split; [reflexivity|auto].
Qed.

(** C3.  [validateDescription] accepts exactly the strings whose trimmed
    length lies between 1 and 500, returning the trimmed string, and
    rejects everything else with a validation error: a value that is not
    a string, a string that is empty or all white space once trimmed, and
    a string whose trimmed length exceeds 500.  At the boundary, a string
    without surrounding white space is accepted at length 500 and
    rejected at length 501 (as are 500 and 501 repetitions of ["a"]). *)
Theorem validateDescription_spec (v : Value) :
  (∀ s, v = VStr s → 1 ≤ String.length (Str.trim s) ≤ 500 →
        validateDescription v = Ok (Str.trim s)) ∧
  (is_string v = false →
     validateDescription v = Throw (newError "Description must be a string")) ∧
  (∀ s, v = VStr s → Str.trim s = EmptyString →
        validateDescription v = Throw (newError "Description cannot be empty")) ∧
  (∀ s, v = VStr s → 500 < String.length (Str.trim s) →
        validateDescription v =
          Throw (newError "Description cannot exceed 500 characters")) ∧
  (∀ e, validateDescription v = Throw e → kind_of e = ValidationError) ∧
  (∀ d, validateDescription v = Ok d →
        ∃ s, v = VStr s ∧ d = Str.trim s ∧ 1 ≤ String.length d ≤ 500) ∧
  (∀ s, v = VStr s → Str.trim s = s →
        (String.length s = 500 → validateDescription v = Ok s) ∧
        (String.length s = 501 →
           validateDescription v =
             Throw (newError "Description cannot exceed 500 characters"))) ∧
  validateDescription (VStr (Str.repeat "a" 500)) = Ok (Str.repeat "a" 500) ∧
  validateDescription (VStr (Str.repeat "a" 501)) =
    Throw (newError "Description cannot exceed 500 characters").
Proof.
  repeat apply conj.
  - intros s -> Hlen. now apply validate_ok.
  - apply validate_not_string.
  - intros s -> E. apply validate_empty. now rewrite E.
  - intros s -> Hlen. now apply validate_long.
  - intros e He. now apply validate_throw in He.
  - apply validate_inv.
  - intros s -> Htrim. split; intros Hlen.
    + rewrite <- Htrim at 2. apply validate_ok. rewrite Htrim. lia.
    + apply validate_long. rewrite Htrim. lia.
  - rewrite <- (StrFacts.trim_repeat "a" 500) at 2 by reflexivity.
    apply validate_ok.
    rewrite StrFacts.trim_repeat, StrFacts.length_repeat by reflexivity. lia.
  - apply validate_long.
    rewrite StrFacts.trim_repeat, StrFacts.length_repeat by reflexivity. lia.
Qed.

Lemma validateDescription_spec_witness :
  validateDescription (VStr "  Buy milk ") = Ok "Buy milk".
Proof.
  apply (proj1 (validateDescription_spec (VStr "  Buy milk ")) "  Buy milk ").
  - reflexivity.
  - vm_compute. lia.
Defined.

End TodoFacts.

(** ** The JSON codec: what is printed parses back *)

Module JsonFacts.
Import JSON.

Lemma app_cons c s k : String c s +:+ k = String c (s +:+ k).
Proof. reflexivity. Qed.

Lemma app_nil k : EmptyString +:+ k = k.
Proof. reflexivity. Qed.

(** Induction on values, with the elements of arrays and the members of
    objects. *)
Section ValueInd.
Variable P : Value → Prop.
Hypothesis Hundefined : P VUndefined.
Hypothesis Hnull : P VNull.
Hypothesis Hbool : ∀ b, P (VBool b).
Hypothesis Hnum : ∀ n, P (VNum n).
Hypothesis Hstr : ∀ s, P (VStr s).
Hypothesis Hdate : ∀ d, P (VDate d).
Hypothesis Harr : ∀ l, Forall P l → P (VArr l).
Hypothesis Hobj : ∀ ps, Forall (fun kv => P (snd kv)) ps → P (VObj ps).

Fixpoint Value_ind' (v : Value) : P v :=
  match v with
  | VUndefined => Hundefined
  | VNull => Hnull
  | VBool b => Hbool b
  | VNum n => Hnum n
  | VStr s => Hstr s
  | VDate d => Hdate d
  | VArr l =>
      Harr l ((fix go (l : list Value) : Forall P l :=
                 match l with
                 | [] => List.Forall_nil P
                 | x :: l' => List.Forall_cons P x l' (Value_ind' x) (go l')
                 end) l)
  | VObj ps =>
      Hobj ps ((fix go (ps : list (string * Value)) :
                    Forall (fun kv => P (snd kv)) ps :=
                  match ps with
                  | [] => List.Forall_nil _
                  | kv :: ps' =>
                      List.Forall_cons _ kv ps' (Value_ind' (snd kv)) (go ps')
                  end) ps)
  end.
End ValueInd.

(** *** White space *)

Lemma skip_ws_spaces n k : skip_ws (spaces n k) = skip_ws k.
Proof. induction n; simpl; auto. Qed.

Lemma skip_ws_nl n k : skip_ws (nl n k) = skip_ws k.
Proof. unfold nl. simpl. apply skip_ws_spaces. Qed.

Lemma skip_ws_here c k : is_json_ws c = false → skip_ws (String c k) = String c k.
Proof. intros Hc. simpl. now rewrite Hc. Qed.

Lemma expect_here c k : is_json_ws c = false → expect c (String c k) = Some k.
Proof.
  intros Hc. unfold expect. rewrite skip_ws_here by assumption.
  now rewrite Ascii.eqb_refl.
Qed.

Lemma expect_nl c n k : is_json_ws c = false → expect c (nl n (String c k)) = Some k.
Proof.
  intros Hc. unfold expect. rewrite skip_ws_nl, skip_ws_here by assumption.
  now rewrite Ascii.eqb_refl.
Qed.

Lemma expect_other c c' k :
  is_json_ws c' = false → Ascii.eqb c' c = false → expect c (String c' k) = None.
Proof.
  intros Hws Hc. unfold expect. rewrite skip_ws_here by assumption.
  now rewrite Hc.
Qed.

Lemma expect_skip c s1 s2 : skip_ws s1 = skip_ws s2 → expect c s1 = expect c s2.
Proof. unfold expect. now intros ->. Qed.

Lemma parse_value_skip f s1 s2 :
  skip_ws s1 = skip_ws s2 → parse_value f s1 = parse_value f s2.
Proof. destruct f; simpl; [reflexivity|]. now intros ->. Qed.

(** *** Strings *)

(** Every code unit reads back from the way it is quoted. *)
Lemma parse_chars_quote_char c r :
  parse_chars (quote_char c r) = cons_char c (parse_chars r).
Proof.
  destruct c as [[] [] [] [] [] [] [] []]; reflexivity.
Qed.

Lemma parse_chars_quote s k :
  parse_chars (quote_chars s (String "034" k)) = Some (s, k).
Proof.
  induction s as [|c s IH]; [reflexivity|].
  cbn [quote_chars]. rewrite parse_chars_quote_char, IH. reflexivity.
Qed.

Lemma length_quote_char c k : String.length k < String.length (quote_char c k).
Proof.
  destruct c as [[] [] [] [] [] [] [] []]; vm_compute; lia.
Qed.

Lemma length_quote_chars s k : String.length k ≤ String.length (quote_chars s k).
Proof.
  induction s as [|c s IH]; cbn [quote_chars]; [lia|].
  pose proof (length_quote_char c (quote_chars s k)). lia.
Qed.

Lemma length_quote s k : 2 + String.length k ≤ String.length (quote s k).
Proof.
  unfold quote. cbn [String.length].
  pose proof (length_quote_chars s (String "034" k)) as Hl.
  cbn [String.length] in Hl. lia.
Qed.

(** *** One step of the printer and of the parser *)

Section Codec.
Context `{DateRuntime}.

Lemma ser_arr ind l k : ser ind (VArr l) k = String "[" (ser_elems ind k true l).
Proof. reflexivity. Qed.

Lemma ser_obj ind ps k : ser ind (VObj ps) k = String "{" (ser_members ind k true ps).
Proof. reflexivity. Qed.

Lemma ser_elems_cons ind k first x l :
  ser_elems ind k first (x :: l) =
    sep first (nl (ind + 2) (ser (ind + 2) x (ser_elems ind k false l))).
Proof. reflexivity. Qed.

Lemma ser_members_cons ind k first key x ps :
  TodoService.is_undefined x = false →
  ser_members ind k first ((key, x) :: ps) =
    sep first (nl (ind + 2) (quote key (String ":" (String " "
      (ser (ind + 2) x (ser_members ind k false ps)))))).
Proof. destruct x; intros Hx; (reflexivity || discriminate). Qed.

Lemma ser_members_defined ind k first ps :
  ser_members ind k first ps = ser_members ind k first (defined ps).
Proof.
  revert first. induction ps as [|[key x] ps IH]; intros first; [reflexivity|].
  destruct x; cbn [defined List.filter snd TodoService.is_undefined negb];
    try exact (IH first);
    cbn [ser_members]; now rewrite (IH false).
Qed.

Lemma norm_obj ps : norm (VObj ps) = VObj (norm_props ps).
Proof. reflexivity. Qed.

Lemma norm_props_cons key x ps :
  TodoService.is_undefined x = false →
  norm_props ((key, x) :: ps) = (key, norm x) :: norm_props ps.
Proof. destruct x; intros Hx; (reflexivity || discriminate). Qed.

Lemma norm_props_defined ps : norm_props ps = norm_props (defined ps).
Proof.
  induction ps as [|[key x] ps IH]; [reflexivity|].
  destruct x; cbn [defined List.filter snd TodoService.is_undefined negb];
    try exact IH; cbn [norm_props]; now rewrite IH.
Qed.

Lemma weight_props_defined ps : weight_props ps = weight_props (defined ps).
Proof.
  induction ps as [|[key x] ps IH]; [reflexivity|].
  destruct x; cbn [defined List.filter snd TodoService.is_undefined negb];
    try exact IH; cbn [weight_props]; now rewrite IH.
Qed.

Lemma weight_props_cons key x ps :
  TodoService.is_undefined x = false →
  weight_props ((key, x) :: ps) = S (weight x + weight_props ps).
Proof. destruct x; intros Hx; (reflexivity || discriminate). Qed.

Lemma weight_obj ps : weight (VObj ps) = S (weight_props ps).
Proof. reflexivity. Qed.

Lemma weight_arr l : weight (VArr l) = S (weight_elems l).
Proof. reflexivity. Qed.

Lemma defined_all ps :
  Forall (fun kv => TodoService.is_undefined (snd kv) = false) (defined ps).
Proof.
  induction ps as [|[key x] ps IH]; [constructor|].
  cbn [defined List.filter snd].
  destruct (TodoService.is_undefined x) eqn:Hx; cbn [negb]; [exact IH|].
  constructor; [exact Hx|exact IH].
Qed.

Lemma defined_Forall (P : string * Value → Prop) ps :
  Forall P ps → Forall P (defined ps).
Proof.
  induction 1 as [|[key x] ps Hx _ IH]; [constructor|].
  cbn [defined List.filter snd].
  destruct (TodoService.is_undefined x); cbn [negb]; [exact IH|].
  constructor; assumption.
Qed.

Lemma parse_value_arr f r :
  parse_value (S f) (String "[" r) =
    match expect "]" r with
    | Some r' => Some (VArr [], r')
    | None => match parse_elems f r with
              | Some (l, r') => Some (VArr l, r')
              | None => None
              end
    end.
Proof. reflexivity. Qed.

Lemma parse_value_obj f r :
  parse_value (S f) (String "{" r) =
    match expect "}" r with
    | Some r' => Some (VObj [], r')
    | None => match parse_members f r with
              | Some (ps, r') => Some (VObj (build_obj ps), r')
              | None => None
              end
    end.
Proof. reflexivity. Qed.

Lemma parse_value_str f r :
  parse_value (S f) (String "034" r) =
    match parse_chars r with
    | Some (str, r') => Some (VStr str, r')
    | None => None
    end.
Proof. reflexivity. Qed.

Lemma parse_elems_eq f s :
  parse_elems (S f) s =
    match parse_value f s with
    | Some (v, r) =>
        match expect "," r with
        | Some r' =>
            match parse_elems f r' with
            | Some (vs, r'') => Some (v :: vs, r'')
            | None => None
            end
        | None =>
            match expect "]" r with
            | Some r' => Some ([v], r')
            | None => None
            end
        end
    | None => None
    end.
Proof. reflexivity. Qed.

Lemma parse_members_eq f s :
  parse_members (S f) s =
    match expect "034" s with
    | Some r =>
        match parse_chars r with
        | Some (key, r1) =>
            match expect ":" r1 with
            | Some r2 =>
                match parse_value f r2 with
                | Some (v, r3) =>
                    match expect "," r3 with
                    | Some r4 =>
                        match parse_members f r4 with
                        | Some (ps, r5) => Some ((key, v) :: ps, r5)
                        | None => None
                        end
                    | None =>
                        match expect "}" r3 with
                        | Some r4 => Some ([(key, v)], r4)
                        | None => None
                        end
                    end
                | None => None
                end
            | None => None
            end
        | None => None
        end
    | None => None
    end.
Proof. reflexivity. Qed.

Lemma opening_facts c :
  opening c = true →
  is_json_ws c = false ∧ Ascii.eqb c "]" = false ∧
  Ascii.eqb c "}" = false ∧ Ascii.eqb c "," = false.
Proof.
  destruct c as [[] [] [] [] [] [] [] []]; intros Hc;
    (discriminate Hc || (repeat split; reflexivity)).
Qed.

(** A printed value starts with a character that opens a value. *)
Lemma ser_head v ind k :
  printable v → ∃ c r, ser ind v k = String c r ∧ opening c = true.
Proof.
  intros Hp. destruct v as [| |[]| | |[t|]|l|ps];
    try (do 2 eexists; split; [reflexivity|reflexivity]).
  inversion Hp.
Qed.

Lemma expect_ser c v ind k :
  printable v → c = "]"%char ∨ c = "}"%char ∨ c = ","%char →
  expect c (nl ind (ser ind v k)) = None.
Proof.
  intros Hp Hc. destruct (ser_head v ind k Hp) as (c' & r & -> & Ho).
  apply opening_facts in Ho as (Hws & H1 & H2 & H3).
  unfold expect. rewrite skip_ws_nl, skip_ws_here by assumption.
  destruct Hc as [-> | [-> | ->]]; now rewrite ?H1, ?H2, ?H3.
Qed.

Lemma expect_nl_other c c' n k :
  is_json_ws c' = false → Ascii.eqb c' c = false →
  expect c (nl n (String c' k)) = None.
Proof.
  intros Hws Hc. unfold expect.
  rewrite skip_ws_nl, skip_ws_here by assumption. now rewrite Hc.
Qed.

(** *** Arrays and objects *)

Lemma parse_elems_ser ind k l : ∀ x fuel,
  Forall reads_back (x :: l) →
  weight_elems (x :: l) ≤ fuel →
  parse_elems fuel (nl (ind + 2) (ser (ind + 2) x (ser_elems ind k false l)))
    = Some (norm x :: map norm l, k).
Proof.
  induction l as [|y l IH]; intros x fuel HF Hfuel;
    (destruct fuel as [|f]; [cbn in Hfuel; lia|]);
    apply Forall_cons_1 in HF as [Hx HF];
    cbn [weight_elems fold_right] in Hfuel;
    rewrite parse_elems_eq;
    rewrite (parse_value_skip f _ (ser (ind + 2) x (ser_elems ind k false []))
               ltac:(apply skip_ws_nl)) ||
    rewrite (parse_value_skip f _ (ser (ind + 2) x (ser_elems ind k false (y :: l)))
               ltac:(apply skip_ws_nl)).
  - rewrite Hx by lia. cbn [ser_elems].
    rewrite expect_nl_other, expect_nl by reflexivity. reflexivity.
  - rewrite Hx by lia. rewrite ser_elems_cons. cbn [sep].
    rewrite expect_here by reflexivity.
    rewrite IH; [reflexivity|exact HF|].
    cbn [weight_elems fold_right]. lia.
Qed.

Lemma parse_members_ser ind k ps : ∀ key x fuel,
  Forall (fun kv => TodoService.is_undefined (snd kv) = false) ((key, x) :: ps) →
  Forall (fun kv => reads_back (snd kv)) ((key, x) :: ps) →
  weight_props ((key, x) :: ps) ≤ fuel →
  parse_members fuel
    (nl (ind + 2) (quote key (String ":" (String " "
       (ser (ind + 2) x (ser_members ind k false ps))))))
    = Some (norm_props ((key, x) :: ps), k).
Proof.
  induction ps as [|[key' y] ps IH]; intros key x fuel HD HF Hfuel;
    (destruct fuel as [|f];
     [rewrite weight_props_cons in Hfuel
        by (apply Forall_cons_1 in HD as [HD _]; exact HD); lia|]);
    apply Forall_cons_1 in HD as [Hdx HD];
    apply Forall_cons_1 in HF as [Hx HF]; cbn [snd] in Hdx, Hx;
    rewrite weight_props_cons in Hfuel by exact Hdx;
    rewrite norm_props_cons by exact Hdx;
    rewrite parse_members_eq;
    unfold quote at 1; rewrite expect_nl by reflexivity;
    rewrite parse_chars_quote;
    rewrite expect_here by reflexivity;
    match goal with
    | |- context [parse_value f (String " " ?s)] =>
        rewrite (parse_value_skip f (String " " s) s eq_refl)
    end;
    rewrite Hx by lia.
  - cbn [ser_members].
    rewrite expect_nl_other, expect_nl by reflexivity. reflexivity.
  - pose proof HD as HD'. apply Forall_cons_1 in HD' as [Hdy _]. cbn [snd] in Hdy.
    rewrite ser_members_cons by exact Hdy. cbn [sep].
    rewrite expect_here by reflexivity.
    rewrite IH; [reflexivity|exact HD|exact HF|lia].
Qed.

Lemma obj_set_fresh key v acc :
  key ∉ map fst acc → obj_set key v acc = acc ++ [(key, v)].
Proof.
  induction acc as [|[k' v'] acc IH]; intros Hk; [reflexivity|].
  cbn [obj_set map fst] in *.
  apply not_elem_of_cons in Hk as [Hne Hk].
  destruct (String.eqb_spec key k') as [->|_]; [congruence|].
  cbn [app]. now rewrite IH.
Qed.

(** Distinct keys are stored as they come. *)
Lemma build_obj_nodup ps : NoDup (map fst ps) → build_obj ps = ps.
Proof.
  unfold build_obj.
  enough (∀ acc, NoDup (map fst (acc ++ ps)) →
            fold_left (fun acc kv => obj_set (fst kv) (snd kv) acc) ps acc
            = acc ++ ps) as Hgen by (intros Hnd; exact (Hgen [] Hnd)).
  induction ps as [|[key v] ps IH]; intros acc Hnd; cbn [fold_left fst snd].
  - now rewrite app_nil_r.
  - rewrite obj_set_fresh.
    + rewrite IH; rewrite <- app_assoc; [reflexivity|exact Hnd].
    + rewrite map_app in Hnd. apply NoDup_app in Hnd as (_ & Hdis & _).
      intros Hin. apply (Hdis key Hin). cbn. left.
Qed.

(** What [JSON.stringify] prints for a printable value, [JSON.parse]
    reads back as the normal form of the value. *)
Lemma parse_ser v : printable v → reads_back v.
Proof.
  induction v as [| | b | n | s | d | l IH | ps IH] using Value_ind';
    intros Hp ind k fuel Hfuel;
    (destruct fuel as [|f]; [cbn in Hfuel; lia|]).
  - reflexivity.
  - reflexivity.
  - destruct b; reflexivity.
  - inversion Hp.
  - cbn [ser norm]. unfold quote. rewrite parse_value_str, parse_chars_quote.
    reflexivity.
  - destruct d as [t|]; [|reflexivity].
    cbn [ser norm]. unfold quote. rewrite parse_value_str, parse_chars_quote.
    reflexivity.
  - inversion Hp as [| | | | |l' Hl|]; subst l'.
    assert (Forall reads_back l) as HF.
    { clear Hfuel. induction l as [|x l IHl]; [constructor|].
      apply Forall_cons_1 in IH as [IHx IH].
      apply Forall_cons_1 in Hl as [Hx Hl].
      constructor; [now apply IHx|].
      apply IHl; [exact IH| |exact Hl].
      now constructor. }
    rewrite ser_arr, parse_value_arr. rewrite weight_arr in Hfuel.
    destruct l as [|x l].
    + cbn [ser_elems]. rewrite expect_here by reflexivity. reflexivity.
    + rewrite ser_elems_cons. cbn [sep].
      rewrite expect_ser by (apply Forall_cons_1 in Hl as [Hx _]; auto).
      rewrite parse_elems_ser; [reflexivity|exact HF|lia].
  - inversion Hp as [| | | | | |ps' Hnd Hl]; subst ps'.
    assert (Forall (fun kv => reads_back (snd kv)) ps) as HF.
    { clear Hfuel Hnd Hp. induction ps as [|kv ps IHps]; [constructor|].
      apply Forall_cons_1 in IH as [IHx IH].
      apply Forall_cons_1 in Hl as [Hx Hl].
      constructor; [now apply IHx|]. now apply IHps. }
    rewrite ser_obj, parse_value_obj, norm_obj.
    rewrite weight_obj, weight_props_defined in Hfuel.
    rewrite ser_members_defined. rewrite norm_props_defined in Hnd |- *.
    pose proof (defined_all ps) as HD.
    apply (defined_Forall _ ps) in HF.
    destruct (defined ps) as [|[key x] qs].
    + cbn [ser_members]. rewrite expect_here by reflexivity. reflexivity.
    + pose proof HD as HD'. apply Forall_cons_1 in HD' as [Hdx _]. cbn [snd] in Hdx.
      rewrite ser_members_cons by exact Hdx. cbn [sep].
      unfold quote at 1. rewrite expect_nl_other by reflexivity.
      fold (quote key (String ":" (String " "
              (ser (ind + 2) x (ser_members ind k false qs))))).
      rewrite parse_members_ser; [|exact HD|exact HF|lia].
      now rewrite build_obj_nodup.
Qed.

(** *** The text is long enough to pay for the fuel *)

Lemma length_spaces n k : String.length (spaces n k) = n + String.length k.
Proof. induction n; cbn [spaces String.length]; lia. Qed.

Lemma length_nl n k : String.length (nl n k) = S (n + String.length k).
Proof. unfold nl. cbn [String.length]. now rewrite length_spaces. Qed.

Lemma length_sep first k : String.length k ≤ String.length (sep first k).
Proof. destruct first; cbn [sep String.length]; lia. Qed.

Lemma length_ser_elems ind k l : ∀ first,
  Forall long_enough l →
  weight_elems l + String.length k ≤ String.length (ser_elems ind k first l).
Proof.
  induction l as [|x l IH]; intros first HF.
  - destruct first; cbn [ser_elems weight_elems fold_right String.length];
      rewrite ?length_nl; cbn [String.length]; lia.
  - apply Forall_cons_1 in HF as [Hx HF].
    rewrite ser_elems_cons. cbn [weight_elems fold_right].
    pose proof (length_sep first
      (nl (ind + 2) (ser (ind + 2) x (ser_elems ind k false l)))) as Hs.
    rewrite length_nl in Hs.
    pose proof (Hx (ind + 2) (ser_elems ind k false l)) as Hx'.
    pose proof (IH false HF) as Hl. unfold weight_elems in Hl. lia.
Qed.

Lemma length_ser_members ind k ps : ∀ first,
  Forall (fun kv => TodoService.is_undefined (snd kv) = false) ps →
  Forall (fun kv => long_enough (snd kv)) ps →
  weight_props ps + String.length k ≤ String.length (ser_members ind k first ps).
Proof.
  induction ps as [|[key x] ps IH]; intros first HD HF.
  - destruct first; cbn [ser_members weight_props String.length];
      rewrite ?length_nl; cbn [String.length]; lia.
  - apply Forall_cons_1 in HD as [Hdx HD].
    apply Forall_cons_1 in HF as [Hx HF]. cbn [snd] in Hdx, Hx.
    rewrite ser_members_cons, weight_props_cons by exact Hdx.
    match goal with
    | |- context [sep first ?t] => pose proof (length_sep first t) as Hs
    end.
    rewrite length_nl in Hs.
    match type of Hs with
    | context [quote key ?t] => pose proof (length_quote key t) as Hq
    end.
    cbn [String.length] in Hq.
    pose proof (Hx (ind + 2) (ser_members ind k false ps)) as Hx'.
    pose proof (IH false HD HF) as Hl. lia.
Qed.

Lemma length_ser v : printable v → long_enough v.
Proof.
  induction v as [| | b | n | s | d | l IH | ps IH] using Value_ind';
    intros Hp ind k.
  - cbn [ser weight]. rewrite StrFacts.length_app. cbn [String.length]. lia.
  - cbn [ser weight]. rewrite StrFacts.length_app. cbn [String.length]. lia.
  - destruct b; cbn [ser weight]; rewrite StrFacts.length_app;
      cbn [String.length]; lia.
  - inversion Hp.
  - cbn [ser weight]. pose proof (length_quote s k). lia.
  - destruct d as [t|]; cbn [ser weight].
    + pose proof (length_quote (Date_toISOString t) k). lia.
    + rewrite StrFacts.length_app. cbn [String.length]. lia.
  - inversion Hp as [| | | | |l' Hl|]; subst l'.
    assert (Forall long_enough l) as HF.
    { clear ind k. induction l as [|x l IHl]; [constructor|].
      apply Forall_cons_1 in IH as [IHx IH].
      apply Forall_cons_1 in Hl as [Hx Hl].
      constructor; [now apply IHx|].
      apply IHl; [exact IH| |exact Hl]. now constructor. }
    rewrite ser_arr, weight_arr. cbn [String.length].
    pose proof (length_ser_elems ind k l true HF). lia.
  - inversion Hp as [| | | | | |ps' Hnd Hl]; subst ps'.
    assert (Forall (fun kv => long_enough (snd kv)) ps) as HF.
    { clear ind k Hnd Hp. induction ps as [|kv ps IHps]; [constructor|].
      apply Forall_cons_1 in IH as [IHx IH].
      apply Forall_cons_1 in Hl as [Hx Hl].
      constructor; [now apply IHx|]. now apply IHps. }
    rewrite ser_obj, weight_obj, weight_props_defined, ser_members_defined.
    cbn [String.length].
    pose proof (length_ser_members ind k (defined ps) true
                  (defined_all ps) (defined_Forall _ ps HF)). lia.
Qed.

(** [JSON.parse(JSON.stringify(v, null, 2))] is the normal form of [v]. *)
Theorem parse_stringify v text :
  printable v → stringify v = Some text → parse text = Some (norm v).
Proof.
  intros Hp Hs.
  assert (text = ser 0 v EmptyString) as ->.
  { destruct v; cbn [stringify] in Hs; congruence. }
  unfold parse.
  pose proof (length_ser v Hp 0 EmptyString) as Hlen.
  rewrite (parse_ser v Hp) by lia. reflexivity.
Qed.

(** *** Persisted data is its own normal form *)

Lemma json_safe_defined v : json_safe v → TodoService.is_undefined v = false.
Proof. now destruct 1. Qed.

Lemma norm_props_id ps :
  Forall (fun kv => json_safe (snd kv) ∧ norm (snd kv) = snd kv) ps →
  norm_props ps = ps.
Proof.
  induction 1 as [|[key x] ps [Hs Hn] _ IH]; [reflexivity|].
  cbn [snd] in Hs, Hn.
  rewrite norm_props_cons by (now apply json_safe_defined).
  now rewrite Hn, IH.
Qed.

Lemma Forall_mp {A} (P Q : A → Prop) l :
  Forall (fun x => P x → Q x) l → Forall P l → Forall Q l.
Proof. induction 1; inversion 1; constructor; auto. Qed.

Lemma map_norm_id l : Forall (fun x => norm x = x) l → map norm l = l.
Proof. induction 1 as [|x l Hx _ IH]; cbn [map]; congruence. Qed.

Lemma json_safe_printable v : json_safe v → printable v ∧ norm v = v.
Proof.
  induction v as [| | b | n | s | d | l IH | ps IH] using Value_ind';
    intros Hs; inversion Hs as [| | |l' Hl|ps' Hnd Hl]; subst;
    try (split; [constructor|reflexivity]).
  - pose proof (Forall_mp _ _ _ IH Hl) as HF.
    split.
    + constructor. eapply Forall_impl; [exact HF|]. now intros x [Hx _].
    + cbn [norm]. f_equal. apply map_norm_id.
      eapply Forall_impl; [exact HF|]. now intros x [_ Hx].
  - pose proof (Forall_mp (fun kv => json_safe (snd kv)) _ _ IH Hl) as HF.
    assert (norm_props ps = ps) as Hid.
    { apply norm_props_id.
      apply (Forall_mp (fun kv => json_safe (snd kv)) _ ps); [|exact Hl].
      eapply Forall_impl; [exact HF|]. intros kv [_ Hx] Hsx. now split. }
    split.
    + constructor; [now rewrite Hid|].
      eapply Forall_impl; [exact HF|]. now intros kv [Hx _].
    + now rewrite norm_obj, Hid.
Qed.

(** Persisted data survives printing and parsing unchanged. *)
Theorem parse_stringify_safe v text :
  json_safe v → stringify v = Some text → parse text = Some v.
Proof.
  intros Hs Ht. destruct (json_safe_printable v Hs) as [Hp Hn].
  rewrite (parse_stringify v text Hp Ht). now rewrite Hn.
Qed.

End Codec.

End JsonFacts.

(** ** The file system, call by call *)

Module FsFacts.

Lemma with_faults_same w : with_faults (faults w) w = w.
Proof. now destruct w. Qed.

Lemma with_files_same w : with_files (files w) w = w.
Proof. now destruct w. Qed.


Lemma next_fault_run w :
  next_fault w = (Ok (hd None (faults w)), after_call w).
Proof.
  unfold next_fault, after_call. destruct w as [fs [|f fl] c t u d]; reflexivity.
Qed.

Lemma mkdir_run dir w :
  fs.mkdir dir w =
    match hd None (faults w) with
    | Some ft => (Throw (f_error ft), after_call w)
    | None => (Ok tt, after_call w)
    end.
Proof.
  unfold fs.mkdir, bind. rewrite next_fault_run.
  destruct (hd None (faults w)); reflexivity.
Qed.

Lemma access_run p w :
  fs.access p w =
    match hd None (faults w) with
    | Some ft => (Throw (f_error ft), after_call w)
    | None =>
        match files w !! p with
        | Some _ => (Ok tt, after_call w)
        | None => (Throw (fs.ENOENT "access" p), after_call w)
        end
    end.
Proof.
  unfold fs.access, bind. rewrite next_fault_run.
  destruct (hd None (faults w)); reflexivity.
Qed.

Lemma readFile_run p w :
  fs.readFile p w =
    match hd None (faults w) with
    | Some ft => (Throw (f_error ft), after_call w)
    | None =>
        match files w !! p with
        | Some data => (Ok data, after_call w)
        | None => (Throw (fs.ENOENT "open" p), after_call w)
        end
    end.
Proof.
  unfold fs.readFile, bind. rewrite next_fault_run.
  destruct (hd None (faults w)); reflexivity.
Qed.

Lemma writeFile_run p data w :
  fs.writeFile p data w =
    match hd None (faults w) with
    | Some ft =>
        (Throw (f_error ft),
         match f_partial ft with
         | Some junk => with_files (<[p := junk]> (files w)) (after_call w)
         | None => after_call w
         end)
    | None => (Ok tt, with_files (<[p := data]> (files w)) (after_call w))
    end.
Proof.
  unfold fs.writeFile, bind. rewrite next_fault_run.
  destruct (hd None (faults w)); reflexivity.
Qed.

Lemma rename_run p q w :
  fs.rename p q w =
    match hd None (faults w) with
    | Some ft => (Throw (f_error ft), after_call w)
    | None =>
        match files w !! p with
        | Some data =>
            (Ok tt, with_files (<[q := data]> (delete p (files w))) (after_call w))
        | None => (Throw (fs.ENOENT "rename" p), after_call w)
        end
    end.
Proof.
  unfold fs.rename, bind. rewrite next_fault_run.
  destruct (hd None (faults w)); reflexivity.
Qed.

Lemma unlink_run p w :
  fs.unlink p w =
    match hd None (faults w) with
    | Some ft => (Throw (f_error ft), after_call w)
    | None =>
        match files w !! p with
        | Some _ => (Ok tt, with_files (delete p (files w)) (after_call w))
        | None => (Throw (fs.ENOENT "unlink" p), after_call w)
        end
    end.
Proof.
  unfold fs.unlink, bind. rewrite next_fault_run.
  destruct (hd None (faults w)); reflexivity.
Qed.

(** With nothing scheduled, a call leaves the schedule as it is. *)
Lemma after_call_quiet w : faults w = [] → after_call w = w.
Proof. unfold after_call. destruct w; simpl. now intros ->. Qed.

Section Store.
Context `{DateRuntime}.
Variable ss : StorageService.t.

(** Reading a present, well-formed file with nothing scheduled. *)
Lemma loadTodos_ok w text v :
  faults w = [] →
  files w !! StorageService.filePath ss = Some text →
  JSON.parse text = Some v →
  StorageService.loadTodos ss w = (Ok v, w).
Proof.
  intros Hq Hfile Hparse. unfold StorageService.loadTodos.
  apply run_try_ok. unfold bind.
  rewrite readFile_run, Hq, Hfile. cbn [hd].
  rewrite Hparse, after_call_quiet by assumption. reflexivity.
Qed.

(** The staging location is not the final location. *)
Lemma temp_ne_final : StorageService.tempFilePath ss ≠ StorageService.filePath ss.
Proof.
  unfold StorageService.tempFilePath. intros E.
  apply (f_equal String.length) in E. rewrite StrFacts.length_app in E.
  cbn in E. lia.
Qed.

Lemma kind_of_save_failure m :
  kind_of (newError ("Failed to save todos: " +:+ m)) = StorageWriteError.
Proof. reflexivity. Qed.

(** The clean-up of [saveTodos]: it never raises, it leaves every path
    other than the staging location alone, and it leaves nothing at the
    staging location unless the unlink itself was rejected. *)
Lemma cleanup_run w :
  ∃ w', try_catch (fs.unlink (StorageService.tempFilePath ss))
                  (fun _ => ret tt) w = (Ok tt, w') ∧
        (∀ p, p ≠ StorageService.tempFilePath ss →
              files w' !! p = files w !! p) ∧
        (hd None (faults w) = None →
         files w' !! StorageService.tempFilePath ss = None).
Proof.
  unfold try_catch. rewrite FsFacts.unlink_run.
  destruct (hd None (faults w)) as [ft|] eqn:Hhd.
  - eexists. split; [reflexivity|]. split; [reflexivity|discriminate].
  - destruct (files w !! StorageService.tempFilePath ss) eqn:Htmp.
    + eexists. split; [reflexivity|]. cbn. split.
      * intros p Hp. now rewrite lookup_delete_ne.
      * intros _. apply lookup_delete_eq.
    + eexists. split; [reflexivity|]. cbn. split; [reflexivity|]. now intros _.
Qed.

(** C4, as the code has it.  When the staging write or the rename of
    [saveTodos] is rejected, [saveTodos] raises the storage-write error
    carrying the message of the rejection and the final location holds
    what it held before (or is still absent).  The clean-up is best
    effort: nothing remains at the staging location provided the
    unlink of the clean-up is not itself rejected. *)
Theorem saveTodos_failure_atomic (todos : Value) (w : World)
    (ft : Fault) (rest : list (option Fault)) :
  isArray todos = true →
  StagingFails (faults w) ft rest →
  ∃ w',
    StorageService.saveTodos ss todos w =
      (Throw (newError ("Failed to save todos: " +:+ message (f_error ft))), w') ∧
    kind_of (newError ("Failed to save todos: " +:+ message (f_error ft)))
      = StorageWriteError ∧
    files w' !! StorageService.filePath ss = files w !! StorageService.filePath ss ∧
    (hd None rest = None →
     files w' !! StorageService.tempFilePath ss = None).
Proof.
  intros Harr Hsched. destruct todos as [| | | | | |l|]; try discriminate.
  pose proof temp_ne_final as Hne.
  unfold StorageService.saveTodos. cbn [isArray negb JSON.stringify].
  set (text := JSON.ser 0 (VArr l) EmptyString).
  destruct w as [fs fl c t u d]. cbn [faults] in Hsched.
  inversion Hsched as [ft' rest' Hfl|ft' rest' Hfl]; subst ft' rest' fl.
  - (* the write is rejected *)
    unfold bind at 1. rewrite FsFacts.mkdir_run. cbn [hd faults].
    unfold try_catch at 1, bind at 1.
    rewrite FsFacts.writeFile_run. cbn [hd faults after_call with_faults tl].
    unfold bind at 1.
    match goal with
    | |- context [try_catch (fs.unlink _) _ ?w0] =>
        destruct (cleanup_run w0) as (w' & Hrun & Hother & Htmp)
    end.
    rewrite Hrun. exists w'. split; [reflexivity|].
    split; [reflexivity|]. split.
    + rewrite Hother by (intros E; now apply Hne).
      destruct (f_partial ft); cbn; [|reflexivity].
      now rewrite lookup_insert_ne.
    + intros Hrest. apply Htmp. destruct (f_partial ft); exact Hrest.
  - (* the write goes through and the rename is rejected *)
    unfold bind at 1. rewrite FsFacts.mkdir_run. cbn [hd faults].
    unfold try_catch at 1, bind at 1.
    rewrite FsFacts.writeFile_run. cbn [hd faults after_call with_faults tl].
    rewrite FsFacts.rename_run.
    cbn [hd faults after_call with_faults with_files tl files].
    unfold bind at 1.
    match goal with
    | |- context [try_catch (fs.unlink _) _ ?w0] =>
        destruct (cleanup_run w0) as (w' & Hrun & Hother & Htmp)
    end.
    rewrite Hrun. exists w'. split; [reflexivity|].
    split; [reflexivity|]. split.
    + rewrite Hother by (intros E; now apply Hne).
      cbn. now rewrite lookup_insert_ne.
    + intros Hrest. apply Htmp. exact Hrest.
Qed.

(** With nothing scheduled, [saveTodos] stages the text, renames it over
    the final location and leaves nothing at the staging location. *)
Lemma saveTodos_ok l w :
  faults w = [] →
  StorageService.saveTodos ss (VArr l) w =
    (Ok tt,
     with_files
       (<[StorageService.filePath ss := JSON.ser 0 (VArr l) EmptyString]>
          (delete (StorageService.tempFilePath ss) (files w))) w).
Proof.
  intros Hq. unfold StorageService.saveTodos. cbn [isArray negb JSON.stringify].
  unfold bind at 1. rewrite mkdir_run, Hq. cbn [hd].
  rewrite after_call_quiet by assumption.
  apply run_try_ok. unfold bind.
  rewrite writeFile_run, Hq. cbn [hd]. rewrite after_call_quiet by assumption.
  rewrite rename_run. cbn [faults with_files files]. rewrite Hq. cbn [hd].
  rewrite lookup_insert_eq. f_equal.
  rewrite delete_insert_eq.
  unfold after_call, with_files, with_faults. cbn. now rewrite Hq.
Qed.

(** C5, as the code has it.  For every collection [C] of printable data
    (no numbers, no object that prints a key twice), [saveTodos(C)]
    followed by [loadTodos()] returns, when no file-system call is
    rejected, the JSON normal form of [C]: element for element and in
    the same order, with every [Date] replaced by its ISO string, every
    [undefined] element by [null], and the properties whose value is
    [undefined] left out.  For the records of the service this is the
    collection of their persisted forms, and for data that is persisted
    data already ([null], booleans, strings, arrays, objects with
    distinct keys) it is [C] itself.  Nothing is left at the staging
    location. *)
Theorem save_then_load (C : list Value) (w : World) :
  Forall printable C →
  faults w = [] →
  ∃ w1,
    StorageService.saveTodos ss (VArr C) w = (Ok tt, w1) ∧
    StorageService.loadTodos ss w1 = (Ok (VArr (map norm C)), w1) ∧
    length (map norm C) = length C ∧
    (∀ i, map norm C !! i = norm <$> C !! i) ∧
    (∀ todos, C = map Todo.toJSON todos → map norm C = map stored todos) ∧
    (Forall json_safe C → map norm C = C) ∧
    files w1 !! StorageService.tempFilePath ss = None.
Proof.
  intros Hp Hq. eexists. split; [now apply saveTodos_ok|].
  split; [|split; [|split; [|split; [|split]]]].
  - apply (loadTodos_ok _ (JSON.ser 0 (VArr C) EmptyString)).
    + exact Hq.
    + cbn [with_files files]. apply lookup_insert_eq.
    + change (VArr (map norm C)) with (norm (VArr C)).
      apply JsonFacts.parse_stringify; [now constructor|reflexivity].
  - apply length_map.
  - intros i. apply (list_lookup_fmap norm C i).
  - intros todos ->. unfold stored. now rewrite map_map.
  - intros Hsafe. apply JsonFacts.map_norm_id.
    eapply Forall_impl; [exact Hsafe|].
    intros v Hv. now apply JsonFacts.json_safe_printable in Hv.
  - cbn [with_files files].
    rewrite lookup_insert_ne by (intros E; symmetry in E; now apply temp_ne_final).
    apply lookup_delete_eq.
Qed.

End Store.

Import Examples.

Lemma save_then_load_witness :
  ∃ w1,
    StorageService.saveTodos store (VArr [Todo.toJSON first_todo]) (world ∅ [])
      = (Ok tt, w1) ∧
    StorageService.loadTodos store w1 =
      (Ok (VArr [VObj [("id", VStr "todo-1");
                       ("description", VStr "Original description");
                       ("completed", VBool false);
                       ("createdAt", VStr "T5");
                       ("updatedAt", VStr "T7")]]), w1) ∧
    files w1 !! StorageService.tempFilePath store = None.
Proof.
  destruct (save_then_load store [Todo.toJSON first_todo] (world ∅ []))
    as (w1 & Hsave & Hload & _ & _ & _ & _ & Htemp).
  - apply List.Forall_cons; [|apply List.Forall_nil].
    apply printable_obj.
    + apply (bool_decide_unpack _). vm_compute. exact I.
    + cbn [Todo.id Todo.description Todo.completed Todo.createdAt
           Todo.updatedAt first_todo].
      repeat first [ apply List.Forall_cons | apply List.Forall_nil ];
        cbn [snd]; constructor.
  - reflexivity.
  - exists w1. split; [exact Hsave|]. split; [exact Hload|exact Htemp].
Defined.

(** C5 does not hold as stated: the records that the service saves carry
    [Date] objects, and what [loadTodos] returns for them has ISO strings
    in their place, so it is not the collection that was saved. *)
Lemma save_then_load_changes_dates :
  let C := [Todo.toJSON first_todo] in
  let w1 := snd (StorageService.saveTodos store (VArr C) (world ∅ [])) in
  ∃ loaded,
    StorageService.saveTodos store (VArr C) (world ∅ []) = (Ok tt, w1) ∧
    StorageService.loadTodos store w1 = (Ok (VArr loaded), w1) ∧
    loaded ≠ C ∧
    get (nth 0 C VNull) "createdAt" = VDate (Some 5%Z) ∧
    get (nth 0 loaded VNull) "createdAt" = VStr "T5".
Proof.
  intros C w1. eexists.
  split; [vm_compute; reflexivity|]. split; [vm_compute; reflexivity|].
  split; [discriminate|]. split; reflexivity.
Qed.

Lemma saveTodos_failure_atomic_witness :
  let w := world {[ "data/todos.json" := one_todo ]} [None; Some (ENOSPC "[")] in
  ∃ w',
    StorageService.saveTodos store (VArr []) w =
      (Throw (newError ("Failed to save todos: " +:+
                        message (f_error (ENOSPC "[")))), w') ∧
    files w' !! StorageService.filePath store =
      files w !! StorageService.filePath store ∧
    files w' !! StorageService.tempFilePath store = None.
Proof.
  intros w.
  destruct (saveTodos_failure_atomic store (VArr []) w (ENOSPC "[") [])
    as (w' & Hrun & _ & Hfinal & Htemp).
  - reflexivity.
  - apply write_rejected.
  - exists w'. split; [exact Hrun|]. split; [exact Hfinal|].
    apply Htemp. reflexivity.
Defined.

(** C4 does not hold as stated: when the rename is rejected and the
    unlink of the clean-up is rejected too, [saveTodos] still raises its
    error and the final location is untouched, but the staged file
    remains at the staging location. *)
Lemma saveTodos_cleanup_can_fail :
  let w := world {[ "data/todos.json" := one_todo ]}
                 [None; None; Some EACCES; Some EACCES] in
  fst (StorageService.saveTodos store (VArr []) w) =
    Throw (newError "Failed to save todos: EACCES: permission denied") ∧
  files (snd (StorageService.saveTodos store (VArr []) w)) !! "data/todos.json"
    = Some one_todo ∧
  files (snd (StorageService.saveTodos store (VArr []) w)) !! "data/todos.json.tmp"
    = Some "[]"%string.
Proof. vm_compute. repeat split. Qed.

End FsFacts.

(** ** The service: validation before delegation *)

Module ServiceFacts.
Import TodoService.

Section WithRuntime.
Context `{DateRuntime}.

Lemma new_run description id0 w :
  Todo.new description id0 w =
    let w1 := if truthy id0 then w else draw w in
    match Todo.validateDescription description with
    | Throw e => (Throw e, w1)
    | Ok d =>
        (Ok {| Todo.id := if truthy id0 then id0 else VStr (uuids w (drawn w));
               Todo.description := d; Todo.completed := false;
               Todo.createdAt := Some (clock w (ticks w));
               Todo.updatedAt := Some (clock w (S (ticks w))) |},
         tick (tick w1))
    end.
Proof.
  unfold Todo.new, bind, Todo.lift, uuidv4, Date_now, ret.
  destruct (truthy id0); simpl;
    destruct (Todo.validateDescription description); reflexivity.
Qed.

Lemma fromJSON_run ps w :
  Todo.fromJSON (VObj ps) w =
    match Todo.new (get (VObj ps) "description") (get (VObj ps) "id") w with
    | (Ok todo, w') =>
        (Ok {| Todo.id := Todo.id todo;
               Todo.description := Todo.description todo;
               Todo.completed :=
                 match get (VObj ps) "completed" with
                 | VBool b => b
                 | _ => Todo.completed todo
                 end;
               Todo.createdAt :=
                 if truthy (get (VObj ps) "createdAt")
                 then Date_new (get (VObj ps) "createdAt")
                 else Todo.createdAt todo;
               Todo.updatedAt :=
                 if truthy (get (VObj ps) "updatedAt")
                 then Date_new (get (VObj ps) "updatedAt")
                 else Todo.updatedAt todo |}, w')
    | (Throw e, w') => (Throw e, w')
    end.
Proof.
  unfold Todo.fromJSON. cbn [truthy is_object_type typeof negb orb].
  unfold bind. destruct (Todo.new _ _ w) as [[todo|e] w']; reflexivity.
Qed.

Lemma bad_description_throws d :
  BadDescription d →
  ∃ e, Todo.validateDescription (get d "description") = Throw e.
Proof.
  intros [ps Hn|ps v Hv Hs|ps s Hv Ht|ps s Hv Hl];
    cbn [get]; rewrite ?Hn, ?Hv; cbn [from_option]; unfold id.
  - simpl. eauto.
  - rewrite TodoFacts.validate_not_string by assumption. eauto.
  - rewrite TodoFacts.validate_empty by (now rewrite Ht). eauto.
  - rewrite TodoFacts.validate_long by assumption. eauto.
Qed.

(** Deserialising a list of plain objects, one of which has a bad
    description, stops at a validation error. *)
Lemma mapM_fromJSON_bad l w :
  Forall is_plain_object l → Exists BadDescription l →
  ∃ e w', mapM Todo.fromJSON l w = (Throw e, w') ∧
          (e = newError "Description must be a string" ∨
           e = newError "Description cannot be empty" ∨
           e = newError "Description cannot exceed 500 characters").
Proof.
  intros Hobj. revert w. induction Hobj as [|d l [ps ->] _ IH]; intros w Hbad.
  - inversion Hbad.
  - cbn [mapM]. unfold bind at 1. rewrite fromJSON_run, new_run.
    destruct (Todo.validateDescription (get (VObj ps) "description"))
      as [dsc|e] eqn:Hv; cbn zeta.
    + assert (Exists BadDescription l) as Hl.
      { inversion Hbad as [? ? Hd|]; [|assumption].
        apply bad_description_throws in Hd as [e He]. congruence. }
      destruct (IH (tick (tick (if truthy (get (VObj ps) "id") then w else draw w))) Hl)
        as (e & w' & Hrun & He).
      exists e, w'. split; [|exact He].
      unfold bind. now rewrite Hrun.
    + apply TodoFacts.validate_throw in Hv as [_ Hv]. eauto.
Qed.

(** C10.  [getAllTodos] validates every stored record again while it
    deserialises the collection: when the store returns an array of
    plain objects (so no read failed) and one of them has a description
    that is missing, not a string, blank after trimming or longer than
    500 after trimming, [getAllTodos] raises a validation error, under
    the prefix of the service, instead of returning the collection. *)
Theorem getAllTodos_revalidates (st : Storage) (w w1 : World) (l : list Value) :
  loadTodos st w = (Ok (VArr l), w1) →
  Forall is_plain_object l →
  Exists BadDescription l →
  ∃ e w' m,
    getAllTodos st w = (Throw e, w') ∧
    kind_of e = ValidationError ∧
    message e = "Failed to retrieve todos: " +:+ m ∧
    (m = "Description must be a string" ∨
     m = "Description cannot be empty" ∨
     m = "Description cannot exceed 500 characters").
Proof.
  intros Hload Hobj Hbad.
  destruct (mapM_fromJSON_bad l w1 Hobj Hbad) as (e & w' & Hrun & He).
  exists (newError ("Failed to retrieve todos: " +:+ message e)), w', (message e).
  split.
  - unfold getAllTodos.
    erewrite run_try_throw; [reflexivity|].
    erewrite run_bind by exact Hload. exact Hrun.
  - destruct He as [-> | [-> | ->]]; repeat split; auto.
Qed.

Lemma getAllTodos_load_fails (st : Storage) w e w' :
  loadTodos st w = (Throw e, w') →
  getAllTodos st w =
    (Throw (newError ("Failed to retrieve todos: " +:+ message e)), w').
Proof.
  intros Hload. unfold getAllTodos.
  rewrite (run_try_throw _ _ _ e w'); [reflexivity|].
  now apply run_bind_throw.
Qed.

(** [updateTodo] once the record has been found. *)
Lemma updateTodo_found (st : Storage) id updates w todos w1 i todo :
  bad_id id = false →
  truthy updates = true → is_object_type updates = true →
  getAllTodos st w = (Ok todos, w1) →
  findIndex (fun todo => strict_eq (Todo.id todo) id) todos = Some i →
  todos !! i = Some todo →
  updateTodo st id updates w =
    (let* todo' := applyUpdates todo updates in
     saveTodos st (VArr (map Todo.toJSON (<[i := todo']> todos))) ;;
     ret todo') w1.
Proof.
  intros Hid Ht Ho Hall Hfind Hget. unfold updateTodo.
  rewrite Hid, Ht, Ho. cbn [negb orb].
  rewrite (run_bind _ _ _ _ _ Hall), Hfind, Hget.
  unfold applyUpdates, bind.
  destruct (negb (is_undefined (get updates "description")));
    [destruct (Todo.updateDescription todo _ w1) as [[t1|e1] w2]|];
    try reflexivity; cbn [ret];
    destruct (negb (is_undefined (get updates "completed")));
    try reflexivity.
Qed.

Lemma findIndex_lookup {A} (p : A → bool) (l : list A) : ∀ i,
  findIndex p l = Some i → ∃ x, l !! i = Some x.
Proof.
  induction l as [|a l IH]; intros i; [discriminate|].
  cbn [findIndex]. destruct (p a).
  - intros [= <-]. now exists a.
  - destruct (findIndex p l) as [k|]; [|discriminate].
    intros [= <-]. exact (IH k eq_refl).
Qed.

(** C1, as the code has it.  For every id, an [updates] argument that
    is absent ([undefined], [null]) or not an object (a string, a
    number, a boolean) makes [updateTodo] fail with an invalid-argument
    error before the store is touched: the world is unchanged.  An
    object without [description] and without [completed] (the empty
    object among them) is not rejected: with a usable id the collection
    is read (a failure of the read is the outcome), the record is looked
    up, the outcome is the not-found error when it is absent, and
    otherwise the collection that was read is saved again as it is and
    the record found is returned (or the failure of the save raised). *)
Theorem updateTodo_rejects_non_object (st : Storage) (id updates : Value)
    (w : World) :
  (truthy updates = false ∨ is_object_type updates = false →
   ∃ e, updateTodo st id updates w = (Throw e, w) ∧
        kind_of e = InvalidArgumentError ∧
        (e = newError "Valid todo ID is required" ∨
         e = newError "Updates object is required")) ∧
  (bad_id id = false →
   truthy updates = true → is_object_type updates = true →
   get updates "description" = VUndefined →
   get updates "completed" = VUndefined →
   (∀ e w1, getAllTodos st w = (Throw e, w1) →
      updateTodo st id updates w = (Throw e, w1)) ∧
   (∀ todos w1, getAllTodos st w = (Ok todos, w1) →
      match findIndex (fun todo => strict_eq (Todo.id todo) id) todos with
      | None =>
          updateTodo st id updates w = (Throw (newError "Todo not found"), w1) ∧
          kind_of (newError "Todo not found") = NotFoundError
      | Some i =>
          ∃ todo,
            todos !! i = Some todo ∧
            match saveTodos st (VArr (map Todo.toJSON todos)) w1 with
            | (Ok _, w') => updateTodo st id updates w = (Ok todo, w')
            | (Throw e, w') => updateTodo st id updates w = (Throw e, w')
            end
      end)).
Proof.
  split.
  - intros Hu. unfold updateTodo.
    destruct (bad_id id).
    + eexists; repeat split; auto.
    + assert (negb (truthy updates) || negb (is_object_type updates) = true) as ->.
      { destruct Hu as [-> | ->]; [reflexivity|apply orb_true_r]. }
      eexists; repeat split; auto.
  - intros Hid Ht Ho Hd Hc. split.
    + intros e w1 Hall. unfold updateTodo. rewrite Hid, Ht, Ho. cbn [negb orb].
      now apply run_bind_throw.
    + intros todos w1 Hall.
      destruct (findIndex _ todos) as [i|] eqn:Hfind.
      * destruct (findIndex_lookup _ todos i Hfind) as [todo Hget].
        exists todo. split; [exact Hget|].
        rewrite (updateTodo_found st id updates w todos w1 i todo
                   Hid Ht Ho Hall Hfind Hget).
        unfold applyUpdates. rewrite Hd, Hc. cbn [is_undefined negb].
        unfold bind, ret. rewrite (list_insert_id todos i todo Hget).
        destruct (saveTodos st (VArr (map Todo.toJSON todos)) w1) as [[[]|e] w'];
          reflexivity.
      * split; [|reflexivity].
        unfold updateTodo. rewrite Hid, Ht, Ho. cbn [negb orb].
        rewrite (run_bind _ _ _ _ _ Hall), Hfind. reflexivity.
Qed.

(** C2, as the code has it.  A failure of the store is never swallowed
    and always carries the store's message, but it is only passed on
    as it is when [saveTodos] fails in [updateTodo], [toggleComplete]
    or [deleteTodo].  A failed [loadTodos] reaches the caller as a new
    error whose message is the store's message behind
    ["Failed to retrieve todos: "], and [createTodo] puts
    ["Failed to create todo: "] in front of whatever failed. *)
Theorem store_failures_propagate (st : Storage) :
  (∀ w e w', loadTodos st w = (Throw e, w') →
     let e' := newError ("Failed to retrieve todos: " +:+ message e) in
     getAllTodos st w = (Throw e', w') ∧
     (∀ id updates,
        bad_id id = false →
        truthy updates = true → is_object_type updates = true →
        updateTodo st id updates w = (Throw e', w')) ∧
     (∀ id, bad_id id = false → toggleComplete st id w = (Throw e', w')) ∧
     (∀ id, bad_id id = false → deleteTodo st id w = (Throw e', w'))) ∧
  (∀ description todo w w1 e w2,
     Todo.new description VNull w = (Ok todo, w1) →
     loadTodos st w1 = (Throw e, w2) →
     createTodo st description w =
       (Throw (newError ("Failed to create todo: " +:+
                         ("Failed to retrieve todos: " +:+ message e))), w2)) ∧
  (∀ description todo todos w w1 w2 e w3,
     Todo.new description VNull w = (Ok todo, w1) →
     getAllTodos st w1 = (Ok todos, w2) →
     saveTodos st (VArr (map Todo.toJSON (todos ++ [todo]))) w2 = (Throw e, w3) →
     createTodo st description w =
       (Throw (newError ("Failed to create todo: " +:+ message e)), w3)) ∧
  (∀ id updates todos i todo todo' w w1 w2 e w3,
     bad_id id = false →
     truthy updates = true → is_object_type updates = true →
     getAllTodos st w = (Ok todos, w1) →
     findIndex (fun todo => strict_eq (Todo.id todo) id) todos = Some i →
     todos !! i = Some todo →
     applyUpdates todo updates w1 = (Ok todo', w2) →
     saveTodos st (VArr (map Todo.toJSON (<[i := todo']> todos))) w2
       = (Throw e, w3) →
     updateTodo st id updates w = (Throw e, w3)) ∧
  (∀ id todos i todo w w1 e w3,
     bad_id id = false →
     getAllTodos st w = (Ok todos, w1) →
     findIndex (fun todo => strict_eq (Todo.id todo) id) todos = Some i →
     todos !! i = Some todo →
     saveTodos st
       (VArr (map Todo.toJSON
          (<[i := {| Todo.id := Todo.id todo;
                     Todo.description := Todo.description todo;
                     Todo.completed := negb (Todo.completed todo);
                     Todo.createdAt := Todo.createdAt todo;
                     Todo.updatedAt := Some (clock w1 (ticks w1)) |}]> todos)))
       (tick w1) = (Throw e, w3) →
     toggleComplete st id w = (Throw e, w3)) ∧
  (∀ id todos i w w1 e w3,
     bad_id id = false →
     getAllTodos st w = (Ok todos, w1) →
     findIndex (fun todo => strict_eq (Todo.id todo) id) todos = Some i →
     saveTodos st (VArr (map Todo.toJSON (delete i todos))) w1 = (Throw e, w3) →
     deleteTodo st id w = (Throw e, w3)).
Proof.
  split; [|split; [|split; [|split; [|split]]]].
  - intros w e w' Hload e'.
    pose proof (getAllTodos_load_fails st w e w' Hload) as Hall.
    split; [exact Hall|]. split; [|split].
    + intros id updates Hid Ht Ho. unfold updateTodo.
      rewrite Hid, Ht, Ho. cbn [negb orb]. now apply run_bind_throw.
    + intros id Hid. unfold toggleComplete. rewrite Hid.
      now apply run_bind_throw.
    + intros id Hid. unfold deleteTodo. rewrite Hid.
      now apply run_bind_throw.
  - intros description todo w w1 e w2 Hnew Hload. unfold createTodo.
    rewrite (run_try_throw _ _ _
               (newError ("Failed to retrieve todos: " +:+ message e)) w2);
      [reflexivity|].
    rewrite (run_bind _ _ _ _ _ Hnew).
    apply run_bind_throw. now apply getAllTodos_load_fails.
  - intros description todo todos w w1 w2 e w3 Hnew Hall Hsave.
    unfold createTodo.
    rewrite (run_try_throw _ _ _ e w3); [reflexivity|].
    rewrite (run_bind _ _ _ _ _ Hnew), (run_bind _ _ _ _ _ Hall).
    now apply run_bind_throw.
  - intros id updates todos i todo todo' w w1 w2 e w3
      Hid Ht Ho Hall Hfind Hget Happ Hsave.
    rewrite (updateTodo_found st id updates w todos w1 i todo) by assumption.
    rewrite (run_bind _ _ _ _ _ Happ). now apply run_bind_throw.
  - intros id todos i todo w w1 e w3 Hid Hall Hfind Hget Hsave.
    unfold toggleComplete. rewrite Hid.
    rewrite (run_bind _ _ _ _ _ Hall), Hfind, Hget.
    unfold Todo.toggleComplete.
    erewrite run_bind; [|erewrite run_bind; reflexivity].
    now apply run_bind_throw.
  - intros id todos i w w1 e w3 Hid Hall Hfind Hsave.
    unfold deleteTodo. rewrite Hid.
    rewrite (run_bind _ _ _ _ _ Hall), Hfind.
    now apply run_bind_throw.
Qed.

(** *** Reading back what the service stored *)

Lemma advance_0 w : advance 0 w = w.
Proof. now destruct w. Qed.

Lemma advance_tick n w : advance n (tick w) = advance (S n) w.
Proof. unfold advance, tick. cbn. f_equal. lia. Qed.

Lemma bind_ok_inv {A B} (m : M A) (k : A → M B) w b w' :
  bind m k w = (Ok b, w') → ∃ a w1, m w = (Ok a, w1) ∧ k a w1 = (Ok b, w').
Proof.
  unfold bind. destruct (m w) as [[a|e] w1]; [eauto|discriminate].
Qed.

Lemma mapM_ok_inv {A B} (f : A → M B) (l : list A) w bs w' :
  mapM f l w = (Ok bs, w') →
  Forall2 (fun a b => ∃ w1 w2, f a w1 = (Ok b, w2)) l bs.
Proof.
  revert w bs w'. induction l as [|a l IH]; intros w bs w' Hrun; cbn [mapM] in Hrun.
  - injection Hrun as <- _. constructor.
  - apply bind_ok_inv in Hrun as (b & w1 & Hb & Hrun).
    apply bind_ok_inv in Hrun as (bs' & w2 & Hbs & Hrun).
    injection Hrun as <- _. constructor; [eauto|]. eapply IH; eauto.
Qed.

(** A record that [fromJSON] accepts has a valid description. *)
Lemma fromJSON_ok_inv data w todo w' :
  Todo.fromJSON data w = (Ok todo, w') → description_ok todo.
Proof.
  unfold Todo.fromJSON.
  destruct (negb (truthy data) || negb (is_object_type data)); [discriminate|].
  intros Hrun. apply bind_ok_inv in Hrun as (t0 & w1 & Hnew & Hrun).
  injection Hrun as <- _. cbn [Todo.description].
  rewrite new_run in Hnew.
  destruct (Todo.validateDescription (get data "description")) as [d|e] eqn:Hv;
    [|discriminate].
  injection Hnew as <- _. cbn [Todo.description].
  apply TodoFacts.validate_inv in Hv as (s & _ & -> & Hlen).
  split; [apply StrFacts.trim_idem|exact Hlen].
Qed.

(** Whatever [getAllTodos] returns has valid descriptions. *)
Lemma getAllTodos_descriptions (st : Storage) w todos w' :
  getAllTodos st w = (Ok todos, w') → Forall description_ok todos.
Proof.
  unfold getAllTodos, try_catch.
  destruct (bind (loadTodos st) _ w) as [[ts|e] w1] eqn:Hrun; [|discriminate].
  intros [= <- <-].
  apply bind_ok_inv in Hrun as (data & w2 & _ & Hrun).
  destruct data; try discriminate.
  apply mapM_ok_inv in Hrun.
  induction Hrun as [|d t l ts' (wa & wb & Hd) _ IH]; constructor; [|exact IH].
  eapply fromJSON_ok_inv; eauto.
Qed.

Lemma try_ok_inv {A} (m : M A) (g : Error → Error) w a w' :
  try_catch m (fun e => throw (g e)) w = (Ok a, w') → m w = (Ok a, w').
Proof.
  unfold try_catch, throw. destruct (m w) as [[a0|e] w1]; [auto|discriminate].
Qed.

Lemma updateDescription_ok_inv todo v w todo' w' :
  Todo.updateDescription todo v w = (Ok todo', w') →
  ∃ s, v = VStr s ∧ Todo.description todo' = Str.trim s ∧ description_ok todo'.
Proof.
  unfold Todo.updateDescription, bind, Todo.lift.
  destruct (Todo.validateDescription v) as [d|e] eqn:Hv; [|discriminate].
  cbn. intros [= <- _]. apply TodoFacts.validate_inv in Hv as (s & -> & -> & Hlen).
  exists s. split; [reflexivity|]. split; [reflexivity|].
  split; [apply StrFacts.trim_idem|exact Hlen].
Qed.

Lemma setCompleted_ok_inv todo v w todo' w' :
  Todo.setCompleted todo v w = (Ok todo', w') →
  Todo.description todo' = Todo.description todo.
Proof.
  destruct v; try discriminate. cbn. now intros [= <- _].
Qed.

(** Whatever the store, a description that [createTodo] or [updateTodo]
    accepted was stored trimmed, and every description that [getAllTodos]
    returns is its own trimmed form. *)
Lemma trimmed_when_accepted (st : Storage) :
  (∀ s w todo w',
     createTodo st (VStr s) w = (Ok todo, w') →
     Todo.description todo = Str.trim s ∧
     get (Todo.toJSON todo) "description" = VStr (Str.trim s) ∧
     ∃ todos w1,
       saveTodos st (VArr (map Todo.toJSON (todos ++ [todo]))) w1 = (Ok tt, w') ∧
       Forall description_ok (todos ++ [todo])) ∧
  (∀ id updates s w todo w',
     get updates "description" = VStr s →
     updateTodo st id updates w = (Ok todo, w') →
     Todo.description todo = Str.trim s ∧
     get (Todo.toJSON todo) "description" = VStr (Str.trim s) ∧
     ∃ todos i w1,
       i < length todos ∧
       saveTodos st (VArr (map Todo.toJSON (<[i := todo]> todos))) w1 = (Ok tt, w') ∧
       Forall description_ok (<[i := todo]> todos)) ∧
  (∀ w todos w',
     getAllTodos st w = (Ok todos, w') →
     Forall (fun todo => Str.trim (Todo.description todo) = Todo.description todo)
            todos).
Proof.
  split; [|split].
  - intros s w todo w' Hrun. unfold createTodo in Hrun.
    apply try_ok_inv in Hrun.
    apply bind_ok_inv in Hrun as (todo0 & w1 & Hnew & Hrun).
    apply bind_ok_inv in Hrun as (todos & w2 & Hall & Hrun).
    apply bind_ok_inv in Hrun as ([] & w3 & Hsave & Hrun).
    injection Hrun as -> ->.
    rewrite new_run in Hnew.
    destruct (Todo.validateDescription (VStr s)) as [d|e] eqn:Hv; [|discriminate].
    injection Hnew as <- _.
    apply TodoFacts.validate_inv in Hv as (s' & [= <-] & -> & Hlen).
    split; [reflexivity|]. split; [reflexivity|].
    exists todos, w2. split; [exact Hsave|].
    apply Forall_app. split; [now apply getAllTodos_descriptions in Hall|].
    constructor; [|constructor].
    split; [apply StrFacts.trim_idem|exact Hlen].
  - intros id updates s w todo w' Hdesc Hrun. unfold updateTodo in Hrun.
    destruct (bad_id id); [discriminate|].
    destruct (negb (truthy updates) || negb (is_object_type updates));
      [discriminate|].
    apply bind_ok_inv in Hrun as (todos & w1 & Hall & Hrun).
    destruct (findIndex _ todos) as [i|]; [|discriminate].
    destruct (todos !! i) as [todo0|] eqn:Hget; [|discriminate].
    rewrite Hdesc in Hrun. cbn [is_undefined negb] in Hrun.
    apply bind_ok_inv in Hrun as (todo1 & w2 & Hupd & Hrun).
    apply bind_ok_inv in Hrun as (todo2 & w3 & Hset & Hrun).
    apply bind_ok_inv in Hrun as ([] & w4 & Hsave & Hrun).
    injection Hrun as -> ->.
    apply updateDescription_ok_inv in Hupd as (s' & [= <-] & Hd1 & Hok1).
    assert (Todo.description todo = Todo.description todo1) as Hsame.
    { destruct (negb (is_undefined (get updates "completed"))).
      - now apply setCompleted_ok_inv in Hset.
      - now injection Hset as -> _. }
    assert (description_ok todo) as Hok.
    { unfold description_ok. now rewrite Hsame. }
    split; [now rewrite Hsame|]. split; [cbn; now rewrite Hsame, Hd1|].
    exists todos, i, w3. split; [now apply lookup_lt_Some in Hget|].
    split; [exact Hsave|].
    apply Forall_insert; [now apply getAllTodos_descriptions in Hall|exact Hok].
  - intros w todos w' Hall. apply getAllTodos_descriptions in Hall.
    eapply Forall_impl; [exact Hall|]. now intros todo [Ht _].
Qed.

Section Laws.
Context `{!DateLaws}.

Lemma stored_valid todo :
  valid_todo todo →
  ∃ i d c t1 t2,
    todo = {| Todo.id := VStr i; Todo.description := d; Todo.completed := c;
              Todo.createdAt := Some t1; Todo.updatedAt := Some t2 |} ∧
    i ≠ EmptyString ∧ Str.trim d = d ∧ 1 ≤ String.length d ≤ 500 ∧
    valid_time t1 ∧ valid_time t2 ∧
    stored todo =
      VObj [("id", VStr i); ("description", VStr d); ("completed", VBool c);
            ("createdAt", VStr (Date_toISOString t1));
            ("updatedAt", VStr (Date_toISOString t2))].
Proof.
  destruct todo as [i d c ca ua].
  intros [(i' & Hi & Hne) [Htrim Hlen] (t1 & H1 & V1) (t2 & H2 & V2)].
  cbn in *. subst. exists i', d, c, t1, t2.
  split; [reflexivity|]. split; [exact Hne|]. split; [exact Htrim|].
  split; [exact Hlen|]. split; [exact V1|]. split; [exact V2|reflexivity].
Qed.

(** [fromJSON] rebuilds a valid record from what was persisted for it. *)
Lemma fromJSON_stored todo w :
  valid_todo todo → Todo.fromJSON (stored todo) w = (Ok todo, advance 2 w).
Proof.
  intros Hv.
  destruct (stored_valid todo Hv)
    as (i & d & c & t1 & t2 & -> & Hne & Htrim & Hlen & V1 & V2 & ->).
  rewrite fromJSON_run, new_run. cbn [get assoc String.eqb Ascii.eqb Bool.eqb from_option].
  unfold id. rewrite TodoFacts.validate_ok by (rewrite Htrim; lia).
  cbn [truthy].
  assert (negb (String.eqb i EmptyString) = true) as ->.
  { destruct (String.eqb_spec i EmptyString); [contradiction|reflexivity]. }
  assert (∀ t, valid_time t → negb (String.eqb (Date_toISOString t) EmptyString) = true) as Hiso.
  { intros t Vt. destruct (String.eqb_spec (Date_toISOString t) EmptyString) as [E|_];
      [now apply iso_nonempty in E|reflexivity]. }
  rewrite !Hiso, !iso_roundtrip, Htrim by assumption.
  unfold tick, advance. cbn. reflexivity.
Qed.

Lemma mapM_fromJSON_stored todos : ∀ w,
  Forall valid_todo todos →
  mapM Todo.fromJSON (map stored todos) w = (Ok todos, advance (2 * length todos) w).
Proof.
  induction todos as [|todo todos IH]; intros w HF.
  - cbn. now rewrite advance_0.
  - apply Forall_cons_1 in HF as [Hv HF]. cbn [map mapM].
    rewrite (run_bind _ _ _ _ _ (fromJSON_stored todo w Hv)).
    rewrite (run_bind _ _ _ _ _ (IH _ HF)). cbn [ret]. f_equal.
    unfold advance. cbn. f_equal. lia.
Qed.

(** [getAllTodos] on a store that holds the persisted form of valid
    records returns those records. *)
Lemma getAllTodos_stored (st : Storage) w w1 todos :
  loadTodos st w = (Ok (VArr (map stored todos)), w1) →
  Forall valid_todo todos →
  getAllTodos st w = (Ok todos, advance (2 * length todos) w1).
Proof.
  intros Hload HF. unfold getAllTodos. apply run_try_ok.
  rewrite (run_bind _ _ _ _ _ Hload). now apply mapM_fromJSON_stored.
Qed.

(** *** Looking a record up by its id *)

Lemma strict_eq_str v id : strict_eq v (VStr id) = true ↔ v = VStr id.
Proof.
  destruct v; cbn; try (split; [discriminate|discriminate]).
  rewrite String.eqb_eq. split; [now intros ->|now intros [= ->]].
Qed.

Lemma findIndex_none (todos : list Todo.t) id :
  VStr id ∉ map Todo.id todos →
  findIndex (fun todo => strict_eq (Todo.id todo) (VStr id)) todos = None.
Proof.
  induction todos as [|t todos IH]; intros Hnot; [reflexivity|].
  cbn [map] in Hnot. apply not_elem_of_cons in Hnot as [Hne Hnot].
  cbn [findIndex].
  destruct (strict_eq (Todo.id t) (VStr id)) eqn:E.
  - apply strict_eq_str in E. congruence.
  - now rewrite IH.
Qed.

(** With distinct ids, [findIndex] finds the record that carries the id. *)
Lemma findIndex_nodup (todos : list Todo.t) : ∀ i todo id,
  NoDup (map Todo.id todos) →
  todos !! i = Some todo → Todo.id todo = VStr id →
  findIndex (fun todo => strict_eq (Todo.id todo) (VStr id)) todos = Some i.
Proof.
  induction todos as [|t todos IH]; intros i todo id Hnd Hget Hid; [discriminate|].
  cbn [map] in Hnd. apply NoDup_cons in Hnd as [Hnot Hnd].
  destruct i as [|i]; cbn in Hget.
  - injection Hget as ->. cbn [findIndex].
    now rewrite (proj2 (strict_eq_str _ _) Hid).
  - cbn [findIndex].
    destruct (strict_eq (Todo.id t) (VStr id)) eqn:E.
    + apply strict_eq_str in E. exfalso. apply Hnot. rewrite E, <- Hid.
      apply (list_elem_of_fmap_2 Todo.id). eapply list_elem_of_lookup_2; eauto.
    + now rewrite (IH i todo id Hnd Hget Hid).
Qed.

(** With distinct ids, the id of a deleted record is gone. *)
Lemma delete_id_gone (todos : list Todo.t) : ∀ i todo id,
  NoDup (map Todo.id todos) →
  todos !! i = Some todo → Todo.id todo = VStr id →
  VStr id ∉ map Todo.id (delete i todos).
Proof.
  induction todos as [|t todos IH]; intros i todo id Hnd Hget Hid; [discriminate|].
  cbn [map] in Hnd. apply NoDup_cons in Hnd as [Hnot Hnd].
  destruct i as [|i]; cbn in Hget.
  - injection Hget as ->. cbn. now rewrite <- Hid.
  - cbn. apply not_elem_of_cons. split; [|now apply (IH i todo id)].
    intros E. apply Hnot. rewrite <- E, <- Hid.
    apply (list_elem_of_fmap_2 Todo.id). eapply list_elem_of_lookup_2; eauto.
Qed.

Lemma map_delete {A B} (f : A → B) l i : map f (delete i l) = delete i (map f l).
Proof. exact (list_fmap_delete f l i). Qed.

Lemma map_insert {A B} (f : A → B) l i x :
  map f (<[i := x]> l) = <[i := f x]> (map f l).
Proof. exact (list_fmap_insert f l i x). Qed.

(** What the service hands to the store is printable. *)
Lemma printable_toJSON todo :
  (∃ i, Todo.id todo = VStr i) → printable (Todo.toJSON todo).
Proof.
  intros [i Hi]. unfold Todo.toJSON. rewrite Hi. constructor.
  - apply (bool_decide_unpack _). reflexivity.
  - repeat constructor.
Qed.

Lemma norm_collection todos :
  norm (VArr (map Todo.toJSON todos)) = VArr (map stored todos).
Proof. cbn [norm]. f_equal. now rewrite map_map. Qed.

Section FileStore.
Variable ss : StorageService.t.

Lemma getAllTodos_file w text todos :
  faults w = [] →
  files w !! StorageService.filePath ss = Some text →
  JSON.parse text = Some (VArr (map stored todos)) →
  Forall valid_todo todos →
  getAllTodos (fileStorage ss) w = (Ok todos, advance (2 * length todos) w).
Proof.
  intros Hq Hfile Hparse HF. apply getAllTodos_stored; [|exact HF].
  now apply (FsFacts.loadTodos_ok ss w text).
Qed.

(** Saving a collection of valid records on a healthy disk: the final
    location then holds a text that parses to their persisted forms. *)
Lemma saveTodos_file w todos :
  faults w = [] →
  (∀ t, t ∈ todos → ∃ i, Todo.id t = VStr i) →
  ∃ w' text',
    saveTodos (fileStorage ss) (VArr (map Todo.toJSON todos)) w = (Ok tt, w') ∧
    faults w' = [] ∧ clock w' = clock w ∧ ticks w' = ticks w ∧
    files w' !! StorageService.filePath ss = Some text' ∧
    JSON.parse text' = Some (VArr (map stored todos)).
Proof.
  intros Hq Hids. do 2 eexists.
  split; [now apply FsFacts.saveTodos_ok|].
  split; [exact Hq|]. split; [reflexivity|]. split; [reflexivity|].
  split; [apply lookup_insert_eq|].
  rewrite <- norm_collection. apply JsonFacts.parse_stringify; [|reflexivity].
  constructor. apply Forall_forall. intros v Hv.
  apply (list_elem_of_fmap_1 Todo.toJSON) in Hv as (t & -> & Ht).
  apply printable_toJSON. auto.
Qed.

(** The round trip at the level of the service: what was saved for valid
    records is what [getAllTodos] returns. *)
Lemma saveTodos_then_getAllTodos w todos :
  faults w = [] →
  Forall valid_todo todos →
  ∃ w1,
    saveTodos (fileStorage ss) (VArr (map Todo.toJSON todos)) w = (Ok tt, w1) ∧
    fst (getAllTodos (fileStorage ss) w1) = Ok todos.
Proof.
  intros Hq HF.
  destruct (saveTodos_file w todos) as (w1 & text1 & Hsave & Hq1 & _ & _ & Hfile & Hparse).
  - exact Hq.
  - intros t Ht. apply list_elem_of_lookup_1 in Ht as [j Hj].
    destruct (Forall_lookup_1 _ _ _ _ HF Hj) as [(i0 & Hi0 & _) _ _ _]. eauto.
  - exists w1. split; [exact Hsave|].
    now rewrite (getAllTodos_file w1 text1 todos).
Qed.

(** C6.  For a store that holds valid records with distinct ids, on a
    healthy disk, [updateTodo(id, {completed: true})] returns the record
    with that id changed in [completed] and [updatedAt] only (its id,
    description and [createdAt] are as before), and the collection that is
    persisted afterwards is the one persisted before with that one record
    replaced: every other record is the same, and in the replaced record
    every field but [completed] and [updatedAt] is the same. *)
Theorem updateTodo_completed_frame (w : World) (text : string)
    (todos : list Todo.t) (i : nat) (todo : Todo.t) (id : string) :
  faults w = [] →
  files w !! StorageService.filePath ss = Some text →
  JSON.parse text = Some (VArr (map stored todos)) →
  Forall valid_todo todos →
  NoDup (map Todo.id todos) →
  todos !! i = Some todo →
  Todo.id todo = VStr id →
  ∃ todo' w' text',
    updateTodo (fileStorage ss) (VStr id) (VObj [("completed", VBool true)]) w
      = (Ok todo', w') ∧
    Todo.completed todo' = true ∧
    Todo.updatedAt todo' = Some (clock w (2 * length todos + ticks w)) ∧
    Todo.id todo' = Todo.id todo ∧
    Todo.description todo' = Todo.description todo ∧
    Todo.createdAt todo' = Todo.createdAt todo ∧
    files w' !! StorageService.filePath ss = Some text' ∧
    JSON.parse text' = Some (VArr (<[i := stored todo']> (map stored todos))) ∧
    (∀ j, j ≠ i →
       <[i := stored todo']> (map stored todos) !! j = map stored todos !! j) ∧
    (∀ k, k ≠ "completed"%string → k ≠ "updatedAt"%string →
       get (stored todo') k = get (stored todo) k).
Proof.
  intros Hq Hfile Hparse HF Hnd Hget Hid.
  pose proof (Forall_lookup_1 _ _ _ _ HF Hget) as Hv.
  destruct Hv as [(id' & Hid' & Hne) _ _ _].
  assert (id' = id) as -> by congruence.
  set (w1 := advance (2 * length todos) w).
  set (todo' := {| Todo.id := Todo.id todo;
                   Todo.description := Todo.description todo;
                   Todo.completed := true;
                   Todo.createdAt := Todo.createdAt todo;
                   Todo.updatedAt := Some (clock w1 (ticks w1)) |}).
  destruct (saveTodos_file (tick w1) (<[i := todo']> todos))
    as (w' & text' & Hsave & _ & _ & _ & Hfile' & Hparse').
  { exact Hq. }
  { intros t Ht. apply list_elem_of_lookup_1 in Ht as [j Hj].
    apply list_lookup_insert_Some in Hj as [(_ & <- & _)|(_ & Hj)].
    - exists id. exact Hid.
    - destruct (Forall_lookup_1 _ _ _ _ HF Hj) as [(i0 & Hi0 & _) _ _ _]. eauto. }
  exists todo', w', text'.
  split.
  { rewrite (updateTodo_found (fileStorage ss) (VStr id) _ w todos w1 i todo).
    - rewrite (run_bind _ _ _ todo' (tick w1)) by reflexivity.
      rewrite (run_bind _ _ _ _ _ Hsave). reflexivity.
    - unfold bad_id. cbn.
      destruct (String.eqb_spec id EmptyString); [contradiction|reflexivity].
    - reflexivity.
    - reflexivity.
    - now apply (getAllTodos_file w text).
    - now apply (findIndex_nodup todos i todo id).
    - exact Hget. }
  split; [reflexivity|]. split; [reflexivity|]. split; [reflexivity|].
  split; [reflexivity|]. split; [reflexivity|]. split; [exact Hfile'|].
  split; [now rewrite Hparse', map_insert|].
  split; [intros j Hj; now apply list_lookup_insert_ne|].
  intros k Hk1 Hk2. unfold stored, Todo.toJSON. cbn [Todo.id Todo.description
    Todo.completed Todo.createdAt Todo.updatedAt todo'].
  rewrite Hid. cbn [norm get assoc from_option].
  apply String.eqb_neq in Hk1, Hk2. rewrite Hk1, Hk2. reflexivity.
Qed.

(** C7.  For a store that holds valid records with distinct ids, on a
    healthy disk, the first [deleteTodo(id)] of an id in the collection
    succeeds and the collection persisted afterwards is the one persisted
    before without that record; a second [deleteTodo] with the same id
    fails with the not-found error and leaves the files as they are. *)
Theorem deleteTodo_twice (w : World) (text : string)
    (todos : list Todo.t) (i : nat) (todo : Todo.t) (id : string) :
  faults w = [] →
  files w !! StorageService.filePath ss = Some text →
  JSON.parse text = Some (VArr (map stored todos)) →
  Forall valid_todo todos →
  NoDup (map Todo.id todos) →
  todos !! i = Some todo →
  Todo.id todo = VStr id →
  ∃ w1 text1 w2,
    deleteTodo (fileStorage ss) (VStr id) w = (Ok true, w1) ∧
    files w1 !! StorageService.filePath ss = Some text1 ∧
    JSON.parse text1 = Some (VArr (delete i (map stored todos))) ∧
    deleteTodo (fileStorage ss) (VStr id) w1
      = (Throw (newError "Todo not found"), w2) ∧
    kind_of (newError "Todo not found") = NotFoundError ∧
    files w2 = files w1.
Proof.
  intros Hq Hfile Hparse HF Hnd Hget Hid.
  pose proof (Forall_lookup_1 _ _ _ _ HF Hget) as Hv.
  destruct Hv as [(id' & Hid' & Hne) _ _ _].
  assert (id' = id) as -> by congruence.
  assert (bad_id (VStr id) = false) as Hbad.
  { unfold bad_id. cbn.
    destruct (String.eqb_spec id EmptyString); [contradiction|reflexivity]. }
  set (w0 := advance (2 * length todos) w).
  destruct (saveTodos_file w0 (delete i todos))
    as (w1 & text1 & Hsave & Hq1 & _ & _ & Hfile1 & Hparse1).
  { exact Hq. }
  { intros t Ht. apply list_elem_of_delete_inv in Ht.
    apply list_elem_of_lookup_1 in Ht as [j' Hj'].
    destruct (Forall_lookup_1 _ _ _ _ HF Hj') as [(i0 & Hi0 & _) _ _ _]. eauto. }
  exists w1, text1, (advance (2 * length (delete i todos)) w1).
  split.
  { unfold deleteTodo. rewrite Hbad.
    rewrite (run_bind _ _ _ _ _ (getAllTodos_file w text todos Hq Hfile Hparse HF)).
    rewrite (findIndex_nodup todos i todo id Hnd Hget Hid).
    rewrite (run_bind _ _ _ _ _ Hsave). reflexivity. }
  split; [exact Hfile1|]. split; [now rewrite Hparse1, map_delete|].
  split; [|split; reflexivity].
  unfold deleteTodo. rewrite Hbad.
  rewrite (run_bind _ _ _ _ _
             (getAllTodos_file w1 text1 (delete i todos) Hq1 Hfile1 Hparse1
                (Forall_delete _ _ _ HF))).
  rewrite findIndex_none; [reflexivity|].
  now apply (delete_id_gone todos i todo id).
Qed.

Lemma applyUpdates_description todo updates s w :
  get updates "description" = VStr s →
  1 ≤ String.length (Str.trim s) ≤ 500 →
  (get updates "completed" = VUndefined ∨ ∃ b, get updates "completed" = VBool b) →
  ∃ todo' w',
    applyUpdates todo updates w = (Ok todo', w') ∧
    Todo.description todo' = Str.trim s ∧ Todo.id todo' = Todo.id todo ∧
    files w' = files w ∧ faults w' = faults w.
Proof.
  intros Hd Hlen Hc. unfold applyUpdates. rewrite Hd. cbn [is_undefined negb].
  unfold bind, Todo.updateDescription, Todo.lift, bind.
  rewrite (TodoFacts.validate_ok s Hlen). cbn [Date_now ret].
  destruct Hc as [-> | [b ->]]; cbn; do 2 eexists; repeat split.
Qed.

Lemma stored_description todo :
  get (stored todo) "description" = VStr (Todo.description todo).
Proof. unfold stored, Todo.toJSON. now destruct (Todo.id todo). Qed.

(** C9.  On a healthy disk, for a store of valid records with distinct
    ids, every string whose trimmed length is 1 to 500 is accepted by
    [createTodo] and by a description update of any stored record
    (through [updateTodo], with or without a boolean [completed]), and
    the record that is returned and the record that is persisted have
    the trimmed input as description, not the input.  Whatever the store,
    a description that [createTodo] or [updateTodo] accepted is the
    trimmed input, in the record returned and in the collection handed
    to the store, and every description that the service returns or
    saves is its own trimmed form, of length 1 to 500. *)
Theorem descriptions_are_trimmed (w : World) (text : string)
    (todos : list Todo.t) (s : string) :
  faults w = [] →
  files w !! StorageService.filePath ss = Some text →
  JSON.parse text = Some (VArr (map stored todos)) →
  Forall valid_todo todos →
  NoDup (map Todo.id todos) →
  1 ≤ String.length (Str.trim s) ≤ 500 →
  (∃ todo w' text',
     createTodo (fileStorage ss) (VStr s) w = (Ok todo, w') ∧
     Todo.description todo = Str.trim s ∧
     files w' !! StorageService.filePath ss = Some text' ∧
     JSON.parse text' = Some (VArr (map stored todos ++ [stored todo])) ∧
     get (stored todo) "description" = VStr (Str.trim s)) ∧
  (∀ i todo id updates,
     todos !! i = Some todo → Todo.id todo = VStr id →
     is_plain_object updates →
     get updates "description" = VStr s →
     (get updates "completed" = VUndefined ∨
      ∃ b, get updates "completed" = VBool b) →
     ∃ todo' w' text',
       updateTodo (fileStorage ss) (VStr id) updates w = (Ok todo', w') ∧
       Todo.description todo' = Str.trim s ∧
       files w' !! StorageService.filePath ss = Some text' ∧
       JSON.parse text' = Some (VArr (<[i := stored todo']> (map stored todos))) ∧
       get (stored todo') "description" = VStr (Str.trim s)) ∧
  (∀ st : Storage,
     (∀ s w todo w',
        createTodo st (VStr s) w = (Ok todo, w') →
        Todo.description todo = Str.trim s ∧
        get (Todo.toJSON todo) "description" = VStr (Str.trim s) ∧
        ∃ todos w1,
          saveTodos st (VArr (map Todo.toJSON (todos ++ [todo]))) w1 = (Ok tt, w') ∧
          Forall description_ok (todos ++ [todo])) ∧
     (∀ id updates s w todo w',
        get updates "description" = VStr s →
        updateTodo st id updates w = (Ok todo, w') →
        Todo.description todo = Str.trim s ∧
        get (Todo.toJSON todo) "description" = VStr (Str.trim s) ∧
        ∃ todos i w1,
          i < length todos ∧
          saveTodos st (VArr (map Todo.toJSON (<[i := todo]> todos))) w1 = (Ok tt, w') ∧
          Forall description_ok (<[i := todo]> todos)) ∧
     (∀ w todos w',
        getAllTodos st w = (Ok todos, w') →
        Forall (fun todo => Str.trim (Todo.description todo) = Todo.description todo)
               todos)).
Proof.
  intros Hq Hfile Hparse HF Hnd Hlen.
  assert (∀ l : list Todo.t, Forall valid_todo l →
            ∀ t, t ∈ l → ∃ i, Todo.id t = VStr i) as Hids.
  { intros l Hl t Ht. rewrite Forall_forall in Hl.
    destruct (Hl t Ht) as [(i0 & Hi0 & _) _ _ _]. eauto. }
  split; [|split; [|exact trimmed_when_accepted]].
  - set (todo := {| Todo.id := VStr (uuids w (drawn w));
                    Todo.description := Str.trim s;
                    Todo.completed := false;
                    Todo.createdAt := Some (clock w (ticks w));
                    Todo.updatedAt := Some (clock w (S (ticks w))) |}).
    set (w1 := tick (tick (draw w))).
    assert (Todo.new (VStr s) VNull w = (Ok todo, w1)) as Hnew.
    { rewrite new_run. cbv zeta. cbn [truthy].
      now rewrite (TodoFacts.validate_ok s Hlen). }
    pose proof (getAllTodos_file w1 text todos Hq Hfile Hparse HF) as Hall.
    destruct (saveTodos_file (advance (2 * length todos) w1) (todos ++ [todo]))
      as (w' & text' & Hsave & _ & _ & _ & Hfile' & Hparse').
    { exact Hq. }
    { intros t Ht. apply elem_of_app in Ht as [Ht|Ht].
      - now apply (Hids todos).
      - apply list_elem_of_singleton in Ht as ->. cbn. eauto. }
    exists todo, w', text'.
    split; [|split; [reflexivity|split; [exact Hfile'|split]]].
    + unfold createTodo. apply run_try_ok.
      rewrite (run_bind _ _ _ _ _ Hnew).
      rewrite (run_bind _ _ _ _ _ Hall).
      rewrite (run_bind _ _ _ _ _ Hsave). reflexivity.
    + rewrite Hparse'. now rewrite map_app.
    + apply stored_description.
  - intros i todo id updates Hget Hid [ps ->] Hdesc Hcompl.
    destruct (Forall_lookup_1 _ _ _ _ HF Hget) as [(id' & Hid' & Hne) _ _ _].
    assert (id' = id) as -> by congruence.
    set (w1 := advance (2 * length todos) w).
    destruct (applyUpdates_description todo (VObj ps) s w1 Hdesc Hlen Hcompl)
      as (todo' & w2 & Happ & Hd' & Hsame & _ & Hq2).
    destruct (saveTodos_file w2 (<[i := todo']> todos))
      as (w' & text' & Hsave & _ & _ & _ & Hfile' & Hparse').
    { rewrite Hq2. exact Hq. }
    { intros t Ht. apply list_elem_of_lookup_1 in Ht as [j Hj].
      apply list_lookup_insert_Some in Hj as [(_ & <- & _)|(_ & Hj)].
      - exists id. congruence.
      - apply (Hids todos HF). eapply list_elem_of_lookup_2, Hj. }
    exists todo', w', text'.
    split; [|split; [exact Hd'|split; [exact Hfile'|split]]].
    + rewrite (updateTodo_found (fileStorage ss) (VStr id) _ w todos w1 i todo).
      * rewrite (run_bind _ _ _ _ _ Happ).
        rewrite (run_bind _ _ _ _ _ Hsave). reflexivity.
      * unfold bad_id. cbn.
        destruct (String.eqb_spec id EmptyString); [contradiction|reflexivity].
      * reflexivity.
      * reflexivity.
      * now apply (getAllTodos_file w text).
      * now apply (findIndex_nodup todos i todo id).
      * exact Hget.
    + now rewrite Hparse', map_insert.
    + rewrite stored_description. now rewrite Hd'.
Qed.

End FileStore.

(** C8.  [createTodo] on the empty string raises the validation error of
    an empty description (under the prefix of [createTodo]) before the
    store is touched: the only effect is that one uuid was drawn, so the
    files are as before and nothing was appended.  [getAllTodos]
    afterwards returns what it returned before: the records of the stored
    collection, and so the empty collection when the store holds the
    empty collection. *)
Theorem createTodo_empty_description (st : Storage) (w : World) :
  createTodo st (VStr EmptyString) w =
    (Throw (newError "Failed to create todo: Description cannot be empty"),
     draw w) ∧
  kind_of (newError "Failed to create todo: Description cannot be empty")
    = ValidationError ∧
  files (draw w) = files w ∧
  faults (draw w) = faults w ∧
  ∀ ss text todos,
    faults w = [] →
    files w !! StorageService.filePath ss = Some text →
    JSON.parse text = Some (VArr (map stored todos)) →
    Forall valid_todo todos →
    fst (getAllTodos (fileStorage ss) w) = Ok todos ∧
    fst (getAllTodos (fileStorage ss) (draw w)) = Ok todos.
Proof.
  split; [|split; [reflexivity|split; [reflexivity|split; [reflexivity|]]]].
  - unfold createTodo.
    rewrite (run_try_throw _ _ _ (newError "Description cannot be empty") (draw w));
      [reflexivity|].
    apply run_bind_throw. rewrite new_run. reflexivity.
  - intros ss text todos Hq Hfile Hparse HF. split.
    + now rewrite (getAllTodos_file ss w text todos).
    + now rewrite (getAllTodos_file ss (draw w) text todos).
Qed.

End Laws.

End WithRuntime.

Import Examples.

(** The runtime of the examples keeps the laws of dates. *)
Lemma dates_laws : @DateLaws dates.
Proof.
  assert (∀ t, NilZero.int_of_string (JSON.dec t) = Some (Z.to_int t)) as Hdec.
  { intros t. unfold JSON.dec. apply NilZero.isi; intros E;
      pose proof (f_equal Z.of_int E) as E'; rewrite DecimalZ.of_to in E';
      cbn in E'; subst t; vm_compute in E; discriminate E. }
  split.
  - intros t _. discriminate.
  - intros t _.
    change (Z.of_int <$> NilZero.int_of_string (JSON.dec t) = Some t).
    rewrite Hdec. cbn. now rewrite DecimalZ.of_to.
Qed.

Lemma first_todo_valid : valid_todo first_todo.
Proof.
  split.
  - exists "todo-1"%string. split; [reflexivity|discriminate].
  - split; [reflexivity|]. vm_compute. lia.
  - exists 5%Z. split; [reflexivity|]. unfold valid_time. lia.
  - exists 7%Z. split; [reflexivity|]. unfold valid_time. lia.
Qed.

Lemma updateTodo_completed_frame_witness :
  ∃ todo' w' text',
    updateTodo (fileStorage store) (VStr "todo-1")
      (VObj [("completed", VBool true)])
      (world {[ "data/todos.json" := one_todo ]} []) = (Ok todo', w') ∧
    Todo.completed todo' = true ∧
    Todo.updatedAt todo' =
      Some (clock (world {[ "data/todos.json" := one_todo ]} [])
              (2 * length [first_todo] +
               ticks (world {[ "data/todos.json" := one_todo ]} []))) ∧
    Todo.id todo' = Todo.id first_todo ∧
    Todo.description todo' = Todo.description first_todo ∧
    Todo.createdAt todo' = Todo.createdAt first_todo ∧
    files w' !! StorageService.filePath store = Some text' ∧
    JSON.parse text' =
      Some (VArr (<[0 := stored todo']> (map stored [first_todo]))) ∧
    (∀ j, j ≠ 0 →
       <[0 := stored todo']> (map stored [first_todo]) !! j
         = map stored [first_todo] !! j) ∧
    (∀ k, k ≠ "completed"%string → k ≠ "updatedAt"%string →
       get (stored todo') k = get (stored first_todo) k).
Proof.
  apply (updateTodo_completed_frame (H0 := dates_laws) store
           (world {[ "data/todos.json" := one_todo ]} []) one_todo
           [first_todo] 0 first_todo "todo-1").
  - reflexivity.
  - reflexivity.
  - vm_compute. reflexivity.
  - constructor; [exact first_todo_valid|constructor].
  - apply NoDup_singleton.
  - reflexivity.
  - reflexivity.
Defined.

Lemma deleteTodo_twice_witness :
  ∃ w1 text1 w2,
    deleteTodo (fileStorage store) (VStr "todo-1")
      (world {[ "data/todos.json" := one_todo ]} []) = (Ok true, w1) ∧
    files w1 !! StorageService.filePath store = Some text1 ∧
    JSON.parse text1 = Some (VArr (delete 0 (map stored [first_todo]))) ∧
    deleteTodo (fileStorage store) (VStr "todo-1") w1
      = (Throw (newError "Todo not found"), w2) ∧
    kind_of (newError "Todo not found") = NotFoundError ∧
    files w2 = files w1.
Proof.
  apply (deleteTodo_twice (H0 := dates_laws) store
           (world {[ "data/todos.json" := one_todo ]} []) one_todo
           [first_todo] 0 first_todo "todo-1").
  - reflexivity.
  - reflexivity.
  - vm_compute. reflexivity.
  - constructor; [exact first_todo_valid|constructor].
  - apply NoDup_singleton.
  - reflexivity.
  - reflexivity.
Defined.

Lemma descriptions_are_trimmed_witness :
  let w := world {[ "data/todos.json" := one_todo ]} [] in
  (∃ todo w' text',
     createTodo (fileStorage store) (VStr "  Buy milk ") w = (Ok todo, w') ∧
     Todo.description todo = "Buy milk"%string ∧
     files w' !! StorageService.filePath store = Some text' ∧
     JSON.parse text' = Some (VArr (map stored [first_todo] ++ [stored todo])) ∧
     get (stored todo) "description" = VStr "Buy milk") ∧
  (∃ todo' w' text',
     updateTodo (fileStorage store) (VStr "todo-1")
       (VObj [("description", VStr "  Buy milk ")]) w = (Ok todo', w') ∧
     Todo.description todo' = "Buy milk"%string ∧
     files w' !! StorageService.filePath store = Some text' ∧
     JSON.parse text' =
       Some (VArr (<[0 := stored todo']> (map stored [first_todo]))) ∧
     get (stored todo') "description" = VStr "Buy milk").
Proof.
  intros w.
  destruct (descriptions_are_trimmed (H0 := dates_laws) store w one_todo
              [first_todo] "  Buy milk ") as (Hcreate & Hupdate & _).
  - reflexivity.
  - reflexivity.
  - vm_compute. reflexivity.
  - constructor; [exact first_todo_valid|constructor].
  - apply NoDup_singleton.
  - vm_compute. lia.
  - split; [exact Hcreate|].
    apply (Hupdate 0 first_todo "todo-1").
    + reflexivity.
    + reflexivity.
    + eexists. reflexivity.
    + reflexivity.
    + left. reflexivity.
Defined.

Lemma getAllTodos_revalidates_witness :
  ∃ e w' m,
    getAllTodos (fileStorage store)
      (world {[ "data/todos.json" := blank_description ]} []) = (Throw e, w') ∧
    kind_of e = ValidationError ∧
    message e = "Failed to retrieve todos: " +:+ m ∧
    (m = "Description must be a string" ∨
     m = "Description cannot be empty" ∨
     m = "Description cannot exceed 500 characters").
Proof.
  apply (getAllTodos_revalidates (fileStorage store)
           (world {[ "data/todos.json" := blank_description ]} [])
           (world {[ "data/todos.json" := blank_description ]} [])
           [VObj [("id", VStr "todo-1"); ("description", VStr "   ");
                  ("completed", VBool false)]]).
  - vm_compute. reflexivity.
  - repeat constructor. eexists. reflexivity.
  - apply Exists_cons_hd. apply (bad_blank _ "   "); reflexivity.
Defined.

Lemma createTodo_empty_description_witness :
  fst (getAllTodos (fileStorage store)
         (world {[ "data/todos.json" := one_todo ]} [])) = Ok [first_todo] ∧
  fst (getAllTodos (fileStorage store)
         (draw (world {[ "data/todos.json" := one_todo ]} []))) = Ok [first_todo].
Proof.
  apply (createTodo_empty_description (H0 := dates_laws) (fileStorage store)
           (world {[ "data/todos.json" := one_todo ]} [])) with (text := one_todo).
  - reflexivity.
  - reflexivity.
  - vm_compute. reflexivity.
  - constructor; [exact first_todo_valid|constructor].
Defined.

Lemma updateTodo_rejects_non_object_witness :
  let w := world {[ "data/todos.json" := one_todo ]} [] in
  (∃ e, updateTodo (fileStorage store) (VStr "todo-1") VNull w = (Throw e, w) ∧
        kind_of e = InvalidArgumentError ∧
        (e = newError "Valid todo ID is required" ∨
         e = newError "Updates object is required")) ∧
  updateTodo (fileStorage store) (VStr "nonexistent") (VObj []) w =
    (Throw (newError "Todo not found"), advance 2 w) ∧
  updateTodo (fileStorage store) (VStr "todo-1") (VObj [("title", VStr "x")]) w =
    (Ok first_todo,
     with_files {[ "data/todos.json" :=
                     JSON.ser 0 (VArr [Todo.toJSON first_todo]) EmptyString ]}
       (advance 2 w)).
Proof.
  intros w. split; [|split].
  - apply (proj1 (updateTodo_rejects_non_object (fileStorage store)
                    (VStr "todo-1") VNull w)).
    left. reflexivity.
  - apply (proj2 (proj2 (updateTodo_rejects_non_object (fileStorage store)
                           (VStr "nonexistent") (VObj []) w)
                    eq_refl eq_refl eq_refl eq_refl eq_refl) [first_todo]).
    vm_compute. reflexivity.
  - destruct (proj2 (proj2 (updateTodo_rejects_non_object (fileStorage store)
                              (VStr "todo-1") (VObj [("title", VStr "x")]) w)
                       eq_refl eq_refl eq_refl eq_refl eq_refl)
                [first_todo] (advance 2 w)) as (todo & Hget & Hrun).
    + vm_compute. reflexivity.
    + injection Hget as <-. vm_compute in Hrun. vm_compute. exact Hrun.
Defined.

(** C1 does not hold for an empty mapping: with a valid id of a stored
    record, [updateTodo(id, {})] passes the argument checks, saves the
    collection again (the storage file then holds the collection as
    [saveTodos] prints it) and returns the record. *)
Lemma updateTodo_accepts_empty_updates :
  let w := world {[ "data/todos.json" := one_todo ]} [] in
  updateTodo (fileStorage store) (VStr "todo-1") (VObj []) w =
    (Ok {| Todo.id := VStr "todo-1";
           Todo.description := "Original description";
           Todo.completed := false;
           Todo.createdAt := Some 5%Z;
           Todo.updatedAt := Some 7%Z |},
     with_files {[ "data/todos.json" :=
                     JSON.ser 0 (VArr [Todo.toJSON first_todo]) EmptyString ]}
       (advance 2 w)).
Proof. vm_compute. reflexivity. Qed.

(** C2 does not hold as stated: the error that [getAllTodos] raises when
    the store cannot read the file is not the error the store raised. *)
Lemma getAllTodos_rewraps_store_error :
  ∃ e1 e2,
    fst (loadTodos (fileStorage store) (world ∅ [Some EACCES])) = Throw e1 ∧
    fst (getAllTodos (fileStorage store) (world ∅ [Some EACCES])) = Throw e2 ∧
    message e1 = "Failed to load todos: EACCES: permission denied" ∧
    message e2 =
      "Failed to retrieve todos: Failed to load todos: EACCES: permission denied" ∧
    e1 ≠ e2.
Proof.
  do 2 eexists. repeat apply conj; try (vm_compute; reflexivity).
  vm_compute. discriminate.
Qed.

Lemma store_failures_propagate_witness :
  getAllTodos (fileStorage store) (world ∅ [Some EACCES]) =
    (Throw (newError ("Failed to retrieve todos: " +:+
                      "Failed to load todos: EACCES: permission denied")),
     world ∅ []).
Proof.
  apply (proj1 (proj1 (store_failures_propagate (fileStorage store))
                  (world ∅ [Some EACCES])
                  (newError "Failed to load todos: EACCES: permission denied")
                  (world ∅ []) eq_refl)).
Defined.

End ServiceFacts.

(** ** The record store beyond the claims: initialisation, reading, probing *)

Module StoreFacts.
Import FsFacts.

Lemma try_throw_inv {A} (m : M A) (g : Error → Error) w e w' :
  try_catch m (fun e0 => throw (g e0)) w = (Throw e, w') →
  ∃ e0, m w = (Throw e0, w') ∧ e = g e0.
Proof.
  unfold try_catch, throw. destruct (m w) as [[a|e0] w1]; [discriminate|].
  intros [= <- <-]. eauto.
Qed.

Section Store.
Context `{DateRuntime}.
Variable ss : StorageService.t.

Lemma empty_text : JSON.ser 0 (VArr []) EmptyString = "[]"%string.
Proof. reflexivity. Qed.

(** [initializeStorage] with nothing scheduled, by cases on the file. *)
Lemma initializeStorage_present w text :
  faults w = [] →
  files w !! StorageService.filePath ss = Some text →
  StorageService.initializeStorage ss w = (Ok tt, w).
Proof.
  intros Hq Hfile. unfold StorageService.initializeStorage.
  apply run_try_ok. unfold bind. rewrite mkdir_run, Hq. cbn [hd].
  rewrite after_call_quiet by assumption.
  apply run_try_ok. rewrite access_run, Hq, Hfile. cbn [hd].
  now rewrite after_call_quiet.
Qed.

Lemma initializeStorage_absent w :
  faults w = [] →
  files w !! StorageService.filePath ss = None →
  StorageService.initializeStorage ss w =
    (Ok tt,
     with_files (<[StorageService.filePath ss := "[]"%string]>
                   (delete (StorageService.tempFilePath ss) (files w))) w).
Proof.
  intros Hq Hfile. unfold StorageService.initializeStorage.
  apply run_try_ok. unfold bind. rewrite mkdir_run, Hq. cbn [hd].
  rewrite after_call_quiet by assumption.
  erewrite run_try_throw;
    [|rewrite access_run, Hq, Hfile; cbn [hd];
      rewrite after_call_quiet by assumption; reflexivity].
  cbn [code_is fs.ENOENT code String.eqb Ascii.eqb Bool.eqb].
  rewrite saveTodos_ok by assumption. now rewrite empty_text.
Qed.

(** X1.  On a healthy disk [initializeStorage] succeeds; it leaves every
    file as it is when the storage file exists, creates the storage file
    holding the empty collection when it does not, and a second call
    changes nothing. *)
Theorem initializeStorage_idempotent (w : World) :
  faults w = [] →
  ∃ w1,
    StorageService.initializeStorage ss w = (Ok tt, w1) ∧
    (is_Some (files w !! StorageService.filePath ss) → w1 = w) ∧
    (files w !! StorageService.filePath ss = None →
       files w1 !! StorageService.filePath ss = Some "[]"%string) ∧
    StorageService.initializeStorage ss w1 = (Ok tt, w1).
Proof.
  intros Hq. destruct (files w !! StorageService.filePath ss) as [text|] eqn:Hfile.
  - exists w. rewrite (initializeStorage_present w text Hq Hfile).
    split; [reflexivity|]. split; [reflexivity|]. split; [discriminate|reflexivity].
  - eexists. rewrite (initializeStorage_absent w Hq Hfile).
    split; [reflexivity|]. split; [intros [? [=]]|].
    split; [intros _; apply lookup_insert_eq|].
    apply (initializeStorage_present _ "[]"%string); [exact Hq|].
    apply lookup_insert_eq.
Qed.

Lemma initializeStorage_throw_inv w e w' :
  StorageService.initializeStorage ss w = (Throw e, w') →
  ∃ m, e = newError ("Failed to initialize storage: " +:+ m).
Proof.
  unfold StorageService.initializeStorage. intros Hrun.
  apply (try_throw_inv _
           (fun e0 => newError ("Failed to initialize storage: " +:+ message e0)))
    in Hrun as (e0 & _ & ->).
  eauto.
Qed.

(** X2.  Whatever goes wrong inside [initializeStorage], and whatever the
    schedule of faults, the error it raises is a new error whose message
    starts with ["Failed to initialize storage: "]. *)
Theorem initializeStorage_failure_wrapped (w w' : World) (e : Error) :
  StorageService.initializeStorage ss w = (Throw e, w') →
  ∃ m, e = newError ("Failed to initialize storage: " +:+ m) ∧
       kind_of e = StorageInitError.
Proof.
  unfold StorageService.initializeStorage. intros Hrun.
  apply (try_throw_inv _
           (fun e0 => newError ("Failed to initialize storage: " +:+ message e0)))
    in Hrun as (e0 & _ & ->).
  exists (message e0). split; reflexivity.
Qed.

(** X3.  On a healthy disk [loadTodos] on a missing storage file returns
    the empty collection and leaves the storage file behind, holding the
    empty collection: [exists] then answers true and a second [loadTodos]
    reads the empty collection from the file. *)
Theorem loadTodos_missing_file (w : World) :
  faults w = [] →
  files w !! StorageService.filePath ss = None →
  ∃ w1,
    StorageService.loadTodos ss w = (Ok (VArr []), w1) ∧
    files w1 !! StorageService.filePath ss = Some "[]"%string ∧
    StorageService.exists_ ss w1 = (Ok true, w1) ∧
    StorageService.loadTodos ss w1 = (Ok (VArr []), w1).
Proof.
  intros Hq Hfile. eexists. split; [|split; [|split]].
  - unfold StorageService.loadTodos.
    erewrite run_try_throw;
      [|unfold bind; rewrite readFile_run, Hq, Hfile; cbn [hd];
        rewrite after_call_quiet by assumption; reflexivity].
    cbn [code_is fs.ENOENT code String.eqb Ascii.eqb Bool.eqb].
    unfold bind. rewrite (initializeStorage_absent w Hq Hfile). reflexivity.
  - apply lookup_insert_eq.
  - unfold StorageService.exists_. apply run_try_ok. unfold bind.
    rewrite access_run. cbn [faults with_files files]. rewrite Hq. cbn [hd].
    rewrite lookup_insert_eq. rewrite after_call_quiet by exact Hq. reflexivity.
  - apply (loadTodos_ok ss _ "[]"%string); [exact Hq|apply lookup_insert_eq|reflexivity].
Qed.

(** X4.  Every failure of [loadTodos], under any schedule of faults, is a
    new plain error of one of three kinds: the format error, the read
    error (["Failed to load todos: ..."]) or, when the file was missing
    and could not be created, the initialisation error. *)
Theorem loadTodos_failure_kinds (w w' : World) (e : Error) :
  StorageService.loadTodos ss w = (Throw e, w') →
  cls e = ClsError ∧ code e = None ∧
  (kind_of e = StorageFormatError ∨ kind_of e = StorageIOError ∨
   kind_of e = StorageInitError).
Proof.
  unfold StorageService.loadTodos, try_catch.
  destruct (bind (fs.readFile _) _ w) as [[v|e0] w1]; [discriminate|].
  destruct (code_is e0 "ENOENT").
  - unfold bind.
    destruct (StorageService.initializeStorage ss w1) as [[[]|e1] w2] eqn:Hinit;
      [discriminate|].
    intros [= <- <-]. apply initializeStorage_failure_wrapped in Hinit as (m & -> & Hk).
    auto.
  - destruct (instanceofSyntaxError e0); intros [= <- <-]; auto.
Qed.


(** X6.  When the directory step of [saveTodos] is rejected, the error of
    the file system reaches the caller as it is (this step is outside the
    [try], so there is no ["Failed to save todos: "] prefix), and no file
    was written or removed. *)
Theorem saveTodos_directory_rejected (todos : Value) (w : World) (ft : Fault)
    (rest : list (option Fault)) :
  isArray todos = true →
  faults w = Some ft :: rest →
  ∃ w',
    StorageService.saveTodos ss todos w = (Throw (f_error ft), w') ∧
    files w' = files w ∧ faults w' = rest.
Proof.
  intros Harr Hf. unfold StorageService.saveTodos. rewrite Harr. cbn [negb].
  exists (after_call w). split; [|split; [reflexivity|]].
  - apply run_bind_throw. now rewrite mkdir_run, Hf.
  - unfold after_call. cbn. now rewrite Hf.
Qed.

(** X7.  [exists] never raises and never changes a file; when its one
    file-system call is not rejected it tells whether the storage file is
    there, and when the call is rejected it answers false. *)
Theorem exists_total (w : World) :
  ∃ b w',
    StorageService.exists_ ss w = (Ok b, w') ∧
    files w' = files w ∧
    (hd None (faults w) = None →
       b = bool_decide (is_Some (files w !! StorageService.filePath ss))) ∧
    (is_Some (hd None (faults w)) → b = false).
Proof.
  unfold StorageService.exists_, try_catch, bind. rewrite access_run.
  destruct (hd None (faults w)) as [ft|].
  - exists false. eexists. split; [reflexivity|]. split; [reflexivity|].
    split; [discriminate|reflexivity].
  - destruct (files w !! StorageService.filePath ss) as [text|].
    + exists true. eexists. split; [reflexivity|]. split; [reflexivity|].
      split; [reflexivity|intros [? [=]]].
    + exists false. eexists. split; [reflexivity|]. split; [reflexivity|].
      split; [reflexivity|intros [? [=]]].
Qed.

(** X8.  Under every schedule of faults, [saveTodos] leaves at the final
    location either exactly what was there before or the complete text of
    the new collection, and it holds the new text whenever [saveTodos]
    returns: a partial write is never visible at the final location. *)
Theorem saveTodos_all_or_nothing (l : list Value) (w w' : World) (r : Result unit) :
  StorageService.saveTodos ss (VArr l) w = (r, w') →
  (r = Ok tt ∧
   files w' !! StorageService.filePath ss = Some (JSON.ser 0 (VArr l) EmptyString)) ∨
  (is_throw r = true ∧
   files w' !! StorageService.filePath ss = files w !! StorageService.filePath ss).
Proof.
  pose proof (temp_ne_final ss) as Hne.
  unfold StorageService.saveTodos. cbn [isArray negb JSON.stringify].
  unfold bind at 1. rewrite mkdir_run.
  destruct (hd None (faults w)) as [ft|].
  { intros [= <- <-]. right. split; reflexivity. }
  unfold try_catch at 1, bind at 1. rewrite writeFile_run.
  destruct (hd None (faults (after_call w))) as [ft|].
  - unfold bind at 1.
    match goal with
    | |- context [try_catch (fs.unlink _) _ ?w0] =>
        destruct (cleanup_run ss w0) as (w2 & Hrun & Hother & _)
    end.
    rewrite Hrun. intros [= <- <-]. right. split; [reflexivity|].
    rewrite Hother by (intros E; now apply Hne).
    destruct (f_partial ft); cbn; [|reflexivity].
    now rewrite lookup_insert_ne.
  - rewrite rename_run. cbn [with_files faults files].
    destruct (hd None (faults (after_call (after_call w)))) as [ft|].
    + unfold bind at 1.
      match goal with
      | |- context [try_catch (fs.unlink _) _ ?w0] =>
          destruct (cleanup_run ss w0) as (w2 & Hrun & Hother & _)
      end.
      rewrite Hrun. intros [= <- <-]. right. split; [reflexivity|].
      rewrite Hother by (intros E; now apply Hne).
      cbn. now rewrite lookup_insert_ne.
    + rewrite lookup_insert_eq. intros [= <- <-]. left.
      split; [reflexivity|]. cbn. apply lookup_insert_eq.
Qed.

End Store.

Import Examples.

Lemma initializeStorage_idempotent_witness :
  ∃ w1,
    StorageService.initializeStorage store (world ∅ []) = (Ok tt, w1) ∧
    (is_Some (files (world ∅ []) !! StorageService.filePath store) →
       w1 = world ∅ []) ∧
    (files (world ∅ []) !! StorageService.filePath store = None →
       files w1 !! StorageService.filePath store = Some "[]"%string) ∧
    StorageService.initializeStorage store w1 = (Ok tt, w1).
Proof. apply (initializeStorage_idempotent store (world ∅ [])). reflexivity. Defined.

Lemma initializeStorage_failure_wrapped_witness :
  ∃ m,
    newError "Failed to initialize storage: EACCES: permission denied" =
      newError ("Failed to initialize storage: " +:+ m) ∧
    kind_of (newError "Failed to initialize storage: EACCES: permission denied")
      = StorageInitError.
Proof.
  apply (initializeStorage_failure_wrapped store (world ∅ [Some EACCES])
           (snd (StorageService.initializeStorage store (world ∅ [Some EACCES])))).
  vm_compute. reflexivity.
Defined.

Lemma loadTodos_missing_file_witness :
  ∃ w1,
    StorageService.loadTodos store (world ∅ []) = (Ok (VArr []), w1) ∧
    files w1 !! StorageService.filePath store = Some "[]"%string ∧
    StorageService.exists_ store w1 = (Ok true, w1) ∧
    StorageService.loadTodos store w1 = (Ok (VArr []), w1).
Proof. apply (loadTodos_missing_file store (world ∅ [])); reflexivity. Defined.

Lemma loadTodos_failure_kinds_witness :
  let e := newError "Failed to load todos: EACCES: permission denied" in
  cls e = ClsError ∧ code e = None ∧
  (kind_of e = StorageFormatError ∨ kind_of e = StorageIOError ∨
   kind_of e = StorageInitError).
Proof.
  apply (loadTodos_failure_kinds store
           (world {[ "data/todos.json" := one_todo ]} [Some EACCES])
           (snd (StorageService.loadTodos store
                   (world {[ "data/todos.json" := one_todo ]} [Some EACCES])))).
  vm_compute. reflexivity.
Defined.


Lemma saveTodos_directory_rejected_witness :
  ∃ w',
    StorageService.saveTodos store (VArr [])
      (world {[ "data/todos.json" := one_todo ]} [Some EACCES])
      = (Throw (f_error EACCES), w') ∧
    files w' = files (world {[ "data/todos.json" := one_todo ]} [Some EACCES]) ∧
    faults w' = [].
Proof.
  apply (saveTodos_directory_rejected store (VArr [])
           (world {[ "data/todos.json" := one_todo ]} [Some EACCES]) EACCES []);
    reflexivity.
Defined.

Lemma saveTodos_all_or_nothing_witness :
  let w := world {[ "data/todos.json" := one_todo ]} [None; Some (ENOSPC "[")] in
  let out := StorageService.saveTodos store (VArr []) w in
  (fst out = Ok tt ∧
   files (snd out) !! StorageService.filePath store
     = Some (JSON.ser 0 (VArr []) EmptyString)) ∨
  (is_throw (fst out) = true ∧
   files (snd out) !! StorageService.filePath store
     = files w !! StorageService.filePath store).
Proof.
  intros w out.
  apply (saveTodos_all_or_nothing store [] w (snd out) (fst out)).
  apply surjective_pairing.
Defined.

End StoreFacts.

(** ** models/Todo.js beyond the description check *)

Module ModelFacts.
Import Todo.

Lemma length_trimStart s : String.length (Str.trimStart s) ≤ String.length s.
Proof.
  induction s as [|c r IH]; simpl; [lia|].
  destruct (Str.is_js_space c); simpl; lia.
Qed.

Lemma length_trimEnd s : String.length (Str.trimEnd s) ≤ String.length s.
Proof.
  induction s as [|c r IH]; simpl; [lia|].
  destruct (Str.trimEnd r); [destruct (Str.is_js_space c)|]; simpl in *; lia.
Qed.

(** Trimming never makes a string longer. *)
Lemma length_trim s : String.length (Str.trim s) ≤ String.length s.
Proof.
  unfold Str.trim. pose proof (length_trimEnd (Str.trimStart s)).
  pose proof (length_trimStart s). lia.
Qed.

Lemma truthy_nonempty s : truthy (VStr s) = true ↔ s ≠ EmptyString.
Proof.
  cbn [truthy]. destruct (String.eqb_spec s EmptyString); cbn; split;
    (congruence || discriminate || auto).
Qed.

(** X9.  A description that [validateDescription] returned passes
    [validateDescription] again and comes back unchanged: the stored
    form of a description is a fixed point of the check. *)
Theorem validateDescription_stable (v : Value) (d : string) :
  validateDescription v = Ok d → validateDescription (VStr d) = Ok d.
Proof.
  intros Hv. apply TodoFacts.validate_inv in Hv as (s & -> & -> & Hlen).
  rewrite <- (StrFacts.trim_idem s) at 2.
  apply TodoFacts.validate_ok. now rewrite StrFacts.trim_idem.
Qed.

Section WithRuntime.
Context `{DateRuntime}.

(** X10.  The three mutators of a record never change its id or its
    creation date.  When one succeeds it reads the clock once and stamps
    the reading as the update date, and the description stays a trimmed
    string of 1 to 500 characters; when one fails it has read nothing
    and its error is a validation error.  [toggleComplete] and a
    [setCompleted] with a boolean always succeed. *)
Theorem mutators_keep_identity (todo : t) (w : World) :
  description_ok todo →
  (∀ v, match updateDescription todo v w with
        | (Ok todo', w') =>
            w' = tick w ∧ id todo' = id todo ∧ createdAt todo' = createdAt todo ∧
            completed todo' = completed todo ∧
            updatedAt todo' = Some (clock w (ticks w)) ∧ description_ok todo'
        | (Throw e, w') => w' = w ∧ kind_of e = ValidationError
        end) ∧
  (∀ v, match setCompleted todo v w with
        | (Ok todo', w') =>
            w' = tick w ∧ id todo' = id todo ∧ createdAt todo' = createdAt todo ∧
            v = VBool (completed todo') ∧
            updatedAt todo' = Some (clock w (ticks w)) ∧ description_ok todo'
        | (Throw e, w') =>
            w' = w ∧ kind_of e = ValidationError ∧ typeof v ≠ TBoolean
        end) ∧
  (∃ todo',
     toggleComplete todo w = (Ok todo', tick w) ∧
     id todo' = id todo ∧ createdAt todo' = createdAt todo ∧
     completed todo' = negb (completed todo) ∧
     updatedAt todo' = Some (clock w (ticks w)) ∧ description_ok todo').
Proof.
  intros Hd. split; [|split].
  - intros v. unfold updateDescription, bind, lift.
    destruct (validateDescription v) as [d|e] eqn:Hv.
    + cbn. apply TodoFacts.validate_inv in Hv as (s & -> & -> & Hlen).
      repeat apply conj; try reflexivity.
      * cbn. apply StrFacts.trim_idem.
      * cbn. lia.
      * cbn. lia.
    + split; [reflexivity|]. now apply TodoFacts.validate_throw in Hv.
  - intros v. destruct v; cbn;
      try (split; [reflexivity|split; [reflexivity|discriminate]]).
    repeat apply conj; try reflexivity; apply Hd.
  - eexists. split; [reflexivity|]. cbn. repeat apply conj; try reflexivity; apply Hd.
Qed.

(** X11.  [Todo.fromJSON] accepts exactly the objects whose description
    passes [validateDescription].  On such data it keeps a truthy id and
    draws a fresh one otherwise, keeps [completed] only when it is a
    boolean (anything else is silently read as false), and reads a date
    only when the field is truthy (otherwise the clock is used). *)
Theorem fromJSON_accepts_iff (data : Value) (w : World) :
  ((∃ todo w', fromJSON data w = (Ok todo, w')) ↔
   (truthy data = true ∧ is_object_type data = true ∧
    ∃ d, validateDescription (get data "description") = Ok d)) ∧
  (∀ todo w', fromJSON data w = (Ok todo, w') →
     validateDescription (get data "description") = Ok (description todo) ∧
     id todo = (if truthy (get data "id") then get data "id"
                else VStr (uuids w (drawn w))) ∧
     completed todo = match get data "completed" with VBool b => b | _ => false end ∧
     createdAt todo = (if truthy (get data "createdAt")
                       then Date_new (get data "createdAt")
                       else Some (clock w (ticks w))) ∧
     updatedAt todo = (if truthy (get data "updatedAt")
                       then Date_new (get data "updatedAt")
                       else Some (clock w (S (ticks w)))) ∧
     w' = tick (tick (if truthy (get data "id") then w else draw w))).
Proof.
  unfold fromJSON.
  destruct (truthy data) eqn:Ht; cbn [negb orb];
    [|split; [split; [intros (? & ? & E)|intros (E & _)]|intros ? ? E];
      discriminate E].
  destruct (is_object_type data) eqn:Ho; cbn [negb];
    [|split; [split; [intros (? & ? & E)|intros (_ & E & _)]|intros ? ? E];
      discriminate E].
  unfold bind. rewrite !ServiceFacts.new_run. cbv zeta.
  destruct (validateDescription (get data "description")) as [d|e] eqn:Hv.
  - split.
    + split; [intros _; repeat split; eauto|intros _; cbn; eauto].
    + intros todo w' [= <- <-]. cbn.
      repeat apply conj; reflexivity.
  - split.
    + split; [intros (? & ? & E)|intros (_ & _ & d & E)]; discriminate E.
    + intros ? ? E. discriminate E.
Qed.

Lemma fromJSON_object data w d :
  truthy data = true → is_object_type data = true →
  validateDescription (get data "description") = Ok d →
  fromJSON data w =
    (Ok {| id := if truthy (get data "id") then get data "id"
                 else VStr (uuids w (drawn w));
           description := d;
           completed := match get data "completed" with VBool b => b | _ => false end;
           createdAt := if truthy (get data "createdAt")
                        then Date_new (get data "createdAt")
                        else Some (clock w (ticks w));
           updatedAt := if truthy (get data "updatedAt")
                        then Date_new (get data "updatedAt")
                        else Some (clock w (S (ticks w))) |},
     tick (tick (if truthy (get data "id") then w else draw w))).
Proof.
  intros Ht Ho Hv. unfold fromJSON. rewrite Ht, Ho. cbn [negb orb].
  unfold bind. rewrite ServiceFacts.new_run. cbv zeta. rewrite Hv. reflexivity.
Qed.

(** X12.  Data that [Todo.validate] accepts is data that [Todo.fromJSON]
    accepts without drawing an id: the record built has the id of the
    data, its description trimmed, and its [completed] (false when
    absent).  The converse fails: [Todo.validate] measures the
    description before trimming, so it rejects 500 characters followed
    by a space, which [validateDescription] accepts. *)
Theorem validate_implies_fromJSON (data : Value) (w : World) :
  validate data = Ok true →
  (∃ s todo w',
     get data "description" = VStr s ∧
     fromJSON data w = (Ok todo, w') ∧
     id todo = get data "id" ∧ is_string (id todo) = true ∧
     description todo = Str.trim s ∧
     (get data "completed" = VUndefined ∨
      get data "completed" = VBool (completed todo)) ∧
     drawn w' = drawn w) ∧
  validateDescription (VStr (Str.repeat "a" 500 +:+ " ")) = Ok (Str.repeat "a" 500) ∧
  validate (VObj [("id", VStr "1");
                  ("description", VStr (Str.repeat "a" 500 +:+ " "))]) =
    Throw (newError "Todo description cannot exceed 500 characters").
Proof.
  intros Hv. split; [|split; vm_compute; reflexivity].
  unfold validate in Hv.
  destruct (truthy data) eqn:Ht; cbn [negb orb] in Hv; [|discriminate].
  destruct (is_object_type data) eqn:Ho; cbn [negb orb] in Hv; [|discriminate].
  destruct (truthy (get data "id")) eqn:Hid; cbn [negb orb] in Hv; [|discriminate].
  destruct (is_string (get data "id")) eqn:Hstr; cbn [negb orb] in Hv; [|discriminate].
  destruct (get data "description") as [| | | |s| | |] eqn:Hd; try discriminate.
  destruct (negb (truthy (VStr s))); [discriminate|].
  destruct (Nat.eqb_spec (String.length (Str.trim s)) 0); [discriminate|].
  destruct (Nat.ltb_spec 500 (String.length s)); [discriminate|].
  assert (validateDescription (get data "description") = Ok (Str.trim s)) as Hok.
  { rewrite Hd. apply TodoFacts.validate_ok. pose proof (length_trim s). lia. }
  exists s. eexists. eexists. split; [reflexivity|].
  split; [apply (fromJSON_object data w _ Ht Ho Hok)|].
  rewrite Hid. cbn. rewrite Hstr.
  repeat apply conj; try reflexivity.
  destruct (get data "completed"); try discriminate; auto.
Qed.

Section Laws.
Context `{!DateLaws}.

(** X13.  A valid record survives the whole way to the disk and back:
    [JSON.stringify] of its [toJSON] parses to data that [Todo.validate]
    accepts and from which [Todo.fromJSON] rebuilds the same record,
    dates included, without drawing an id. *)
Theorem toJSON_round_trip (todo : t) (w : World) :
  valid_todo todo →
  ∃ text v,
    JSON.stringify (toJSON todo) = Some text ∧
    JSON.parse text = Some v ∧
    validate v = Ok true ∧
    fromJSON v w = (Ok todo, advance 2 w).
Proof.
  intros Hvalid.
  exists (JSON.ser 0 (toJSON todo) EmptyString), (stored todo).
  split; [reflexivity|]. split; [|split].
  - apply JsonFacts.parse_stringify; [|reflexivity].
    apply ServiceFacts.printable_toJSON.
    destruct (valid_id _ Hvalid) as (i & Hi & _). eauto.
  - destruct (ServiceFacts.stored_valid todo Hvalid)
      as (i & d & c & t1 & t2 & _ & Hi & Htrim & Hlen & _ & _ & ->).
    destruct i as [|ci i']; [now destruct Hi|].
    destruct d as [|cd d']; [cbn in Hlen; lia|].
    unfold validate.
    cbn [truthy is_object_type typeof negb orb get assoc String.eqb Ascii.eqb
         Bool.eqb from_option is_string].
    unfold Datatypes.id. cbn [truthy String.eqb negb is_string orb].
    rewrite Htrim.
    destruct (Nat.eqb_spec (String.length (String cd d')) 0); [cbn in *; lia|].
    destruct (Nat.ltb_spec 500 (String.length (String cd d'))); [lia|]. reflexivity.
  - now apply ServiceFacts.fromJSON_stored.
Qed.

End Laws.

End WithRuntime.

Import Examples.

Lemma validateDescription_stable_witness :
  validateDescription (VStr "Buy milk") = Ok "Buy milk"%string.
Proof. apply (validateDescription_stable (VStr "  Buy milk ")). reflexivity. Defined.

Lemma mutators_keep_identity_witness :
  ∃ todo',
    toggleComplete first_todo (world ∅ []) = (Ok todo', tick (world ∅ [])) ∧
    id todo' = id first_todo ∧ createdAt todo' = createdAt first_todo ∧
    completed todo' = negb (completed first_todo) ∧
    updatedAt todo' = Some (clock (world ∅ []) (ticks (world ∅ []))) ∧
    description_ok todo'.
Proof.
  exact (proj2 (proj2 (mutators_keep_identity first_todo (world ∅ [])
                         (valid_description _ ServiceFacts.first_todo_valid)))).
Defined.

Lemma validate_implies_fromJSON_witness :
  ∃ s todo w',
    get (VObj [("id", VStr "test-id"); ("description", VStr "Test description");
               ("completed", VBool false)]) "description" = VStr s ∧
    fromJSON (VObj [("id", VStr "test-id"); ("description", VStr "Test description");
                    ("completed", VBool false)]) (world ∅ []) = (Ok todo, w') ∧
    id todo = get (VObj [("id", VStr "test-id");
                         ("description", VStr "Test description");
                         ("completed", VBool false)]) "id" ∧
    is_string (id todo) = true ∧
    description todo = Str.trim s ∧
    (get (VObj [("id", VStr "test-id"); ("description", VStr "Test description");
                ("completed", VBool false)]) "completed" = VUndefined ∨
     get (VObj [("id", VStr "test-id"); ("description", VStr "Test description");
                ("completed", VBool false)]) "completed" = VBool (completed todo)) ∧
    drawn w' = drawn (world ∅ []).
Proof.
  apply (validate_implies_fromJSON
           (VObj [("id", VStr "test-id"); ("description", VStr "Test description");
                  ("completed", VBool false)]) (world ∅ [])).
  reflexivity.
Defined.

Lemma toJSON_round_trip_witness :
  ∃ text v,
    JSON.stringify (toJSON first_todo) = Some text ∧
    JSON.parse text = Some v ∧
    validate v = Ok true ∧
    fromJSON v (world ∅ []) = (Ok first_todo, advance 2 (world ∅ [])).
Proof.
  apply (toJSON_round_trip (H0 := ServiceFacts.dates_laws) first_todo (world ∅ [])).
  exact ServiceFacts.first_todo_valid.
Defined.

End ModelFacts.

(** ** services/todoService.js beyond the claims *)

Module CrudFacts.
Import TodoService ServiceFacts.

Lemma good_id id : id ≠ EmptyString → bad_id (VStr id) = false.
Proof.
  intros Hne. unfold bad_id. cbn.
  destruct (String.eqb_spec id EmptyString); [contradiction|reflexivity].
Qed.

Lemma bad_id_false id : bad_id id = false → ∃ s, id = VStr s ∧ s ≠ EmptyString.
Proof.
  unfold bad_id.
  destruct id as [| |b|n|s|d|l|ps]; cbn; rewrite ?orb_true_r; try discriminate.
  destruct (String.eqb_spec s EmptyString); [discriminate|]. eauto.
Qed.

Lemma find_absent (todos : list Todo.t) id :
  VStr id ∉ map Todo.id todos →
  List.find (fun todo => strict_eq (Todo.id todo) (VStr id)) todos = None.
Proof.
  induction todos as [|t l IH]; [reflexivity|].
  cbn [map List.find]. intros Hnot.
  apply not_elem_of_cons in Hnot as [Hne Hnot].
  destruct (strict_eq (Todo.id t) (VStr id)) eqn:E.
  - apply strict_eq_str in E. congruence.
  - auto.
Qed.

(** What [findIndex] returns is the first position that satisfies the test. *)
Lemma findIndex_Some {A} (p : A → bool) (l : list A) : ∀ i,
  findIndex p l = Some i →
  ∃ x, l !! i = Some x ∧ p x = true ∧
       ∀ j y, j < i → l !! j = Some y → p y = false.
Proof.
  induction l as [|a l IH]; intros i; [discriminate|].
  cbn [findIndex]. destruct (p a) eqn:Hp.
  - intros [= <-]. exists a. split; [reflexivity|]. split; [exact Hp|]. lia.
  - destruct (findIndex p l) as [k|]; [|discriminate].
    intros [= <-]. destruct (IH k eq_refl) as (x & Hx & Hpx & Hfirst).
    exists x. split; [exact Hx|]. split; [exact Hpx|].
    intros [|j] y Hj; cbn; [now intros [= <-]|].
    apply Hfirst. lia.
Qed.

Lemma count_partition (todos : list Todo.t) :
  length (filter (fun todo => Todo.completed todo = true) todos) +
  length (filter (fun todo => Todo.completed todo = false) todos) = length todos.
Proof.
  induction todos as [|t l IH]; [reflexivity|].
  rewrite !filter_cons. destruct (Todo.completed t);
    repeat case_decide; try congruence; cbn; lia.
Qed.

Lemma ids_of_valid (todos : list Todo.t) :
  Forall valid_todo todos → ∀ t, t ∈ todos → ∃ i, Todo.id t = VStr i.
Proof.
  intros HF t Ht. rewrite Forall_forall in HF.
  destruct (HF t Ht) as [(i & Hi & _) _ _ _]. eauto.
Qed.

Section WithRuntime.
Context `{DateRuntime}.

(** X14.  An id that is not a non-empty string is rejected by
    [getTodoById], [updateTodo], [toggleComplete] and [deleteTodo] with
    the same argument error, before the store is touched: the world is
    the one the call started in. *)
Theorem invalid_id_rejected (st : Storage) (id : Value) (w : World) :
  (∀ s, id = VStr s → s = EmptyString) →
  getTodoById st id w = (Throw (newError "Valid todo ID is required"), w) ∧
  (∀ updates,
     updateTodo st id updates w = (Throw (newError "Valid todo ID is required"), w)) ∧
  toggleComplete st id w = (Throw (newError "Valid todo ID is required"), w) ∧
  deleteTodo st id w = (Throw (newError "Valid todo ID is required"), w) ∧
  kind_of (newError "Valid todo ID is required") = InvalidArgumentError.
Proof.
  intros Hid.
  assert (bad_id id = true) as Hbad.
  { unfold bad_id.
    destruct id as [| |b|n|s|d|l|ps]; cbn; rewrite ?orb_true_r; try reflexivity.
    rewrite (Hid s eq_refl). reflexivity. }
  unfold getTodoById, updateTodo, toggleComplete, deleteTodo. rewrite Hbad.
  repeat apply conj; reflexivity.
Qed.

(** X15.  When the collection that [getAllTodos] returns has no record
    with the given id, [getTodoById] returns nothing, and [updateTodo],
    [toggleComplete] and [deleteTodo] raise the not-found error in the
    world that the read left: nothing is saved. *)
Theorem unknown_id_not_found (st : Storage) (id : string) (w w1 : World)
    (todos : list Todo.t) :
  id ≠ EmptyString →
  getAllTodos st w = (Ok todos, w1) →
  VStr id ∉ map Todo.id todos →
  getTodoById st (VStr id) w = (Ok None, w1) ∧
  (∀ updates,
     truthy updates = true → is_object_type updates = true →
     updateTodo st (VStr id) updates w = (Throw (newError "Todo not found"), w1)) ∧
  toggleComplete st (VStr id) w = (Throw (newError "Todo not found"), w1) ∧
  deleteTodo st (VStr id) w = (Throw (newError "Todo not found"), w1) ∧
  kind_of (newError "Todo not found") = NotFoundError.
Proof.
  intros Hne Hall Hnot.
  pose proof (good_id id Hne) as Hbad.
  pose proof (findIndex_none todos id Hnot) as Hfind.
  unfold getTodoById, updateTodo, toggleComplete, deleteTodo. rewrite Hbad.
  repeat apply conj.
  - rewrite (run_bind _ _ _ _ _ Hall). unfold ret. now rewrite find_absent.
  - intros updates -> ->. cbn [negb orb].
    rewrite (run_bind _ _ _ _ _ Hall). now rewrite Hfind.
  - rewrite (run_bind _ _ _ _ _ Hall). now rewrite Hfind.
  - rewrite (run_bind _ _ _ _ _ Hall). now rewrite Hfind.
  - reflexivity.
Qed.

(** X16.  The three numbers of [getTodosCount] are consistent: the total
    is the number of records that [getAllTodos] returns, and it is the
    sum of the completed and the incomplete ones. *)
Theorem getTodosCount_partition (st : Storage) (w w' : World) (c : Count) :
  getTodosCount st w = (Ok c, w') →
  ∃ todos,
    getAllTodos st w = (Ok todos, w') ∧
    total c = length todos ∧
    total c = completed c + incomplete c ∧
    completed c ≤ total c ∧ incomplete c ≤ total c.
Proof.
  unfold getTodosCount. intros Hrun.
  apply bind_ok_inv in Hrun as (todos & w1 & Hall & Hret).
  unfold ret in Hret. injection Hret as <- <-.
  exists todos. cbn [total completed incomplete].
  pose proof (count_partition todos). repeat apply conj; (exact Hall || lia).
Qed.

Lemma updateDescription_frame todo v w todo' w' :
  Todo.updateDescription todo v w = (Ok todo', w') →
  Todo.id todo' = Todo.id todo ∧ Todo.createdAt todo' = Todo.createdAt todo ∧
  Todo.completed todo' = Todo.completed todo.
Proof.
  unfold Todo.updateDescription, bind, Todo.lift.
  destruct (Todo.validateDescription v); [|discriminate].
  cbn. intros [= <- <-]. auto.
Qed.

Lemma setCompleted_frame todo v w todo' w' :
  Todo.setCompleted todo v w = (Ok todo', w') →
  Todo.id todo' = Todo.id todo ∧ Todo.createdAt todo' = Todo.createdAt todo ∧
  Todo.description todo' = Todo.description todo ∧
  v = VBool (Todo.completed todo').
Proof.
  destruct v; try discriminate. cbn. intros [= <- <-]. auto.
Qed.

(** X17.  Whatever store is behind the service, a successful
    [updateTodo] has replaced exactly the first record whose id is the
    given one, in the collection that it hands to [saveTodos]; the
    returned record has the id and the creation date of the old one, a
    field that the updates do not provide is as it was, and a provided
    [completed] is the one of the updates. *)
Theorem updateTodo_only_provided_fields (st : Storage) (id updates : Value)
    (w w' : World) (todo' : Todo.t) :
  updateTodo st id updates w = (Ok todo', w') →
  ∃ todos i todo w1 w2,
    getAllTodos st w = (Ok todos, w1) ∧
    todos !! i = Some todo ∧
    Todo.id todo = id ∧
    (∀ j t, j < i → todos !! j = Some t → Todo.id t ≠ id) ∧
    Todo.id todo' = Todo.id todo ∧
    Todo.createdAt todo' = Todo.createdAt todo ∧
    (get updates "description" = VUndefined →
       Todo.description todo' = Todo.description todo) ∧
    (get updates "completed" = VUndefined →
       Todo.completed todo' = Todo.completed todo) ∧
    (get updates "completed" ≠ VUndefined →
       get updates "completed" = VBool (Todo.completed todo')) ∧
    saveTodos st (VArr (map Todo.toJSON (<[i := todo']> todos))) w2 = (Ok tt, w').
Proof.
  unfold updateTodo. destruct (bad_id id) eqn:Hbad; [discriminate|].
  destruct (negb (truthy updates) || negb (is_object_type updates)); [discriminate|].
  intros Hrun. apply bind_ok_inv in Hrun as (todos & w1 & Hall & Hrun).
  destruct (findIndex _ todos) as [i|] eqn:Hfind; [|discriminate].
  destruct (todos !! i) as [todo|] eqn:Hget; [|discriminate].
  apply bind_ok_inv in Hrun as (todo1 & wa & H1 & Hrun).
  apply bind_ok_inv in Hrun as (todo2 & wb & H2 & Hrun).
  apply bind_ok_inv in Hrun as ([] & wc & Hsave & Hret).
  unfold ret in Hret. injection Hret as <- <-.
  apply bad_id_false in Hbad as (s & -> & _).
  apply findIndex_Some in Hfind as (x & Hx & Hpx & Hfirst).
  assert (x = todo) as -> by congruence.
  apply strict_eq_str in Hpx.
  assert (Todo.id todo1 = Todo.id todo ∧
          Todo.createdAt todo1 = Todo.createdAt todo ∧
          Todo.completed todo1 = Todo.completed todo ∧
          (get updates "description" = VUndefined →
             Todo.description todo1 = Todo.description todo))
    as (Ha1 & Ha2 & Ha3 & Ha4).
  { destruct (is_undefined (get updates "description")) eqn:Hu; cbn [negb] in H1.
    - unfold ret in H1. injection H1 as <- <-. auto.
    - apply updateDescription_frame in H1 as (? & ? & ?).
      repeat apply conj; try assumption.
      intros E. rewrite E in Hu. discriminate Hu. }
  assert (Todo.id todo2 = Todo.id todo1 ∧
          Todo.createdAt todo2 = Todo.createdAt todo1 ∧
          Todo.description todo2 = Todo.description todo1 ∧
          (get updates "completed" = VUndefined →
             Todo.completed todo2 = Todo.completed todo1) ∧
          (get updates "completed" ≠ VUndefined →
             get updates "completed" = VBool (Todo.completed todo2)))
    as (Hb1 & Hb2 & Hb3 & Hb4 & Hb5).
  { destruct (is_undefined (get updates "completed")) eqn:Hu; cbn [negb] in H2.
    - unfold ret in H2. injection H2 as <- <-.
      repeat apply conj; auto.
      intros Hne. destruct (get updates "completed"); (discriminate || contradiction).
    - apply setCompleted_frame in H2 as (? & ? & ? & ?).
      repeat apply conj; auto.
      intros E. rewrite E in Hu. discriminate Hu. }
  exists todos, i, todo, w1, wb.
  repeat apply conj; try assumption; try congruence.
  - intros j t Hj Ht E. specialize (Hfirst j t Hj Ht).
    apply (proj2 (strict_eq_str _ _)) in E. congruence.
  - intros E. rewrite Hb3. auto.
  - intros E. rewrite (Hb4 E). exact Ha3.
Qed.

(** X18.  When the record is found but the updates carry a description
    that fails [validateDescription], or a [completed] that is not a
    boolean, [updateTodo] raises a validation error and [saveTodos] is
    not reached: files and fault schedule are those the read left. *)
Theorem updateTodo_invalid_fields_not_saved (st : Storage) (id updates : Value)
    (w w1 : World) (todos : list Todo.t) (i : nat) (todo : Todo.t) :
  bad_id id = false →
  truthy updates = true → is_object_type updates = true →
  getAllTodos st w = (Ok todos, w1) →
  findIndex (fun todo => strict_eq (Todo.id todo) id) todos = Some i →
  todos !! i = Some todo →
  (get updates "description" ≠ VUndefined ∧
   is_throw (Todo.validateDescription (get updates "description")) = true) ∨
  (typeof (get updates "completed") ≠ TUndefined ∧
   typeof (get updates "completed") ≠ TBoolean) →
  ∃ e w2,
    updateTodo st id updates w = (Throw e, w2) ∧
    kind_of e = ValidationError ∧
    files w2 = files w1 ∧ faults w2 = faults w1.
Proof.
  intros Hbad Ht Ho Hall Hfind Hget Hinv.
  rewrite (updateTodo_found st id updates w todos w1 i todo Hbad Ht Ho Hall Hfind Hget).
  unfold applyUpdates, bind.
  destruct (is_undefined (get updates "description")) eqn:Hud; cbn [negb].
  - unfold ret at 1.
    destruct Hinv as [[Hne _]|[Hc1 Hc2]].
    { destruct (get updates "description"); (discriminate || contradiction). }
    destruct (get updates "completed"); cbn in Hc1, Hc2 |- *;
      try contradiction;
      (eexists; eexists; split; [reflexivity|];
       split; [reflexivity|split; reflexivity]).
  - unfold Todo.updateDescription, bind, Todo.lift.
    destruct (Todo.validateDescription (get updates "description")) as [d|e] eqn:Hv.
    + destruct Hinv as [[_ Hthrow]|[Hc1 Hc2]]; [discriminate Hthrow|].
      destruct (get updates "completed"); cbn in Hc1, Hc2 |- *;
        try contradiction;
        (eexists; eexists; split; [reflexivity|];
         split; [reflexivity|split; reflexivity]).
    + exists e, w1. split; [reflexivity|].
      split; [now apply TodoFacts.validate_throw in Hv|]. split; reflexivity.
Qed.

Section Laws.
Context `{!DateLaws}.
Variable ss : StorageService.t.

(** X19.  On a healthy disk, whatever the storage file holds (nothing,
    records, or text that is not JSON), [clearAllTodos] succeeds without
    reading it, and afterwards the file holds the empty collection:
    [getAllTodos] returns no record and [getTodosCount] counts none. *)
Theorem clearAllTodos_empties (w : World) :
  faults w = [] →
  ∃ w',
    clearAllTodos (fileStorage ss) w = (Ok true, w') ∧
    files w' !! StorageService.filePath ss = Some "[]"%string ∧
    getAllTodos (fileStorage ss) w' = (Ok [], w') ∧
    getTodosCount (fileStorage ss) w' =
      (Ok {| total := 0; completed := 0; incomplete := 0 |}, w').
Proof.
  intros Hq.
  set (w' := with_files
               (<[StorageService.filePath ss := JSON.ser 0 (VArr []) EmptyString]>
                  (delete (StorageService.tempFilePath ss) (files w))) w).
  assert (getAllTodos (fileStorage ss) w' = (Ok [], w')) as Hall.
  { rewrite <- (advance_0 w') at 2.
    apply (getAllTodos_file ss w' "[]"%string []);
      [exact Hq|apply lookup_insert_eq|reflexivity|constructor]. }
  exists w'. split; [|split; [|split]].
  - unfold clearAllTodos. cbn [saveTodos fileStorage].
    rewrite (run_bind _ _ _ _ _ (FsFacts.saveTodos_ok ss [] w Hq)). reflexivity.
  - apply lookup_insert_eq.
  - exact Hall.
  - unfold getTodosCount. rewrite (run_bind _ _ _ _ _ Hall). reflexivity.
Qed.

(** X20.  For a store of valid records on a healthy disk,
    [clearCompletedTodos] returns the number of completed records and
    persists exactly the incomplete ones, unchanged and in their order;
    read again, the collection has no completed record, and a second
    [clearCompletedTodos] clears nothing. *)
Theorem clearCompletedTodos_keeps_incomplete (w : World) (text : string)
    (todos : list Todo.t) :
  faults w = [] →
  files w !! StorageService.filePath ss = Some text →
  JSON.parse text = Some (VArr (map stored todos)) →
  Forall valid_todo todos →
  ∃ w' text',
    clearCompletedTodos (fileStorage ss) w =
      (Ok (length (filter (fun todo => Todo.completed todo = true) todos)), w') ∧
    files w' !! StorageService.filePath ss = Some text' ∧
    JSON.parse text' =
      Some (VArr (map stored (filter (fun todo => Todo.completed todo = false) todos))) ∧
    filter (fun todo => Todo.completed todo = false) todos `sublist_of` todos ∧
    fst (getAllTodos (fileStorage ss) w') =
      Ok (filter (fun todo => Todo.completed todo = false) todos) ∧
    fst (clearCompletedTodos (fileStorage ss) w') = Ok 0.
Proof.
  intros Hq Hfile Hparse HF.
  set (kept := filter (fun todo => Todo.completed todo = false) todos).
  assert (Forall valid_todo kept) as HFk.
  { apply Forall_forall. intros t Ht. apply list_elem_of_filter in Ht as [_ Ht].
    rewrite Forall_forall in HF. auto. }
  destruct (saveTodos_file ss (advance (2 * length todos) w) kept)
    as (w' & text' & Hsave & Hq' & _ & _ & Hfile' & Hparse').
  { exact Hq. }
  { now apply ids_of_valid. }
  exists w', text'.
  pose proof (getAllTodos_file ss w' text' kept Hq' Hfile' Hparse' HFk) as Hall'.
  split; [|split; [exact Hfile'|split; [exact Hparse'|split; [apply sublist_filter|split]]]].
  - unfold clearCompletedTodos.
    rewrite (run_bind _ _ _ _ _ (getAllTodos_file ss w text todos Hq Hfile Hparse HF)).
    fold kept. rewrite (run_bind _ _ _ _ _ Hsave). unfold ret. do 2 f_equal.
    pose proof (count_partition todos) as Hpart. fold kept in Hpart. lia.
  - now rewrite Hall'.
  - unfold clearCompletedTodos. rewrite (run_bind _ _ _ _ _ Hall').
    assert (filter (fun todo => Todo.completed todo = false) kept = kept) as Hidem.
    { unfold kept. apply list_filter_filter_r. auto. }
    rewrite Hidem.
    destruct (saveTodos_file ss (advance (2 * length kept) w') kept)
      as (w'' & text'' & Hsave' & _).
    { exact Hq'. }
    { now apply ids_of_valid. }
    rewrite (run_bind _ _ _ _ _ Hsave'). cbn. f_equal. lia.
Qed.

(** X21.  For a store of valid records on a healthy disk, [createTodo]
    with a description whose trimmed length is 1 to 500 returns a record
    with the next uuid, the trimmed description, [completed] false and
    the next two clock readings; it draws exactly one uuid, and the
    collection persisted afterwards is the old one with the new record
    appended at the end. *)
Theorem createTodo_appends (w : World) (text : string) (todos : list Todo.t)
    (s : string) :
  faults w = [] →
  files w !! StorageService.filePath ss = Some text →
  JSON.parse text = Some (VArr (map stored todos)) →
  Forall valid_todo todos →
  1 ≤ String.length (Str.trim s) ≤ 500 →
  ∃ w' text',
    let todo := {| Todo.id := VStr (uuids w (drawn w));
                   Todo.description := Str.trim s;
                   Todo.completed := false;
                   Todo.createdAt := Some (clock w (ticks w));
                   Todo.updatedAt := Some (clock w (S (ticks w))) |} in
    createTodo (fileStorage ss) (VStr s) w = (Ok todo, w') ∧
    drawn w' = S (drawn w) ∧
    files w' !! StorageService.filePath ss = Some text' ∧
    JSON.parse text' = Some (VArr (map stored todos ++ [stored todo])).
Proof.
  intros Hq Hfile Hparse HF Hlen.
  set (todo := {| Todo.id := VStr (uuids w (drawn w));
                  Todo.description := Str.trim s;
                  Todo.completed := false;
                  Todo.createdAt := Some (clock w (ticks w));
                  Todo.updatedAt := Some (clock w (S (ticks w))) |}).
  set (w1 := tick (tick (draw w))).
  assert (Todo.new (VStr s) VNull w = (Ok todo, w1)) as Hnew.
  { rewrite new_run. cbv zeta. cbn [truthy].
    now rewrite (TodoFacts.validate_ok s Hlen). }
  pose proof (getAllTodos_file ss w1 text todos Hq Hfile Hparse HF) as Hall.
  destruct (saveTodos_file ss (advance (2 * length todos) w1) (todos ++ [todo]))
    as (w' & text' & Hsave & _ & _ & _ & Hfile' & Hparse').
  { exact Hq. }
  { intros t Ht. apply elem_of_app in Ht as [Ht|Ht].
    - now apply (ids_of_valid todos).
    - apply list_elem_of_singleton in Ht as ->. cbn. eauto. }
  exists w', text'. cbv zeta. fold todo.
  split; [|split; [|split; [exact Hfile'|]]].
  - unfold createTodo. apply run_try_ok.
    rewrite (run_bind _ _ _ _ _ Hnew).
    rewrite (run_bind _ _ _ _ _ Hall).
    rewrite (run_bind _ _ _ _ _ Hsave). reflexivity.
  - cbn [saveTodos fileStorage] in Hsave.
    rewrite FsFacts.saveTodos_ok in Hsave by exact Hq.
    injection Hsave as <-. reflexivity.
  - rewrite Hparse'. now rewrite map_app.
Qed.

Lemma toggleComplete_file w text todos i todo id :
  faults w = [] →
  files w !! StorageService.filePath ss = Some text →
  JSON.parse text = Some (VArr (map stored todos)) →
  Forall valid_todo todos →
  NoDup (map Todo.id todos) →
  todos !! i = Some todo →
  Todo.id todo = VStr id →
  ∃ w' text',
    toggleComplete (fileStorage ss) (VStr id) w =
      (Ok {| Todo.id := Todo.id todo;
             Todo.description := Todo.description todo;
             Todo.completed := negb (Todo.completed todo);
             Todo.createdAt := Todo.createdAt todo;
             Todo.updatedAt := Some (clock w (2 * length todos + ticks w)) |}, w') ∧
    faults w' = [] ∧ clock w' = clock w ∧
    files w' !! StorageService.filePath ss = Some text' ∧
    JSON.parse text' =
      Some (VArr (map stored
         (<[i := {| Todo.id := Todo.id todo;
                    Todo.description := Todo.description todo;
                    Todo.completed := negb (Todo.completed todo);
                    Todo.createdAt := Todo.createdAt todo;
                    Todo.updatedAt := Some (clock w (2 * length todos + ticks w)) |}]>
            todos))).
Proof.
  intros Hq Hfile Hparse HF Hnd Hget Hid.
  destruct (Forall_lookup_1 _ _ _ _ HF Hget) as [(id' & Hid' & Hne) _ _ _].
  assert (id' = id) as -> by congruence.
  set (w1 := advance (2 * length todos) w).
  set (todo' := {| Todo.id := Todo.id todo;
                   Todo.description := Todo.description todo;
                   Todo.completed := negb (Todo.completed todo);
                   Todo.createdAt := Todo.createdAt todo;
                   Todo.updatedAt := Some (clock w (2 * length todos + ticks w)) |}).
  destruct (saveTodos_file ss (tick w1) (<[i := todo']> todos))
    as (w' & text' & Hsave & Hq' & Hclock & _ & Hfile' & Hparse').
  { exact Hq. }
  { intros t Ht. apply list_elem_of_lookup_1 in Ht as [j Hj].
    apply list_lookup_insert_Some in Hj as [(_ & <- & _)|(_ & Hj)].
    - exists id. exact Hid.
    - apply (ids_of_valid todos HF). eapply list_elem_of_lookup_2, Hj. }
  exists w', text'.
  split; [|split; [exact Hq'|split; [exact Hclock|split; [exact Hfile'|exact Hparse']]]].
  unfold toggleComplete. rewrite (good_id id Hne).
  rewrite (run_bind _ _ _ _ _ (getAllTodos_file ss w text todos Hq Hfile Hparse HF)).
  rewrite (findIndex_nodup todos i todo id Hnd Hget Hid), Hget.
  rewrite (run_bind _ _ _ todo' (tick w1)) by reflexivity.
  rewrite (run_bind _ _ _ _ _ Hsave). reflexivity.
Qed.

(** X22.  For a store of valid records with distinct ids on a healthy
    disk whose clock gives a valid time, [toggleComplete] succeeds and
    negates [completed]; a second [toggleComplete] with the same id
    brings [completed] back, and the collection persisted then is the
    original one in which the one record differs in its update date
    only. *)
Theorem toggleComplete_twice (w : World) (text : string)
    (todos : list Todo.t) (i : nat) (todo : Todo.t) (id : string) :
  faults w = [] →
  files w !! StorageService.filePath ss = Some text →
  JSON.parse text = Some (VArr (map stored todos)) →
  Forall valid_todo todos →
  NoDup (map Todo.id todos) →
  todos !! i = Some todo →
  Todo.id todo = VStr id →
  valid_time (clock w (2 * length todos + ticks w)) →
  ∃ todo1 w1 todo2 w2 text2,
    toggleComplete (fileStorage ss) (VStr id) w = (Ok todo1, w1) ∧
    Todo.completed todo1 = negb (Todo.completed todo) ∧
    toggleComplete (fileStorage ss) (VStr id) w1 = (Ok todo2, w2) ∧
    Todo.completed todo2 = Todo.completed todo ∧
    files w2 !! StorageService.filePath ss = Some text2 ∧
    JSON.parse text2 = Some (VArr (<[i := stored todo2]> (map stored todos))) ∧
    (∀ k, k ≠ "updatedAt"%string → get (stored todo2) k = get (stored todo) k).
Proof.
  intros Hq Hfile Hparse HF Hnd Hget Hid Hclock.
  destruct (toggleComplete_file w text todos i todo id Hq Hfile Hparse HF Hnd Hget Hid)
    as (w1 & text1 & Hrun1 & Hq1 & Hclock1 & Hfile1 & Hparse1).
  set (todo1 := {| Todo.id := Todo.id todo;
                   Todo.description := Todo.description todo;
                   Todo.completed := negb (Todo.completed todo);
                   Todo.createdAt := Todo.createdAt todo;
                   Todo.updatedAt := Some (clock w (2 * length todos + ticks w)) |})
    in *.
  pose proof (Forall_lookup_1 _ _ _ _ HF Hget) as [Hv1 Hv2 Hv3 _].
  assert (valid_todo todo1) as Hvalid1.
  { split; [exact Hv1|exact Hv2|exact Hv3|]. eexists. split; [reflexivity|exact Hclock]. }
  assert (i < length todos) as Hlt by (eapply lookup_lt_Some, Hget).
  assert (map Todo.id (<[i := todo1]> todos) = map Todo.id todos) as Hids.
  { rewrite map_insert. apply list_insert_id.
    apply (list_lookup_fmap_Some_2 Todo.id todos i todo Hget). }
  destruct (toggleComplete_file w1 text1 (<[i := todo1]> todos) i todo1 id)
    as (w2 & text2 & Hrun2 & _ & _ & Hfile2 & Hparse2).
  { exact Hq1. }
  { exact Hfile1. }
  { exact Hparse1. }
  { now apply Forall_insert. }
  { now rewrite Hids. }
  { now apply list_lookup_insert_eq. }
  { exact Hid. }
  do 5 eexists.
  split; [exact Hrun1|]. split; [reflexivity|]. split; [exact Hrun2|].
  split; [apply negb_involutive|]. split; [exact Hfile2|].
  split.
  - rewrite Hparse2. now rewrite list_insert_insert_eq, map_insert.
  - intros k Hk. unfold stored, Todo.toJSON.
    cbn [Todo.id Todo.description Todo.completed Todo.createdAt Todo.updatedAt todo1].
    rewrite Hid, negb_involutive. cbn [norm get assoc from_option].
    apply String.eqb_neq in Hk. rewrite Hk.
    repeat (destruct (String.eqb k _); [reflexivity|]). reflexivity.
Qed.

End Laws.

End WithRuntime.

Import Examples.

Lemma invalid_id_rejected_witness :
  getTodoById (fileStorage store) (VNum 123) (world ∅ []) =
    (Throw (newError "Valid todo ID is required"), world ∅ []).
Proof.
  apply (invalid_id_rejected (fileStorage store) (VNum 123) (world ∅ [])).
  intros s E. discriminate E.
Defined.

Lemma unknown_id_not_found_witness :
  toggleComplete (fileStorage store) (VStr "todo-2")
    (world {[ "data/todos.json" := one_todo ]} []) =
    (Throw (newError "Todo not found"),
     advance 2 (world {[ "data/todos.json" := one_todo ]} [])).
Proof.
  apply (unknown_id_not_found (fileStorage store) "todo-2"
           (world {[ "data/todos.json" := one_todo ]} [])
           (advance 2 (world {[ "data/todos.json" := one_todo ]} []))
           [first_todo]).
  - discriminate.
  - vm_compute. reflexivity.
  - intros Hin. apply list_elem_of_singleton in Hin. discriminate Hin.
Defined.

Lemma getTodosCount_partition_witness :
  ∃ todos,
    getAllTodos (fileStorage store)
      (world {[ "data/todos.json" := one_todo ]} []) =
      (Ok todos, advance 2 (world {[ "data/todos.json" := one_todo ]} [])) ∧
    total {| total := 1; completed := 0; incomplete := 1 |} = length todos ∧
    total {| total := 1; completed := 0; incomplete := 1 |} =
      completed {| total := 1; completed := 0; incomplete := 1 |} +
      incomplete {| total := 1; completed := 0; incomplete := 1 |} ∧
    completed {| total := 1; completed := 0; incomplete := 1 |} ≤
      total {| total := 1; completed := 0; incomplete := 1 |} ∧
    incomplete {| total := 1; completed := 0; incomplete := 1 |} ≤
      total {| total := 1; completed := 0; incomplete := 1 |}.
Proof.
  apply (getTodosCount_partition (fileStorage store)
           (world {[ "data/todos.json" := one_todo ]} [])).
  vm_compute. reflexivity.
Defined.

Lemma updateTodo_only_provided_fields_witness :
  let w := world {[ "data/todos.json" := one_todo ]} [] in
  let out := updateTodo (fileStorage store) (VStr "todo-1")
               (VObj [("completed", VBool true)]) w in
  ∃ todo' todos i todo w1 w2,
    fst out = Ok todo' ∧
    getAllTodos (fileStorage store) w = (Ok todos, w1) ∧
    todos !! i = Some todo ∧
    Todo.id todo = VStr "todo-1" ∧
    (∀ j t, j < i → todos !! j = Some t → Todo.id t ≠ VStr "todo-1") ∧
    Todo.id todo' = Todo.id todo ∧
    Todo.createdAt todo' = Todo.createdAt todo ∧
    (get (VObj [("completed", VBool true)]) "description" = VUndefined →
       Todo.description todo' = Todo.description todo) ∧
    (get (VObj [("completed", VBool true)]) "completed" = VUndefined →
       Todo.completed todo' = Todo.completed todo) ∧
    (get (VObj [("completed", VBool true)]) "completed" ≠ VUndefined →
       get (VObj [("completed", VBool true)]) "completed"
         = VBool (Todo.completed todo')) ∧
    saveTodos (fileStorage store)
      (VArr (map Todo.toJSON (<[i := todo']> todos))) w2 = (Ok tt, snd out).
Proof.
  intros w out.
  exists {| Todo.id := VStr "todo-1"; Todo.description := "Original description";
            Todo.completed := true; Todo.createdAt := Some 5%Z;
            Todo.updatedAt := Some 1002%Z |}.
  destruct (updateTodo_only_provided_fields (fileStorage store) (VStr "todo-1")
              (VObj [("completed", VBool true)]) w (snd out)
              {| Todo.id := VStr "todo-1"; Todo.description := "Original description";
                 Todo.completed := true; Todo.createdAt := Some 5%Z;
                 Todo.updatedAt := Some 1002%Z |})
    as (todos & i & todo & w1 & w2 & Hrest).
  - vm_compute. reflexivity.
  - exists todos, i, todo, w1, w2. split; [vm_compute; reflexivity|exact Hrest].
Defined.

Lemma updateTodo_invalid_fields_not_saved_witness :
  ∃ e w2,
    updateTodo (fileStorage store) (VStr "todo-1")
      (VObj [("description", VStr "Fine"); ("completed", VStr "true")])
      (world {[ "data/todos.json" := one_todo ]} []) = (Throw e, w2) ∧
    kind_of e = ValidationError ∧
    files w2 = files (advance 2 (world {[ "data/todos.json" := one_todo ]} [])) ∧
    faults w2 = faults (advance 2 (world {[ "data/todos.json" := one_todo ]} [])).
Proof.
  apply (updateTodo_invalid_fields_not_saved (fileStorage store) (VStr "todo-1")
           (VObj [("description", VStr "Fine"); ("completed", VStr "true")])
           (world {[ "data/todos.json" := one_todo ]} [])
           (advance 2 (world {[ "data/todos.json" := one_todo ]} []))
           [first_todo] 0 first_todo).
  - reflexivity.
  - reflexivity.
  - reflexivity.
  - vm_compute. reflexivity.
  - reflexivity.
  - reflexivity.
  - right. split; discriminate.
Defined.

Lemma clearAllTodos_empties_witness :
  let w := world {[ "data/todos.json" := "invalid json content"%string ]} [] in
  ∃ w',
    clearAllTodos (fileStorage store) w = (Ok true, w') ∧
    files w' !! StorageService.filePath store = Some "[]"%string ∧
    getAllTodos (fileStorage store) w' = (Ok [], w') ∧
    getTodosCount (fileStorage store) w' =
      (Ok {| total := 0; completed := 0; incomplete := 0 |}, w').
Proof.
  intros w. apply (clearAllTodos_empties (H0 := dates_laws) store w). reflexivity.
Defined.

Lemma done_todo_valid : valid_todo done_todo.
Proof.
  split.
  - exists "todo-2"%string. split; [reflexivity|discriminate].
  - split; [reflexivity|]. vm_compute. lia.
  - exists 8%Z. split; [reflexivity|]. unfold valid_time. lia.
  - exists 9%Z. split; [reflexivity|]. unfold valid_time. lia.
Qed.

Lemma clearCompletedTodos_keeps_incomplete_witness :
  ∃ w' text',
    clearCompletedTodos (fileStorage store)
      (world {[ "data/todos.json" := two_todos ]} []) = (Ok 1, w') ∧
    files w' !! StorageService.filePath store = Some text' ∧
    JSON.parse text' = Some (VArr (map stored [first_todo])) ∧
    [first_todo] `sublist_of` [first_todo; done_todo] ∧
    fst (getAllTodos (fileStorage store) w') = Ok [first_todo] ∧
    fst (clearCompletedTodos (fileStorage store) w') = Ok 0.
Proof.
  apply (clearCompletedTodos_keeps_incomplete (H0 := dates_laws) store
           (world {[ "data/todos.json" := two_todos ]} []) two_todos
           [first_todo; done_todo]).
  - reflexivity.
  - reflexivity.
  - vm_compute. reflexivity.
  - constructor; [exact first_todo_valid|].
    constructor; [exact done_todo_valid|constructor].
Defined.

Lemma createTodo_appends_witness :
  ∃ w' text',
    let todo := {| Todo.id := VStr "uuid-0";
                   Todo.description := "Buy milk";
                   Todo.completed := false;
                   Todo.createdAt := Some 1000%Z;
                   Todo.updatedAt := Some 1001%Z |} in
    createTodo (fileStorage store) (VStr "  Buy milk ")
      (world {[ "data/todos.json" := one_todo ]} []) = (Ok todo, w') ∧
    drawn w' = 1 ∧
    files w' !! StorageService.filePath store = Some text' ∧
    JSON.parse text' = Some (VArr (map stored [first_todo] ++ [stored todo])).
Proof.
  apply (createTodo_appends (H0 := dates_laws) store
           (world {[ "data/todos.json" := one_todo ]} []) one_todo [first_todo]
           "  Buy milk ").
  - reflexivity.
  - reflexivity.
  - vm_compute. reflexivity.
  - constructor; [exact first_todo_valid|constructor].
  - vm_compute. lia.
Defined.

Lemma toggleComplete_twice_witness :
  ∃ todo1 w1 todo2 w2 text2,
    toggleComplete (fileStorage store) (VStr "todo-1")
      (world {[ "data/todos.json" := one_todo ]} []) = (Ok todo1, w1) ∧
    Todo.completed todo1 = negb (Todo.completed first_todo) ∧
    toggleComplete (fileStorage store) (VStr "todo-1") w1 = (Ok todo2, w2) ∧
    Todo.completed todo2 = Todo.completed first_todo ∧
    files w2 !! StorageService.filePath store = Some text2 ∧
    JSON.parse text2 =
      Some (VArr (<[0 := stored todo2]> (map stored [first_todo]))) ∧
    (∀ k, k ≠ "updatedAt"%string →
       get (stored todo2) k = get (stored first_todo) k).
Proof.
  apply (toggleComplete_twice (H0 := dates_laws) store
           (world {[ "data/todos.json" := one_todo ]} []) one_todo
           [first_todo] 0 first_todo "todo-1").
  - reflexivity.
  - reflexivity.
  - vm_compute. reflexivity.
  - constructor; [exact first_todo_valid|constructor].
  - apply NoDup_singleton.
  - reflexivity.
  - reflexivity.
  - unfold valid_time. vm_compute. split; discriminate.
Defined.

End CrudFacts.

(** ** controllers/todoController.js *)

Module ControllerFacts.
Import TodoController.

Section WithRuntime.
Context `{DateRuntime}.
Variable st : Storage.
Variable production : bool.

Lemma handle_initialized this body onError w :
  initialized this = true →
  handle st this body onError w =
    match body w with
    | (Ok response, w2) => ((response, this), w2)
    | (Throw error, w2) => ((onError error, this), w2)
    end.
Proof. intros Hi. unfold handle, initialize. now rewrite Hi. Qed.

Lemma well_formed_refuse code err :
  code = 400 ∨ code = 404 → well_formed production (refuse code err).
Proof. intros Hc. right. left. cbn. auto. Qed.

Lemma well_formed_fail err error : well_formed production (fail production err error).
Proof.
  right. right. unfold fail. cbn. repeat split. now destruct production.
Qed.

Lemma well_formed_notFoundOr err error :
  well_formed production (notFoundOr production err error).
Proof.
  unfold notFoundOr. destruct (String.eqb _ _).
  - apply well_formed_refuse. auto.
  - apply well_formed_fail.
Qed.

Lemma handle_well_formed this body onError w :
  (∀ error, well_formed production (onError error)) →
  (∀ w0 r w', body w0 = (Ok r, w') → well_formed production r) →
  well_formed production (fst (fst (handle st this body onError w))).
Proof.
  intros Herr Hbody. unfold handle.
  destruct (initialize st this w) as [[this1|e] w1]; [|apply Herr].
  destruct (body w1) as [[r|e] w2] eqn:Hb; [|apply Herr].
  apply (Hbody w1 r w2 Hb).
Qed.

Lemma checkDescription_cases updates :
  (∃ err, checkDescription updates = inl (refuse 400 err)) ∨
  (∃ updates1, checkDescription updates = inr updates1).
Proof.
  unfold checkDescription.
  destruct (get updates "description"); eauto.
  destruct (_ =? 0); [eauto|]. destruct (500 <? _); eauto.
Qed.

Ltac answered :=
  intros [= <- <- <-]; cbn;
  first [ discriminate | intros _; split; reflexivity ].

(** X23.  On an initialized controller, a request that [createTodo],
    [updateTodo] or [deleteTodo] answers with status 400 has changed
    nothing: the world and the controller are as before the request (no
    id was drawn, the clock was not read, the store was not called). *)
Theorem bad_request_changes_nothing (this : t) (req : Request) (w : World) :
  initialized this = true →
  (∀ resp this' w',
     createTodo st production this req w = ((resp, this'), w') →
     status resp = 400 → w' = w ∧ this' = this) ∧
  (∀ resp this' w',
     updateTodo st production this req w = ((resp, this'), w') →
     status resp = 400 → w' = w ∧ this' = this) ∧
  (∀ resp this' w',
     deleteTodo st production this req w = ((resp, this'), w') →
     status resp = 400 → w' = w ∧ this' = this).
Proof.
  intros Hi. split; [|split]; intros resp this' w'.
  - unfold createTodo. rewrite handle_initialized by exact Hi.
    unfold bind, destructure, ret, throw.
    destruct (is_nullish (body req)); [answered|].
    destruct (is_nullish (get (body req) "description")); [answered|].
    destruct (get (body req) "description"); try answered.
    destruct (_ =? 0); [answered|]. destruct (500 <? _); [answered|].
    destruct (TodoService.createTodo st _ w) as [[todo|e] w2]; answered.
  - unfold updateTodo. rewrite handle_initialized by exact Hi.
    unfold bind, destructure, ret, throw.
    destruct (is_nullish (params req)); [answered|].
    destruct (TodoService.bad_id _); [answered|].
    destruct (_ || _); [answered|].
    destruct (checkDescription_cases (body req)) as [[err ->]|[u ->]]; [answered|].
    destruct (_ && _); [answered|].
    destruct (TodoService.updateTodo st _ _ w) as [[todo|e] w2]; [answered|].
    unfold notFoundOr. destruct (String.eqb _ _); answered.
  - unfold deleteTodo. rewrite handle_initialized by exact Hi.
    unfold bind, destructure, ret, throw.
    destruct (is_nullish (params req)); [answered|].
    destruct (TodoService.bad_id _); [answered|].
    destruct (TodoService.deleteTodo st _ w) as [[b|e] w2]; [answered|].
    unfold notFoundOr. destruct (String.eqb _ _); answered.
Qed.

(** X24.  On an initialized controller, [updateTodo] with a usable id
    answers 400 ["Updates object is required"] to every body that is not
    an object with at least one property (nothing at all, [null], a
    string, an array, a date, the empty object), and the world is as
    before: the empty object never reaches the service. *)
Theorem updateTodo_requires_nonempty_object (this : t) (req : Request)
    (w : World) (id : string) :
  initialized this = true →
  get (params req) "id" = VStr id → id ≠ EmptyString →
  (∀ ps, body req = VObj ps → ps = []) →
  updateTodo st production this req w =
    ((refuse 400 "Updates object is required", this), w).
Proof.
  intros Hi Hid Hne Hbody.
  unfold updateTodo. rewrite handle_initialized by exact Hi.
  unfold bind, destructure, ret.
  destruct (params req) as [| | | | | | |ps]; try discriminate Hid.
  cbn [is_nullish]. rewrite Hid, (CrudFacts.good_id id Hne).
  destruct (body req) as [| | | | | | |qs]; try reflexivity.
  now rewrite (Hbody qs eq_refl).
Qed.

(** X25.  Whatever the controller, the request and the world, every
    handler answers with a well-formed response: status 200 or 201 with
    [success] true; status 400 or 404 with [success] false, an error
    text and no details; or status 500 with [success] false, an error
    text and, outside production only, details.  In production no
    response carries the message of an internal error. *)
Theorem responses_well_formed :
  Forall (fun h => ∀ this req w, well_formed production (fst (fst (h this req w))))
         (handlers st production).
Proof.
  assert (∀ code err, code = 400 → well_formed production (refuse code err)) as Hrefuse.
  { intros code err ->. apply well_formed_refuse. auto. }
  unfold handlers. repeat apply List.Forall_cons; [| | | |apply List.Forall_nil];
    intros this req w; apply handle_well_formed;
    try apply well_formed_fail; try apply well_formed_notFoundOr;
    intros w0 r w'; unfold bind, destructure, ret, throw.
  - destruct (TodoService.getAllTodos st w0) as [[todos|e] w1]; [|discriminate].
    intros [= <- <-]. left. cbn. auto.
  - destruct (is_nullish (body req)); [discriminate|].
    destruct (is_nullish (get (body req) "description"));
      [intros [= <- <-]; now apply Hrefuse|].
    destruct (get (body req) "description");
      try (intros [= <- <-]; now apply Hrefuse).
    destruct (_ =? 0); [intros [= <- <-]; now apply Hrefuse|].
    destruct (500 <? _); [intros [= <- <-]; now apply Hrefuse|].
    destruct (TodoService.createTodo st _ w0) as [[todo|e] w2]; [|discriminate].
    intros [= <- <-]. left. cbn. auto.
  - destruct (is_nullish (params req)); [discriminate|].
    destruct (TodoService.bad_id _); [intros [= <- <-]; now apply Hrefuse|].
    destruct (_ || _); [intros [= <- <-]; now apply Hrefuse|].
    destruct (checkDescription_cases (body req)) as [[err ->]|[u ->]];
      [intros [= <- <-]; now apply Hrefuse|].
    destruct (_ && _); [intros [= <- <-]; now apply Hrefuse|].
    destruct (TodoService.updateTodo st _ _ w0) as [[todo|e] w2]; [|discriminate].
    intros [= <- <-]. left. cbn. auto.
  - destruct (is_nullish (params req)); [discriminate|].
    destruct (TodoService.bad_id _); [intros [= <- <-]; now apply Hrefuse|].
    destruct (TodoService.deleteTodo st _ w0) as [[b|e] w2]; [|discriminate].
    intros [= <- <-]. left. cbn. auto.
Qed.

(** X26.  On an initialized controller, when the collection has no
    record with the id of the request, [deleteTodo] answers 404
    ["Todo not found"], and so does [updateTodo] for a body that passes
    the checks of the controller; the world is the one the read left. *)
Theorem unknown_id_answers_404 (this : t) (req : Request) (id : string)
    (w w1 : World) (todos : list Todo.t) :
  initialized this = true →
  get (params req) "id" = VStr id → id ≠ EmptyString →
  TodoService.getAllTodos st w = (Ok todos, w1) →
  VStr id ∉ map Todo.id todos →
  deleteTodo st production this req w = ((refuse 404 "Todo not found", this), w1) ∧
  (∀ ps u,
     body req = VObj ps → ps ≠ [] →
     checkDescription (VObj ps) = inr u →
     (get u "completed" = VUndefined ∨ ∃ b, get u "completed" = VBool b) →
     updateTodo st production this req w =
       ((refuse 404 "Todo not found", this), w1)).
Proof.
  intros Hi Hid Hne Hall Hnot.
  pose proof (CrudFacts.good_id id Hne) as Hgood.
  pose proof (ServiceFacts.findIndex_none todos id Hnot) as Hfind.
  assert (is_nullish (params req) = false) as Hp.
  { destruct (params req); (reflexivity || discriminate Hid). }
  split.
  - unfold deleteTodo. rewrite handle_initialized by exact Hi.
    unfold bind at 1, destructure. rewrite Hp. unfold ret at 1. rewrite Hid, Hgood.
    unfold bind at 1, TodoService.deleteTodo. rewrite Hgood.
    rewrite (run_bind _ _ _ _ _ Hall), Hfind. reflexivity.
  - intros ps u Hbody Hps Hcheck Hcompleted.
    assert (∃ qs, u = VObj qs) as [qs ->].
    { unfold checkDescription in Hcheck.
      destruct (get (VObj ps) "description"); try discriminate Hcheck.
      - injection Hcheck as <-. eauto.
      - destruct (_ =? 0); [discriminate Hcheck|].
        destruct (500 <? _); [discriminate Hcheck|].
        injection Hcheck as <-. cbn. eauto. }
    unfold updateTodo. rewrite handle_initialized by exact Hi.
    unfold bind at 1, destructure. rewrite Hp. unfold ret at 1. rewrite Hid, Hgood.
    rewrite Hbody. cbn [is_nullish is_object_type typeof isArray negb orb keys_length].
    destruct ps as [|p ps]; [contradiction|]. cbn [length Nat.eqb].
    rewrite Hcheck.
    assert (negb (TodoService.is_undefined (get (VObj qs) "completed"))
            && negb match get (VObj qs) "completed" with
                    | VBool _ => true
                    | _ => false
                    end = false) as ->.
    { destruct Hcompleted as [->|[b ->]]; reflexivity. }
    unfold bind at 1, TodoService.updateTodo. rewrite Hgood.
    cbn [truthy is_object_type typeof negb orb].
    rewrite (run_bind _ _ _ _ _ Hall), Hfind. reflexivity.
Qed.

End WithRuntime.

Section Initialization.
Context `{DateRuntime}.

Lemma handle_flag (st : Storage) this body onError w :
  initialized (snd (fst (handle st this body onError w))) =
    initialized this || negb (is_throw (fst (initializeStorage st w))).
Proof.
  unfold handle, initialize, TodoService.initialize.
  destruct (initialized this) eqn:Hi.
  - unfold ret at 1. destruct (body w) as [[r|e] w2]; cbn; exact Hi.
  - unfold bind. destruct (initializeStorage st w) as [[[]|e] w1]; cbn.
    + destruct (body w1) as [[r|e] w2]; reflexivity.
    + exact Hi.
Qed.

(** X27.  Whatever the handler, the request and the world, the
    controller is initialized after the request exactly when it was
    initialized before or the [initialize] of the service (the
    [initializeStorage] of its store) went through: a failed
    initialization is tried again by the next request, a successful one
    is remembered whatever else the request runs into. *)
Theorem initialized_after_request (st : Storage) (production : bool) :
  Forall (fun h => ∀ this req w,
            initialized (snd (fst (h this req w))) =
              initialized this || negb (is_throw (fst (initializeStorage st w))))
         (handlers st production).
Proof.
  unfold handlers. repeat apply List.Forall_cons; [| | | |apply List.Forall_nil];
    intros this req w; apply handle_flag.
Qed.

(** X28.  When the controller is not initialized and the
    [initializeStorage] of the file store fails, every handler answers
    500, with the message of that failure as details outside production
    and none in production; the controller stays uninitialized, so the
    next request tries again. *)
Theorem failed_initialization_answers_500 (ss : StorageService.t)
    (production : bool) (this : t) (req : Request) (w w1 : World) (e : Error) :
  initialized this = false →
  StorageService.initializeStorage ss w = (Throw e, w1) →
  Forall (fun h => ∃ resp,
            h this req w = ((resp, this), w1) ∧
            status resp = 500 ∧
            get (json resp) "details" =
              (if production then VUndefined else VStr (message e)))
         (handlers (fileStorage ss) production).
Proof.
  intros Hi Hrun.
  destruct (StoreFacts.initializeStorage_throw_inv ss w e w1 Hrun) as [m ->].
  assert (∀ body onError,
            handle (fileStorage ss) this body onError w = ((onError
              (newError ("Failed to initialize storage: " +:+ m)), this), w1)) as Hh.
  { intros body onError. unfold handle, initialize, TodoService.initialize.
    rewrite Hi. unfold bind. cbn [initializeStorage fileStorage].
    now rewrite Hrun. }
  unfold handlers. repeat apply List.Forall_cons; [| | | |apply List.Forall_nil];
    unfold getAllTodos, createTodo, updateTodo, deleteTodo;
    rewrite Hh; eexists; (split; [reflexivity|]); split; reflexivity.
Qed.

End Initialization.

Import Examples.

Lemma bad_request_changes_nothing_witness :
  let this := {| initialized := true |} in
  let req := {| params := VObj [];
                body := VObj [("description", VStr "   ")] |} in
  let w := world {[ "data/todos.json" := one_todo ]} [] in
  snd (createTodo (fileStorage store) true this req w) = w ∧
  snd (fst (createTodo (fileStorage store) true this req w)) = this.
Proof.
  intros this req w.
  apply (proj1 (bad_request_changes_nothing (fileStorage store) true this req w
                  eq_refl)
           (fst (fst (createTodo (fileStorage store) true this req w)))).
  - vm_compute. reflexivity.
  - reflexivity.
Defined.

Lemma updateTodo_requires_nonempty_object_witness :
  updateTodo (fileStorage store) true {| initialized := true |}
    {| params := VObj [("id", VStr "todo-1")]; body := VObj [] |}
    (world {[ "data/todos.json" := one_todo ]} []) =
    ((refuse 400 "Updates object is required", {| initialized := true |}),
     world {[ "data/todos.json" := one_todo ]} []).
Proof.
  apply (updateTodo_requires_nonempty_object (fileStorage store) true
           {| initialized := true |}
           {| params := VObj [("id", VStr "todo-1")]; body := VObj [] |}
           (world {[ "data/todos.json" := one_todo ]} []) "todo-1").
  - reflexivity.
  - reflexivity.
  - discriminate.
  - intros ps E. injection E as <-. reflexivity.
Defined.

Lemma unknown_id_answers_404_witness :
  deleteTodo (fileStorage store) true {| initialized := true |}
    {| params := VObj [("id", VStr "todo-2")]; body := VUndefined |}
    (world {[ "data/todos.json" := one_todo ]} []) =
    ((refuse 404 "Todo not found", {| initialized := true |}),
     advance 2 (world {[ "data/todos.json" := one_todo ]} [])).
Proof.
  apply (unknown_id_answers_404 (fileStorage store) true
           {| initialized := true |}
           {| params := VObj [("id", VStr "todo-2")]; body := VUndefined |}
           "todo-2"
           (world {[ "data/todos.json" := one_todo ]} [])
           (advance 2 (world {[ "data/todos.json" := one_todo ]} []))
           [first_todo]).
  - reflexivity.
  - reflexivity.
  - discriminate.
  - vm_compute. reflexivity.
  - intros Hin. apply list_elem_of_singleton in Hin. discriminate Hin.
Defined.

Lemma failed_initialization_answers_500_witness :
  Forall (fun h => ∃ resp,
            h {| initialized := false |}
              {| params := VObj []; body := VObj [] |}
              (world ∅ [Some EACCES]) =
              ((resp, {| initialized := false |}), world ∅ []) ∧
            status resp = 500 ∧
            get (json resp) "details" =
              VStr "Failed to initialize storage: EACCES: permission denied")
         (handlers (fileStorage store) false).
Proof.
  apply (failed_initialization_answers_500 store false {| initialized := false |}
           {| params := VObj []; body := VObj [] |}
           (world ∅ [Some EACCES]) (world ∅ [])
           (newError "Failed to initialize storage: EACCES: permission denied")).
  - reflexivity.
  - vm_compute. reflexivity.
Defined.

End ControllerFacts.
